(** * QuizApp: content ingestion and attributed generation

    A shallow embedding of the two services of the repository,

    - [FileProcessingService] (the extraction layer and the call to the
      completion service), and
    - [SupabaseService] (ingestion, provenance records, the generation
      coordinator, question pool and flashcard progress),

    together with the properties the specification states about them.

    Conventions.
    - JavaScript strings are modelled by [string]: sequences of code units
      below 256.  The regular-expression class [\s] is therefore the set
      {9, 10, 11, 12, 13, 32, 160}.
    - A thrown [Error] is a record with the [message] and the [code] that the
      source inspects; [async] functions become functions into [Outcome].
    - Row identifiers (UUIDs in the database) are natural numbers; a table is
      a finite map from the primary key to the row.
    - Every call to the database or the blob store consults a schedule of
      pending faults, so that each call may fail independently.
    - Notifications and console logging only touch the user interface (the
      listeners run inside a [try]/[catch]) and are left out. *)

From Stdlib Require Import ZArith String Ascii List Lia.
From Stdlib Require Import Floats.PrimFloat.
From stdpp Require Import base option list gmap strings pretty.

Set Default Proof Using "Type".

(* ===================================================================== *)
(** * Part I: the embedding                                              *)
(* ===================================================================== *)

(** ** Errors and outcomes *)

Record Error := mkError { message : string; code : string }.

(** [new Error(msg)]: an error object without a [code]. *)
Definition newError (msg : string) : Error := {| message := msg; code := EmptyString |}.

Inductive Outcome (A : Type) : Type :=
| Ok (a : A)
| Throw (e : Error).
Arguments Ok {A} a.
Arguments Throw {A} e.

Definition is_ok {A} (r : Outcome A) : bool :=
  match r with Ok _ => true | Throw _ => false end.

(** [try { body } catch (e) { handler }] for code without store effects. *)
Definition try_catch_pure {A} (body : Outcome A) (handler : Error -> Outcome A)
  : Outcome A :=
  match body with
  | Ok a => Ok a
  | Throw e => handler e
  end.

Definition bind_pure {A B} (m : Outcome A) (k : A -> Outcome B) : Outcome B :=
  match m with
  | Ok a => k a
  | Throw e => Throw e
  end.

(** ** JavaScript string primitives *)

Module Js.

(** The class [\s] on code units below 256. *)
Definition is_space (c : ascii) : bool :=
  let n := nat_of_ascii c in
  (n =? 9) || (n =? 10) || (n =? 11) || (n =? 12) || (n =? 13)
  || (n =? 32) || (n =? 160).

(** Line terminators: the characters [.] does not match. *)
Definition is_line_terminator (c : ascii) : bool :=
  let n := nat_of_ascii c in (n =? 10) || (n =? 13).

Definition is_empty (s : string) : bool :=
  match s with EmptyString => true | String _ _ => false end.

Fixpoint trimStart (s : string) : string :=
  match s with
  | EmptyString => EmptyString
  | String c r => if is_space c then trimStart r else s
  end.

Fixpoint trimEnd (s : string) : string :=
  match s with
  | EmptyString => EmptyString
  | String c r =>
      let r' := trimEnd r in
      if is_space c && is_empty r' then EmptyString else String c r'
  end.

(** [s.trim()] *)
Definition trim (s : string) : string := trimEnd (trimStart s).

(** [s.replace(/\s+/g, ' ')]: [in_ws] tells that the previous code unit
    belonged to the run of white space that is being replaced. *)
Fixpoint collapse_from (in_ws : bool) (s : string) : string :=
  match s with
  | EmptyString => EmptyString
  | String c r =>
      if is_space c
      then (if in_ws then collapse_from true r
            else String " " (collapse_from true r))
      else String c (collapse_from false r)
  end.

Definition replace_ws_runs (s : string) : string := collapse_from false s.

(** [s.split(/\s+/)]: [cur] is the piece being read, in reverse. *)
Fixpoint split_from (cur : list ascii) (in_ws : bool) (s : string)
  : list string :=
  match s with
  | EmptyString => [string_of_list_ascii (rev cur)]
  | String c r =>
      if is_space c
      then (if in_ws then split_from [] true r
            else string_of_list_ascii (rev cur) :: split_from [] true r)
      else split_from (c :: cur) false r
  end.

Definition split_ws (s : string) : list string := split_from [] false s.

(** [s.includes(p)] *)
Fixpoint includes (p s : string) : bool :=
  String.prefix p s ||
  match s with
  | EmptyString => false
  | String _ r => includes p r
  end.

(** [ss.join(sep)] *)
Fixpoint join (sep : string) (ss : list string) : string :=
  match ss with
  | [] => EmptyString
  | [s] => s
  | s :: rest => s +:+ sep +:+ join sep rest
  end.

(** [a || b] on strings that may be [undefined]: the empty string is
    falsy. *)
Definition or_else (a : option string) (b : string) : string :=
  match a with
  | Some s => if is_empty s then b else s
  | None => b
  end.

(** Distance to the next [sep] on the current line, for a lazy [.*?]. *)
Fixpoint distance_to (sep : ascii) (s : string) : option nat :=
  match s with
  | EmptyString => None
  | String c r =>
      if Ascii.eqb c sep then Some 0
      else if is_line_terminator c then None
      else option_map S (distance_to sep r)
  end.

(** [s.replace(/\[.*?\]/g, '')]: [skip] counts the code units of the
    current match that are still to be dropped. *)
Fixpoint strip_brackets_from (skip : nat) (s : string) : string :=
  match s with
  | EmptyString => EmptyString
  | String c r =>
      match skip with
      | S k => strip_brackets_from k r
      | O =>
          if Ascii.eqb c "["
          then match distance_to "]" r with
               | Some d => strip_brackets_from (S d) r
               | None => String c (strip_brackets_from 0 r)
               end
          else String c (strip_brackets_from 0 r)
      end
  end.

Definition strip_brackets (s : string) : string := strip_brackets_from 0 s.

End Js.

(** The word count every extraction strategy uses:
    [text.split(/\s+/).length]. *)
Definition splitCount (text : string) : nat := length (Js.split_ws text).


(** ** The extraction layer: [FileProcessingService] *)

Module FileProcessingService.

(** The [metadata] bag of an extraction result.  Only the keys that some
    caller reads are kept; dates are left out. *)
Record Metadata := {
  wordCount : nat;
  fileType : option string;
  fileSize : option nat;
  pages : option nat;
  videoId : option string;
  originalUrl : option string;
  title : option string;
  contentLength : option nat;
  transcriptSegments : option nat;
  hasTranscript : option bool;
  extractionError : option string;
  documentType : option string
}.

Definition emptyMetadata (wc : nat) : Metadata :=
  {| wordCount := wc; fileType := None; fileSize := None; pages := None;
     videoId := None; originalUrl := None; title := None;
     contentLength := None; transcriptSegments := None;
     hasTranscript := None; extractionError := None;
     documentType := None |}.

Record ExtractedContent := {
  type : string;
  source : string;
  extractedText : string;
  metadata : Metadata
}.

Record File := { name : string; byteSize : nat; mimeType : string }.

(** *** [extractYouTubeVideoId] *)

Definition in_range (lo hi : nat) (c : ascii) : bool :=
  let n := nat_of_ascii c in (lo <=? n) && (n <=? hi).

(** [[a-zA-Z0-9_-]] *)
Definition is_id_char (c : ascii) : bool :=
  in_range 97 122 c || in_range 65 90 c || in_range 48 57 c
  || Ascii.eqb c "_" || Ascii.eqb c "-".

(** [[^&\n?#]] *)
Definition is_capture_char (c : ascii) : bool :=
  negb (Ascii.eqb c "&" || Ascii.eqb c "010" || Ascii.eqb c "?"
        || Ascii.eqb c "#").

Fixpoint take_while (p : ascii -> bool) (s : string) : string :=
  match s with
  | EmptyString => EmptyString
  | String c r => if p c then String c (take_while p r) else EmptyString
  end.

Fixpoint all_chars (p : ascii -> bool) (s : string) : bool :=
  match s with
  | EmptyString => true
  | String c r => p c && all_chars p r
  end.

Fixpoint strip_prefix (p s : string) : option string :=
  match p, s with
  | EmptyString, _ => Some s
  | String a p', String b s' =>
      if Ascii.eqb a b then strip_prefix p' s' else None
  | String _ _, EmptyString => None
  end.

Definition video_url_prefixes : list string :=
  ["youtube.com/watch?v="; "youtu.be/"; "youtube.com/embed/";
   "youtube.com/v/"].

(** One attempt of the first pattern at the start of [s]: the
    alternatives in order, each followed by a non-empty greedy capture. *)
Fixpoint capture_after (alts : list string) (s : string) : option string :=
  match alts with
  | [] => None
  | alt :: alts' =>
      match strip_prefix alt s with
      | Some rest =>
          let cap := take_while is_capture_char rest in
          if Js.is_empty cap then capture_after alts' s else Some cap
      | None => capture_after alts' s
      end
  end.

(** The leftmost match of the first pattern. *)
Fixpoint search_video_id (s : string) : option string :=
  match s with
  | EmptyString => None
  | String _ r =>
      match capture_after video_url_prefixes s with
      | Some id => Some id
      | None => search_video_id r
      end
  end.

(** [/^([a-zA-Z0-9_-]{11})$/] *)
Definition bare_video_id (s : string) : option string :=
  if (String.length s =? 11) && all_chars is_id_char s then Some s else None.

Definition extractYouTubeVideoId (url : string) : option string :=
  match search_video_id url with
  | Some id => Some id
  | None => bare_video_id url
  end.

(** *** [extractYouTubeTranscript] *)

Record Segment := { text : string }.

(** What the race between [YoutubeTranscript.fetchTranscript] and the
    30 second timer settles to. *)
Inductive TranscriptResponse :=
| TranscriptRejected (e : Error)
| TranscriptTimeout
| TranscriptSegments (segments : list Segment).

Definition awaitTranscript (r : TranscriptResponse) : Outcome (list Segment) :=
  match r with
  | TranscriptRejected e => Throw e
  | TranscriptTimeout =>
      Throw (newError "Transcript fetch timeout after 30 seconds")
  | TranscriptSegments segs => Ok segs
  end.

Definition nl : string := String "010" EmptyString.

(** The placeholder of the [catch] branch.  The warning sign of the source
    (two code units above 255, neither white space) is written [!!]. *)
Definition youtubeFallbackText (url : string) (videoId : option string)
    (errorMessage : string) : string :=
  "[YouTube Video: " +:+ url +:+ "]" +:+ nl +:+ nl +:+
  "Video ID: " +:+ Js.or_else videoId "Unknown" +:+ nl +:+ nl +:+
  "!! Transcript extraction failed: " +:+ errorMessage +:+ nl +:+ nl +:+
  "This video may not have captions available, or they may be auto-generated and restricted. "
    +:+ nl +:+ nl +:+
  "To use this content:" +:+ nl +:+
  "1. Watch the video and manually add key points below" +:+ nl +:+
  "2. Or try a different video with available captions" +:+ nl +:+ nl +:+
  "Manual Notes Section:" +:+ nl +:+
  "- [Add main concepts from the video]" +:+ nl +:+
  "- [Add important explanations]  " +:+ nl +:+
  "- [Add examples or case studies]" +:+ nl +:+
  "- [Add any formulas or definitions]" +:+ nl +:+ nl +:+
  "This content will be used by the AI to generate study materials.".

Definition extractYouTubeTranscript (url : string)
    (response : TranscriptResponse) : Outcome ExtractedContent :=
  try_catch_pure
    (match extractYouTubeVideoId url with
     | None =>
         Throw (newError "Invalid YouTube URL - could not extract video ID")
     | Some videoId =>
         bind_pure (awaitTranscript response) (fun transcript =>
           if length transcript =? 0
           then Throw (newError "No transcript available for this video")
           else
             let fullText :=
               Js.trim (Js.replace_ws_runs (Js.strip_brackets
                 (Js.join " " (map text transcript)))) in
             Ok {| type := "youtube";
                   source := "YouTube Video: " +:+ videoId;
                   extractedText := fullText;
                   metadata :=
                     {| wordCount := splitCount fullText;
                        fileType := None; fileSize := None; pages := None;
                        videoId := Some videoId;
                        originalUrl := Some url;
                        title := None; contentLength := None;
                        transcriptSegments := Some (length transcript);
                        hasTranscript := Some true;
                        extractionError := None;
                        documentType := None |} |})
     end)
    (fun error =>
       let videoId := extractYouTubeVideoId url in
       let fallbackText := youtubeFallbackText url videoId (message error) in
       Ok {| type := "youtube";
             source := "YouTube Video: " +:+ Js.or_else videoId "Unknown";
             extractedText := fallbackText;
             metadata :=
               {| wordCount := splitCount fallbackText;
                  fileType := None; fileSize := None; pages := None;
                  videoId := Some (Js.or_else videoId "unknown");
                  originalUrl := Some url;
                  title := None; contentLength := None;
                  transcriptSegments := None;
                  hasTranscript := Some false;
                  extractionError := Some (message error);
                  documentType := None |} |}).

(** *** [extractTextFromPDF] *)

(** What PDF.js delivers: loading fails, or the document has one entry
    per page, the strings of its text items or [None] when [getPage] or
    [getTextContent] rejects for that page. *)
Inductive PdfDocument :=
| PdfLoadError (e : Error)
| PdfPages (pageItems : list (option (list string))).

(** The loop over the pages: a page that fails is skipped. *)
Fixpoint pdfPageTexts (pageItems : list (option (list string))) : string :=
  match pageItems with
  | [] => EmptyString
  | Some items :: rest => Js.join " " items +:+ nl +:+ nl +:+ pdfPageTexts rest
  | None :: rest => pdfPageTexts rest
  end.

(** Index of the last line feed inside the white space that starts [s]. *)
Fixpoint last_newline_in_ws (s : string) : option nat :=
  match s with
  | EmptyString => None
  | String c r =>
      if Js.is_space c then
        match last_newline_in_ws r with
        | Some j => Some (S j)
        | None => if Ascii.eqb c "010" then Some 0 else None
        end
      else None
  end.

(** [s.replace(/\n\s*\n/g, '\n\n')] *)
Fixpoint blank_lines_from (skip : nat) (s : string) : string :=
  match s with
  | EmptyString => EmptyString
  | String c r =>
      match skip with
      | S k => blank_lines_from k r
      | O =>
          if Ascii.eqb c "010"
          then match last_newline_in_ws r with
               | Some j => String "010" (String "010" (blank_lines_from (S j) r))
               | None => String c (blank_lines_from 0 r)
               end
          else String c (blank_lines_from 0 r)
      end
  end.

Definition replace_blank_lines (s : string) : string := blank_lines_from 0 s.

(** The clean-up applied to the text of a PDF and of a web page. *)
Definition cleanText (s : string) : string :=
  Js.trim (replace_blank_lines (Js.replace_ws_runs s)).

Definition pdfProcessedText (file : File) (numPages : nat) (fullText : string)
  : string :=
  "[PDF Document: " +:+ name file +:+ "]" +:+ nl +:+ nl +:+
  "Document Structure: " +:+ pretty numPages +:+ " pages" +:+ nl +:+ nl +:+
  "Content:" +:+ nl +:+
  fullText +:+ nl +:+ nl +:+
  "This PDF document should be analyzed for:" +:+ nl +:+
  "- Key concepts and definitions" +:+ nl +:+
  "- Main topics and subtopics" +:+ nl +:+
  "- Important facts and details" +:+ nl +:+
  "- Structured information and diagrams" +:+ nl +:+
  "- Educational content and examples".

Definition extractTextFromPDF (file : File) (pdf : PdfDocument)
  : Outcome ExtractedContent :=
  try_catch_pure
    (match pdf with
     | PdfLoadError e => Throw e
     | PdfPages pageItems =>
         let numPages := length pageItems in
         let fullText := cleanText (pdfPageTexts pageItems) in
         if Js.is_empty (Js.trim fullText)
         then Throw (newError "No readable text content found in PDF")
         else
           Ok {| type := "document";
                 source := name file;
                 extractedText := pdfProcessedText file numPages fullText;
                 metadata :=
                   {| wordCount := splitCount fullText;
                      fileType := Some "application/pdf";
                      fileSize := Some (byteSize file);
                      pages := Some numPages;
                      videoId := None; originalUrl := None; title := None;
                      contentLength := None; transcriptSegments := None;
                      hasTranscript := None; extractionError := None;
                      documentType := Some "PDF Document" |} |}
     end)
    (fun error =>
       Throw (newError ("Failed to extract text from PDF: " +:+ message error))).

(** *** [processWebURL] *)

(** The browser interfaces the scraper calls: [new URL(url)] (its
    [hostname], or [None] when the constructor throws), and the HTML
    parser followed by the removal of non-content elements and the text
    walk of [extractTextFromElement]. *)
Record ParsedPage := {
  titleText : option string;
  mainContentText : option string;
  bodyText : string
}.

Record Browser := {
  URL_hostname : string -> option string;
  DOMParser_parse : string -> ParsedPage
}.

(** What [fetch] through the proxy settles to, and what [response.json()]
    gives for [data.contents]. *)
Inductive FetchResult :=
| FetchRejected (e : Error)
| FetchResponse (ok : bool) (status : nat) (statusText : string)
    (contents : Outcome (option string)).

Definition webProcessedText (pageTitle url now text : string) : string :=
  "[Website: " +:+ pageTitle +:+ "]" +:+ nl +:+ nl +:+
  "URL: " +:+ url +:+ nl +:+
  "Extracted: " +:+ now +:+ nl +:+ nl +:+
  "Content:" +:+ nl +:+
  text +:+ nl +:+ nl +:+
  "This web content should be analyzed for:" +:+ nl +:+
  "- Key concepts and main ideas" +:+ nl +:+
  "- Important facts and information" +:+ nl +:+
  "- Educational content and explanations" +:+ nl +:+
  "- Structured knowledge and insights" +:+ nl +:+
  "- Actionable information and examples".

(** The inner [try] around [fetch]. *)
Definition fetchPage (response : FetchResult) : Outcome (Outcome (option string)) :=
  try_catch_pure
    (match response with
     | FetchRejected e => Throw e
     | FetchResponse ok status statusText contents =>
         if ok then Ok contents
         else Throw (newError ("Failed to fetch webpage: " +:+ pretty status
                               +:+ " " +:+ statusText))
     end)
    (fun fetchError =>
       Throw (newError ("Unable to access the website. This may be due to CORS restrictions or the site being unavailable. Error: "
                        +:+ message fetchError))).

Definition processWebURL (browser : Browser) (now url : string)
    (response : FetchResult) (transcript : TranscriptResponse)
  : Outcome ExtractedContent :=
  try_catch_pure
    (match URL_hostname browser url with
     | None =>
         Throw (newError "Invalid URL format. Please enter a valid website URL.")
     | Some hostname =>
         if Js.includes "youtube.com" hostname || Js.includes "youtu.be" hostname
         then extractYouTubeTranscript url transcript
         else
           bind_pure (fetchPage response) (fun json =>
           bind_pure json (fun htmlContent =>
             match htmlContent with
             | None => Throw (newError "No content received from the website.")
             | Some html =>
                 if Js.is_empty html
                 then Throw (newError "No content received from the website.")
                 else
                   let doc := DOMParser_parse browser html in
                   let pageTitle :=
                     Js.or_else (option_map Js.trim (titleText doc)) "Web Page" in
                   let extracted :=
                     cleanText (match mainContentText doc with
                                | Some t => t
                                | None => bodyText doc
                                end) in
                   if String.length extracted <? 50
                   then Throw (newError "Unable to extract meaningful content from the webpage. The page may be mostly images, videos, or protected content.")
                   else
                     Ok {| type := "web";
                           source := pageTitle;
                           extractedText := webProcessedText pageTitle url now extracted;
                           metadata :=
                             {| wordCount := splitCount extracted;
                                fileType := None; fileSize := None;
                                pages := None; videoId := None;
                                originalUrl := Some url;
                                title := Some pageTitle;
                                contentLength := Some (String.length extracted);
                                transcriptSegments := None;
                                hasTranscript := None;
                                extractionError := None;
                                documentType := Some "Web Page" |} |}
             end))
     end)
    (fun error =>
       Throw (newError ("Failed to process website: " +:+ message error))).

(** *** [processDirectText] *)

Definition directProcessedText (promptTitle now cleanText : string) : string :=
  "[Direct Text Input: " +:+ promptTitle +:+ "]" +:+ nl +:+ nl +:+
  "Created: " +:+ now +:+ nl +:+
  "Source: User-provided text content" +:+ nl +:+ nl +:+
  "Content:" +:+ nl +:+
  cleanText +:+ nl +:+ nl +:+
  "This text content should be analyzed for:" +:+ nl +:+
  "- Key concepts and main ideas" +:+ nl +:+
  "- Important information and facts" +:+ nl +:+
  "- Educational content and explanations" +:+ nl +:+
  "- Learning objectives and insights" +:+ nl +:+
  "- Practical applications and examples".

Definition processDirectText (now textContent promptTitle : string)
  : Outcome ExtractedContent :=
  try_catch_pure
    (if String.length (Js.trim textContent) <? 10
     then Throw (newError "Text input is too short. Please provide at least 10 characters of meaningful content.")
     else
       let cleanText := Js.trim textContent in
       Ok {| type := "direct_text";
             source := promptTitle;
             extractedText := directProcessedText promptTitle now cleanText;
             metadata :=
               {| wordCount := splitCount cleanText;
                  fileType := None; fileSize := None; pages := None;
                  videoId := None; originalUrl := None;
                  title := Some promptTitle;
                  contentLength := Some (String.length cleanText);
                  transcriptSegments := None; hasTranscript := None;
                  extractionError := None;
                  documentType := Some "Direct Text Input" |} |})
    (fun error =>
       Throw (newError ("Failed to process text input: " +:+ message error))).

(** [processYouTubeURL] *)
Definition processYouTubeURL (url : string) (response : TranscriptResponse)
  : Outcome ExtractedContent :=
  extractYouTubeTranscript url response.

(** *** [generateAIContent] *)

(** A generated study item: the keys of the payload that the services
    read. *)
Record StudyItem := {
  itemType : string;
  front : option string;
  question : option string;
  itemTitle : option string;
  difficulty : option string
}.

(** The object [JSON.parse] returns: each of the four collections is an
    array or is absent. *)
Record GeneratedContent := {
  flashcards : option (list StudyItem);
  multipleChoice : option (list StudyItem);
  openEnded : option (list StudyItem);
  summaries : option (list StudyItem)
}.

(** What the request to the completion service settles to.  For a
    response with [ok], [parsed] is the result of [JSON.parse] on the
    message content, [None] when it throws. *)
Inductive CompletionResponse :=
| CompletionRejected (e : Error)
| CompletionHttpError (status : nat) (statusText : string)
    (apiMessage : option string)
| CompletionContent (parsed : option GeneratedContent).

(** A piece of content handed to the generator: an extraction result
    ([extractedText]) or a knowledge-base row ([content]). *)
Record ContentPiece := {
  pieceExtractedText : option string;
  pieceContent : option string
}.

Definition pieceText (p : ContentPiece) : string :=
  Js.or_else (pieceExtractedText p) (default EmptyString (pieceContent p)).

Record Breakdown := {
  flashcardsCount : nat;
  multipleChoiceCount : nat;
  openEndedCount : nat;
  summariesCount : nat
}.

Record AIResult := {
  generated : nat;
  content : list StudyItem;
  breakdown : Breakdown
}.

(** [xs || []] *)
Definition orEmpty {A} (xs : option (list A)) : list A := default [] xs.

Definition generateAIContent (topicName : string)
    (extractedContent : list ContentPiece) (apiKey : string)
    (response : CompletionResponse) : Outcome AIResult :=
  try_catch_pure
    (let combinedText := Js.join (nl +:+ nl) (map pieceText extractedContent) in
     if Js.is_empty (Js.trim combinedText)
     then Throw (newError "No content available for AI processing")
     else
       match response with
       | CompletionRejected e => Throw e
       | CompletionHttpError status statusText apiMessage =>
           Throw (newError ("OpenAI API error: " +:+ pretty status +:+ " "
                            +:+ statusText +:+ ". " +:+ Js.or_else apiMessage EmptyString))
       | CompletionContent None =>
           Throw (newError "Failed to parse AI response. Please try again.")
       | CompletionContent (Some generatedContent) =>
           let allContent :=
             orEmpty (flashcards generatedContent)
             ++ orEmpty (multipleChoice generatedContent)
             ++ orEmpty (openEnded generatedContent)
             ++ orEmpty (summaries generatedContent) in
           if length allContent =? 0
           then Throw (newError "No content was generated. Please try again.")
           else
             Ok {| generated := length allContent;
                   content := allContent;
                   breakdown :=
                     {| flashcardsCount := length (orEmpty (flashcards generatedContent));
                        multipleChoiceCount := length (orEmpty (multipleChoice generatedContent));
                        openEndedCount := length (orEmpty (openEnded generatedContent));
                        summariesCount := length (orEmpty (summaries generatedContent)) |} |}
       end)
    (fun error => Throw error).

End FileProcessingService.

(** ** The persistent state: relational store and blob store *)

Inductive Status := Processing | Completed | Failed.

Inductive GenerationType := Bulk | Selective | DirectText.

Global Instance Status_eq_dec : EqDecision Status.
Proof. solve_decision. Defined.

Record Topic := {
  topic_user_id : nat;
  topic_name : string
}.

Record Document := {
  doc_topic_id : nat;
  doc_user_id : option nat;
  filename : string;
  storage_path : option string;
  file_type : string;
  file_size : nat;
  doc_source_type : option string;
  doc_content : option string
}.

Record KnowledgeBaseRow := {
  kb_topic_id : nat;
  kb_user_id : nat;
  kb_document_id : option nat;
  kb_type : string;
  kb_source : string;
  kb_content : string;
  kb_metadata : FileProcessingService.Metadata
}.

Record Source := {
  src_topic_id : nat;
  src_user_id : nat;
  src_document_id : option nat;
  source_type : string;
  source_name : string;
  original_name : option string;
  src_file_type : option string;
  src_file_size : option nat;
  word_count : option nat;
  src_metadata : FileProcessingService.Metadata;
  knowledge_base_id : option nat
}.

Record Generation := {
  gen_topic_id : nat;
  gen_user_id : nat;
  generation_type : GenerationType;
  source_ids : list nat;
  status : Status;
  items_generated : nat;
  gen_breakdown : option FileProcessingService.Breakdown;
  error_message : option string;
  completed_at : option string;
  processing_time_ms : option nat
}.

Record Question := {
  q_topic_id : nat;
  q_user_id : nat;
  q_type : string;
  question_data : FileProcessingService.StudyItem;
  is_saved : bool;
  q_generation_id : option nat;
  source_attribution : list nat
}.

Record GenerationItem := {
  generation_id : nat;
  question_id : nat;
  item_type : string;
  item_title : string;
  item_difficulty : string;
  derived_from_sources : list nat
}.

(** A row of [flashcard_progress]; the table is keyed by the unique pair
    (question_id, user_id).  [interval] is a double. *)
Record FlashcardProgress := {
  reviews : nat;
  interval : float
}.

(** A stored blob: its size is all the services read of it. *)
Record Blob := { blob_size : nat }.

Record Store := {
  blobs : gmap string Blob;
  topics : gmap nat Topic;
  documents : gmap nat Document;
  knowledge_base : gmap nat KnowledgeBaseRow;
  sources : gmap nat Source;
  generations : gmap nat Generation;
  questions : gmap nat Question;
  generation_items : gmap nat GenerationItem;
  flashcard_progress : gmap (nat * nat) FlashcardProgress
}.

Definition emptyStore : Store :=
  {| blobs := ∅; topics := ∅; documents := ∅; knowledge_base := ∅;
     sources := ∅; generations := ∅; questions := ∅;
     generation_items := ∅; flashcard_progress := ∅ |}.

Definition with_blobs (f : gmap string Blob -> gmap string Blob) (s : Store) : Store :=
  {| blobs := f (blobs s); topics := topics s; documents := documents s;
     knowledge_base := knowledge_base s; sources := sources s;
     generations := generations s; questions := questions s;
     generation_items := generation_items s;
     flashcard_progress := flashcard_progress s |}.

Definition with_documents (f : gmap nat Document -> gmap nat Document) (s : Store) : Store :=
  {| blobs := blobs s; topics := topics s; documents := f (documents s);
     knowledge_base := knowledge_base s; sources := sources s;
     generations := generations s; questions := questions s;
     generation_items := generation_items s;
     flashcard_progress := flashcard_progress s |}.

Definition with_knowledge_base
    (f : gmap nat KnowledgeBaseRow -> gmap nat KnowledgeBaseRow) (s : Store) : Store :=
  {| blobs := blobs s; topics := topics s; documents := documents s;
     knowledge_base := f (knowledge_base s); sources := sources s;
     generations := generations s; questions := questions s;
     generation_items := generation_items s;
     flashcard_progress := flashcard_progress s |}.

Definition with_sources (f : gmap nat Source -> gmap nat Source) (s : Store) : Store :=
  {| blobs := blobs s; topics := topics s; documents := documents s;
     knowledge_base := knowledge_base s; sources := f (sources s);
     generations := generations s; questions := questions s;
     generation_items := generation_items s;
     flashcard_progress := flashcard_progress s |}.

Definition with_generations
    (f : gmap nat Generation -> gmap nat Generation) (s : Store) : Store :=
  {| blobs := blobs s; topics := topics s; documents := documents s;
     knowledge_base := knowledge_base s; sources := sources s;
     generations := f (generations s); questions := questions s;
     generation_items := generation_items s;
     flashcard_progress := flashcard_progress s |}.

Definition with_questions (f : gmap nat Question -> gmap nat Question) (s : Store) : Store :=
  {| blobs := blobs s; topics := topics s; documents := documents s;
     knowledge_base := knowledge_base s; sources := sources s;
     generations := generations s; questions := f (questions s);
     generation_items := generation_items s;
     flashcard_progress := flashcard_progress s |}.

Definition with_generation_items
    (f : gmap nat GenerationItem -> gmap nat GenerationItem) (s : Store) : Store :=
  {| blobs := blobs s; topics := topics s; documents := documents s;
     knowledge_base := knowledge_base s; sources := sources s;
     generations := generations s; questions := questions s;
     generation_items := f (generation_items s);
     flashcard_progress := flashcard_progress s |}.

Definition with_flashcard_progress
    (f : gmap (nat * nat) FlashcardProgress -> gmap (nat * nat) FlashcardProgress)
    (s : Store) : Store :=
  {| blobs := blobs s; topics := topics s; documents := documents s;
     knowledge_base := knowledge_base s; sources := sources s;
     generations := generations s; questions := questions s;
     generation_items := generation_items s;
     flashcard_progress := f (flashcard_progress s) |}.

(** The database assigns an unused primary key to an inserted row. *)
Definition insert_row {A} (row : A) (t : gmap nat A) : nat * gmap nat A :=
  let k := fresh (dom t) in (k, <[k := row]> t).

(** [insert([...]).select()]: the rows are inserted one after the other and
    come back with their keys. *)
Fixpoint insert_rows {A} (rows : list A) (t : gmap nat A)
  : list (nat * A) * gmap nat A :=
  match rows with
  | [] => ([], t)
  | row :: rest =>
      let '(k, t1) := insert_row row t in
      let '(inserted, t2) := insert_rows rest t1 in
      ((k, row) :: inserted, t2)
  end.

(** The rows of a table that satisfy a filter, with their keys. *)
Definition select_rows {A} (p : nat -> A -> bool) (t : gmap nat A) : list (nat * A) :=
  filter (fun kr => p kr.1 kr.2 = true) (map_to_list t).

(** ** The environment of one service call *)

Inductive AuthState :=
| SignedIn (userId : nat)
| NoUser
| AuthFailure (e : Error).

(** What the outside world answers during one call: the session held by
    the client, the configured API key, the clock, and the responses of
    the completion service and of the transcript provider. *)
Record Env := {
  auth : AuthState;
  VITE_OPENAI_API_KEY : option string;
  nowISO : string;
  dateNow : N;
  elapsedMs : nat;
  completion : FileProcessingService.CompletionResponse;
  transcript : FileProcessingService.TranscriptResponse
}.

(** ** The monad of service calls *)

(** The state threaded through a call: the store, and the schedule of
    faults of the external calls still to come ([Some e]: the next call
    fails with [e]; an exhausted schedule means no more faults). *)
Record St := mkSt {
  db : Store;
  pending : list (option Error)
}.

Definition M (A : Type) : Type := St -> Outcome A * St.

Definition ret {A} (a : A) : M A := fun st => (Ok a, st).

Definition throw {A} (e : Error) : M A := fun st => (Throw e, st).

Definition bind {A B} (m : M A) (k : A -> M B) : M B :=
  fun st =>
    match m st with
    | (Ok a, st') => k a st'
    | (Throw e, st') => (Throw e, st')
    end.

Definition try_catch {A} (body : M A) (handler : Error -> M A) : M A :=
  fun st =>
    match body st with
    | (Ok a, st') => (Ok a, st')
    | (Throw e, st') => handler e st'
    end.

(** An [await] of a computation without store effects. *)
Definition lift {A} (r : Outcome A) : M A := fun st => (r, st).

Notation "x <- m ;; k" := (bind m (fun x => k))
  (at level 100, m at next level, right associativity).
Notation "m ;;; k" := (bind m (fun _ => k))
  (at level 100, right associativity).

Definition get_db : M Store := fun st => (Ok (db st), st).

Definition modify_db (f : Store -> Store) : M unit :=
  fun st => (Ok tt, {| db := f (db st); pending := pending st |}).

(** One external call: the [error] member of the [{ data, error }] pair it
    resolves to. *)
Definition external_call : M (option Error) :=
  fun st =>
    match pending st with
    | [] => (Ok None, st)
    | fault :: rest => (Ok fault, {| db := db st; pending := rest |})
    end.

(** [if (error) throw error] *)
Definition throw_if_error (error : option Error) : M unit :=
  match error with
  | Some e => throw e
  | None => ret tt
  end.

Definition run {A} (m : M A) (s : Store) (faults : list (option Error))
  : Outcome A * Store :=
  let '(r, st) := m {| db := s; pending := faults |} in (r, db st).

(** ** The data-access and coordination layer: [SupabaseService] *)

Module SupabaseService.

Import FileProcessingService.

(** The argument of [updateGeneration]: the keys the callers pass. *)
Record GenerationUpdates := {
  u_status : option Status;
  itemsGenerated : option nat;
  u_breakdown : option Breakdown;
  completedAt : option string;
  processingTimeMs : option nat;
  errorMessage : option string
}.

Record GenerationResult := {
  success : bool;
  res_generated : nat;
  res_breakdown : Breakdown;
  generationId : nat;
  sourceCount : option nat
}.

Record UploadResult := {
  documentId : nat;
  storagePath : string;
  publicUrl : option string
}.

Record IngestionResult := {
  ing_documentId : nat;
  sourceId : nat;
  ing_content : ExtractedContent;
  ing_wordCount : nat;
  ing_storagePath : option string
}.

(** The error of [.single()] when the filter does not select one row. *)
Definition singleRowError : Error :=
  {| message := "JSON object requested, multiple (or no) rows returned";
     code := "PGRST116" |}.

(** The error of an upload to a path that is taken. *)
Definition duplicateError : Error :=
  {| message := "The resource already exists"; code := "Duplicate" |}.

(** Size in bytes of the UTF-8 encoding of a text of code units below
    256: what [new Blob([text]).size] gives. *)
Fixpoint utf8_length (s : string) : nat :=
  match s with
  | EmptyString => 0
  | String c r => (if nat_of_ascii c <? 128 then 1 else 2) + utf8_length r
  end.

Fixpoint map_chars (f : ascii -> ascii) (s : string) : string :=
  match s with
  | EmptyString => EmptyString
  | String c r => String (f c) (map_chars f r)
  end.

(** [name.replace(/[^a-zA-Z0-9.-]/g, '_')] *)
Definition sanitizeFileName (name : string) : string :=
  map_chars (fun c =>
    if in_range 97 122 c || in_range 65 90 c || in_range 48 57 c
       || Ascii.eqb c "." || Ascii.eqb c "-"
    then c else "_"%char) name.

(** [videoId.replace(/[^a-zA-Z0-9_-]/g, '_')] *)
Definition sanitizeVideoId (videoId : string) : string :=
  map_chars (fun c => if is_id_char c then c else "_"%char) videoId.

(** [extractItemTitle] *)
Definition extractItemTitle (questionData : StudyItem) : string :=
  if String.eqb (itemType questionData) "flashcard" then
    Js.or_else (option_map (String.substring 0 100) (front questionData)) "Flashcard"
  else if String.eqb (itemType questionData) "multiple-choice" then
    Js.or_else (option_map (String.substring 0 100) (question questionData))
      "Multiple Choice"
  else if String.eqb (itemType questionData) "open-ended" then
    Js.or_else (option_map (String.substring 0 100) (question questionData))
      "Open-Ended Question"
  else if String.eqb (itemType questionData) "summary" then
    Js.or_else (itemTitle questionData) "Summary"
  else "Study Item".

(** The columns [updateGeneration] writes.  The spread of [updates]
    carries [status] and [breakdown]; [completed_at] is set only for a
    completed run whose [updates] have no [completedAt]. *)
Definition applyGenerationUpdates (now : string) (updates : GenerationUpdates)
    (g : Generation) : Generation :=
  {| gen_topic_id := gen_topic_id g;
     gen_user_id := gen_user_id g;
     generation_type := generation_type g;
     source_ids := source_ids g;
     status := default (status g) (u_status updates);
     items_generated := default (items_generated g) (itemsGenerated updates);
     gen_breakdown :=
       match u_breakdown updates with
       | Some b => Some b
       | None => gen_breakdown g
       end;
     error_message :=
       match errorMessage updates with
       | Some m => Some m
       | None => error_message g
       end;
     completed_at :=
       if bool_decide (u_status updates = Some Completed)
          && Js.is_empty (Js.or_else (completedAt updates) EmptyString)
       then Some now else completed_at g;
     processing_time_ms :=
       match processingTimeMs updates with
       | Some t => Some t
       | None => processing_time_ms g
       end |}.

Section Service.

Variable env : Env.

(** [const { data: { user } } = await supabase.auth.getUser()] *)
Definition getUser : option nat :=
  match auth env with
  | SignedIn userId => Some userId
  | NoUser | AuthFailure _ => None
  end.

(** [if (!user) throw new Error('User not authenticated')] *)
Definition requireUser : M nat :=
  match getUser with
  | Some user => ret user
  | None => throw (newError "User not authenticated")
  end.

Definition requireApiKey : M string :=
  match VITE_OPENAI_API_KEY env with
  | Some key =>
      if Js.is_empty key
      then throw (newError "OpenAI API key not configured. Please contact support.")
      else ret key
  | None =>
      throw (newError "OpenAI API key not configured. Please contact support.")
  end.

(** *** Blob store *)

(** [supabase.storage.from('documents').upload(path, blob)] *)
Definition storage_upload (path : string) (blob : Blob) : M (option Error) :=
  error <- external_call ;;
  match error with
  | Some e => ret (Some e)
  | None =>
      s <- get_db ;;
      match blobs s !! path with
      | Some _ => ret (Some duplicateError)
      | None => modify_db (with_blobs (insert path blob)) ;;; ret None
      end
  end.

(** [supabase.storage.from('documents').remove([path])] *)
Definition storage_remove (path : string) : M (option Error) :=
  error <- external_call ;;
  match error with
  | Some e => ret (Some e)
  | None => modify_db (with_blobs (delete path)) ;;; ret None
  end.

(** [getFileUrl] *)
Definition getFileUrl (storagePath : string) : M (option string) :=
  error <- external_call ;;
  s <- get_db ;;
  match error, blobs s !! storagePath with
  | None, Some _ => ret (Some ("signed:" +:+ storagePath))
  | _, _ => ret None
  end.

(** *** Reads *)

Definition getTopic (id : nat) : M Topic :=
  user <- requireUser ;;
  error <- external_call ;;
  throw_if_error error ;;;
  s <- get_db ;;
  match topics s !! id with
  | Some t => if topic_user_id t =? user then ret t else throw singleRowError
  | None => throw singleRowError
  end.

Definition getSources (topicId : nat) : M (list (nat * Source)) :=
  user <- requireUser ;;
  error <- external_call ;;
  throw_if_error error ;;;
  s <- get_db ;;
  ret (select_rows
         (fun _ r => (src_topic_id r =? topicId) && (src_user_id r =? user))
         (sources s)).

Definition getKnowledgeBase (topicId : nat) : M (list (nat * KnowledgeBaseRow)) :=
  user <- requireUser ;;
  error <- external_call ;;
  throw_if_error error ;;;
  s <- get_db ;;
  ret (select_rows
         (fun _ r => (kb_topic_id r =? topicId) && (kb_user_id r =? user))
         (knowledge_base s)).

Definition getKnowledgeBaseBySourceIds (topicId : nat) (sourceIds : list nat)
  : M (list (nat * KnowledgeBaseRow)) :=
  user <- requireUser ;;
  sourcesError <- external_call ;;
  throw_if_error sourcesError ;;;
  s <- get_db ;;
  let selected :=
    select_rows
      (fun k r => (src_topic_id r =? topicId) && (src_user_id r =? user)
                  && bool_decide (k ∈ sourceIds))
      (sources s) in
  if length selected =? 0 then ret []
  else
    let documentIds := omap (fun kr => src_document_id kr.2) selected in
    textSourcesError <- external_call ;;
    throw_if_error textSourcesError ;;;
    let textSources :=
      filter (fun kr => String.eqb (source_type kr.2) "text" = true) selected in
    let knowledgeBaseIds := omap (fun kr => knowledge_base_id kr.2) textSources in
    error <- external_call ;;
    throw_if_error error ;;;
    let data :=
      select_rows
        (fun _ r => (kb_topic_id r =? topicId) && (kb_user_id r =? user)
                    && (if 0 <? length documentIds
                        then match kb_document_id r with
                             | Some d => bool_decide (d ∈ documentIds)
                             | None => false
                             end
                        else true))
        (knowledge_base s) in
    if 0 <? length knowledgeBaseIds then
      textError <- external_call ;;
      throw_if_error textError ;;;
      let textData :=
        select_rows
          (fun k r => (kb_topic_id r =? topicId) && (kb_user_id r =? user)
                      && bool_decide (k ∈ knowledgeBaseIds))
          (knowledge_base s) in
      let existingIds := map fst data in
      ret (data ++ filter (fun item => item.1 ∉ existingIds) textData)
    else ret data.

(** *** Provenance records *)

Definition createGeneration (topicId : nat) (generationType : GenerationType)
    (sourceIds : list nat) (status : Status) : M (nat * Generation) :=
  user <- requireUser ;;
  error <- external_call ;;
  throw_if_error error ;;;
  s <- get_db ;;
  let row :=
    {| gen_topic_id := topicId; gen_user_id := user;
       generation_type := generationType; source_ids := sourceIds;
       status := status; items_generated := 0; gen_breakdown := None;
       error_message := None; completed_at := None;
       processing_time_ms := None |} in
  let '(id, t) := insert_row row (generations s) in
  modify_db (with_generations (fun _ => t)) ;;;
  ret (id, row).

Definition updateGeneration (generationId : nat) (updates : GenerationUpdates)
  : M Generation :=
  user <- requireUser ;;
  error <- external_call ;;
  throw_if_error error ;;;
  s <- get_db ;;
  match generations s !! generationId with
  | Some g =>
      if gen_user_id g =? user then
        let g' := applyGenerationUpdates (nowISO env) updates g in
        modify_db (with_generations (insert generationId g')) ;;;
        ret g'
      else throw singleRowError
  | None => throw singleRowError
  end.

Definition addQuestionsWithGeneration (topicId : nat)
    (items : list StudyItem) (generationId : nat) (sourceIds : list nat)
  : M (list (nat * Question)) :=
  user <- requireUser ;;
  let questionsToInsert :=
    map (fun q =>
           {| q_topic_id := topicId; q_user_id := user;
              q_type := itemType q; question_data := q;
              is_saved := false;
              q_generation_id := Some generationId;
              source_attribution := sourceIds |}) items in
  error <- external_call ;;
  throw_if_error error ;;;
  s <- get_db ;;
  let '(data, t) := insert_rows questionsToInsert (questions s) in
  modify_db (with_questions (fun _ => t)) ;;;
  ret data.

Definition createGenerationItems (generationId : nat)
    (inserted : list (nat * Question)) (sourceIds : list nat)
  : M (list (nat * GenerationItem)) :=
  user <- requireUser ;;
  let generationItems :=
    map (fun q =>
           {| generation_id := generationId;
              question_id := q.1;
              item_type :=
                Js.or_else (Some (itemType (question_data q.2))) (q_type q.2);
              item_title := extractItemTitle (question_data q.2);
              item_difficulty :=
                Js.or_else (difficulty (question_data q.2)) "medium";
              derived_from_sources := sourceIds |}) inserted in
  error <- external_call ;;
  throw_if_error error ;;;
  s <- get_db ;;
  let '(data, t) := insert_rows generationItems (generation_items s) in
  modify_db (with_generation_items (fun _ => t)) ;;;
  ret data.

Definition saveQuestion (questionId : nat) : M unit :=
  user <- requireUser ;;
  error <- external_call ;;
  throw_if_error error ;;;
  modify_db (with_questions (fun t =>
    match t !! questionId with
    | Some q =>
        if q_user_id q =? user then
          <[questionId :=
              {| q_topic_id := q_topic_id q; q_user_id := q_user_id q;
                 q_type := q_type q; question_data := question_data q;
                 is_saved := true;
                 q_generation_id := q_generation_id q;
                 source_attribution := source_attribution q |}]> t
        else t
    | None => t
    end)).

(** *** The generation coordinator *)

Definition unknownTopic : Topic :=
  {| topic_user_id := 0; topic_name := "Unknown Topic" |}.

(** The body shared by the [try] blocks of the bulk and the selective
    path: steps 5 to 8, after the generation record exists. *)
Definition generateAndStore (topicId : nat) (topic : Topic)
    (knowledgeBase : list (nat * KnowledgeBaseRow)) (apiKey : string)
    (generation : nat * Generation) (sourceIds : list nat)
    (withSourceCount : bool) : M GenerationResult :=
  aiResult <- lift (FileProcessingService.generateAIContent (topic_name topic)
                      (map (fun kr => {| pieceExtractedText := None;
                                         pieceContent := Some (kb_content kr.2) |})
                           knowledgeBase)
                      apiKey (completion env)) ;;
  inserted <- addQuestionsWithGeneration topicId (content aiResult)
                generation.1 sourceIds ;;
  createGenerationItems generation.1 inserted sourceIds ;;;
  updateGeneration generation.1
    {| u_status := Some Completed;
       itemsGenerated := Some (generated aiResult);
       u_breakdown := Some (breakdown aiResult);
       completedAt := Some (nowISO env);
       processingTimeMs := Some (elapsedMs env);
       errorMessage := None |} ;;;
  ret {| success := true;
         res_generated := generated aiResult;
         res_breakdown := breakdown aiResult;
         generationId := generation.1;
         sourceCount :=
           if withSourceCount then Some (length sourceIds) else None |}.

(** The [catch (generationError)] of both paths. *)
Definition markFailed (generation : nat * Generation)
    (generationError : Error) : M GenerationResult :=
  updateGeneration generation.1
    {| u_status := Some Failed;
       itemsGenerated := None;
       u_breakdown := None;
       completedAt := Some (nowISO env);
       processingTimeMs := None;
       errorMessage := Some (message generationError) |} ;;;
  throw generationError.

(** The outer [catch (error)]: the topic is read again for the log
    entry, then the error is thrown on. *)
Definition logAndRethrow (topicId : nat) (error : Error) : M GenerationResult :=
  try_catch (getTopic topicId) (fun _ => ret unknownTopic) ;;;
  throw error.

(** [generateAIContent]: generation from every source of the topic. *)
Definition generateAIContent (topicId : nat) : M GenerationResult :=
  user <- requireUser ;;
  apiKey <- requireApiKey ;;
  try_catch
    (sourceRows <- getSources topicId ;;
     let sourceIds := map fst sourceRows in
     if length sourceRows =? 0
     then throw (newError "No sources available for this topic. Please upload content first.")
     else
       knowledgeBase <- getKnowledgeBase topicId ;;
       topic <- getTopic topicId ;;
       generation <- createGeneration topicId Bulk sourceIds Processing ;;
       try_catch
         (generateAndStore topicId topic knowledgeBase apiKey generation
            sourceIds false)
         (markFailed generation))
    (logAndRethrow topicId).

(** [generateAIContentFromSources]: generation from selected sources. *)
Definition generateAIContentFromSources (topicId : nat) (sourceIds : list nat)
  : M GenerationResult :=
  user <- requireUser ;;
  apiKey <- requireApiKey ;;
  try_catch
    (allSources <- getSources topicId ;;
     let validSourceIds :=
       filter (fun id => existsb (fun source => source.1 =? id) allSources = true)
              sourceIds in
     if length validSourceIds =? 0
     then throw (newError "No valid sources found for the selected items.")
     else
       filteredKnowledgeBase <- getKnowledgeBaseBySourceIds topicId validSourceIds ;;
       if length filteredKnowledgeBase =? 0
       then throw (newError "No content found for the selected sources.")
       else
         topic <- getTopic topicId ;;
         generation <- createGeneration topicId Selective validSourceIds
                         Processing ;;
         try_catch
           (generateAndStore topicId topic filteredKnowledgeBase apiKey
              generation validSourceIds true)
           (markFailed generation))
    (logAndRethrow topicId).

(** [processDirectTextInput]: generation from pasted text, without a
    stored source. *)
Definition processDirectTextInput (topicId : nat)
    (textContent promptTitle : string) : M GenerationResult :=
  user <- requireUser ;;
  topic <- getTopic topicId ;;
  try_catch
    (extractedContent <- lift (processDirectText (nowISO env) textContent
                                 promptTitle) ;;
     let tempKnowledgeBase :=
       [ {| pieceExtractedText := Some (extractedText extractedContent);
            pieceContent := None |} ] in
     apiKey <- requireApiKey ;;
     aiResult <- lift (FileProcessingService.generateAIContent
                         (topic_name topic) tempKnowledgeBase apiKey
                         (completion env)) ;;
     generation <- createGeneration topicId DirectText [] Processing ;;
     inserted <- addQuestionsWithGeneration topicId (content aiResult)
                   generation.1 [] ;;
     createGenerationItems generation.1 inserted [] ;;;
     updateGeneration generation.1
       {| u_status := Some Completed;
          itemsGenerated := Some (generated aiResult);
          u_breakdown := Some (breakdown aiResult);
          completedAt := Some (nowISO env);
          processingTimeMs := None;
          errorMessage := None |} ;;;
     ret {| success := true;
            res_generated := generated aiResult;
            res_breakdown := breakdown aiResult;
            generationId := generation.1;
            sourceCount := None |})
    (fun error =>
       throw (newError ("Failed to process text input: " +:+ message error))).

(** *** The ingestion coordinator *)

(** [rpc('simple_insert_document', ...)]: the database function inserts
    one row into [documents] on behalf of the session user and returns
    its key.  The result is the [{ data, error }] pair. *)
Definition rpc_simple_insert_document (p_topic_id : nat) (p_title : string)
    (p_content : option string) (p_file_size : nat) (p_file_type : string)
    (p_storage_path : option string) : M (Outcome nat) :=
  error <- external_call ;;
  match error with
  | Some e => ret (Throw e)
  | None =>
      s <- get_db ;;
      let row :=
        {| doc_topic_id := p_topic_id; doc_user_id := getUser;
           filename := p_title; storage_path := p_storage_path;
           file_type := p_file_type; file_size := p_file_size;
           doc_source_type := None; doc_content := p_content |} in
      let '(id, t) := insert_row row (documents s) in
      modify_db (with_documents (fun _ => t)) ;;;
      ret (Ok id)
  end.

(** [from('documents').insert([row]).select().single()] *)
Definition insert_document (row : Document) : M (Outcome nat) :=
  error <- external_call ;;
  match error with
  | Some e => ret (Throw e)
  | None =>
      s <- get_db ;;
      let '(id, t) := insert_row row (documents s) in
      modify_db (with_documents (fun _ => t)) ;;;
      ret (Ok id)
  end.

Definition maxRetries : nat := 3.

(** The authentication loop of [uploadFile]; the waits between the
    attempts are left out.  [None] stands for leaving the loop with
    [user] still [null]. *)
Fixpoint authLoop (fuel retryCount : nat) : M (option nat) :=
  match fuel with
  | O => ret None
  | S fuel' =>
      if retryCount <? maxRetries then
        match auth env with
        | AuthFailure _ =>
            let retryCount := retryCount + 1 in
            if maxRetries <=? retryCount
            then throw (newError "Authentication failed after multiple attempts. Please sign out and sign back in.")
            else authLoop fuel' retryCount
        | NoUser =>
            let retryCount := retryCount + 1 in
            if maxRetries <=? retryCount
            then throw (newError "User not authenticated. Please sign in first.")
            else authLoop fuel' retryCount
        | SignedIn userId => ret (Some userId)
        end
      else ret None
  end.

Definition uploadPath (topicId user : nat) (file : File) : string :=
  pretty topicId +:+ "/" +:+ pretty user +:+ "/" +:+ pretty (dateNow env)
  +:+ "_" +:+ sanitizeFileName (name file).

(** [uploadFile] *)
Definition uploadFile (topicId : nat) (file : File) : M UploadResult :=
  found <- authLoop maxRetries 0 ;;
  match found with
  | None => throw (newError "Cannot read properties of null (reading 'id')")
  | Some user =>
      let filePath := uploadPath topicId user file in
      uploadError <- storage_upload filePath {| blob_size := byteSize file |} ;;
      match uploadError with
      | Some e => throw (newError ("Failed to upload file: " +:+ message e))
      | None =>
          try_catch
            (inserted <- rpc_simple_insert_document topicId (name file) None
                           (byteSize file) (mimeType file) (Some filePath) ;;
             match inserted with
             | Throw bypassError =>
                 storage_remove filePath ;;;
                 throw (newError ("Failed to save document: "
                                  +:+ message bypassError))
             | Ok docId =>
                 url <- getFileUrl filePath ;;
                 ret {| documentId := docId; storagePath := filePath;
                        publicUrl := url |}
             end)
            (fun insertError =>
               storage_remove filePath ;;;
               throw insertError)
      end
  end.

(** [addToKnowledgeBase] *)
Definition addToKnowledgeBase (topicId : nat) (extracted : ExtractedContent)
    (documentId : option nat) : M (nat * KnowledgeBaseRow) :=
  user <- requireUser ;;
  error <- external_call ;;
  throw_if_error error ;;;
  s <- get_db ;;
  let row :=
    {| kb_topic_id := topicId; kb_user_id := user;
       kb_document_id := documentId;
       kb_type := type extracted; kb_source := source extracted;
       kb_content := extractedText extracted;
       kb_metadata := metadata extracted |} in
  let '(id, t) := insert_row row (knowledge_base s) in
  modify_db (with_knowledge_base (fun _ => t)) ;;;
  ret (id, row).

(** [createSource] *)
Definition createSource (topicId : nat) (documentId : option nat)
    (sourceType sourceName : string) (originalName fileType : option string)
    (fileSize wordCount : option nat) (meta : Metadata)
    (knowledgeBaseId : option nat) : M (nat * Source) :=
  user <- requireUser ;;
  error <- external_call ;;
  throw_if_error error ;;;
  s <- get_db ;;
  let row :=
    {| src_topic_id := topicId; src_user_id := user;
       src_document_id := documentId; source_type := sourceType;
       source_name := sourceName; original_name := originalName;
       src_file_type := fileType; src_file_size := fileSize;
       word_count := wordCount; src_metadata := meta;
       knowledge_base_id := knowledgeBaseId |} in
  let '(id, t) := insert_row row (sources s) in
  modify_db (with_sources (fun _ => t)) ;;;
  ret (id, row).

(** [processTextContent] *)
Definition processTextContent (topicId : nat) (contentText sourceName : string)
  : M IngestionResult :=
  user <- requireUser ;;
  topic <- getTopic topicId ;;
  try_catch
    (inserted <- rpc_simple_insert_document topicId sourceName
                   (Some contentText) (String.length contentText)
                   "text/plain" None ;;
     match inserted with
     | Throw docError =>
         throw (newError ("Failed to save text content: " +:+ message docError))
     | Ok docId =>
         let extractedContent :=
           {| type := "text"; source := sourceName;
              extractedText := contentText;
              metadata :=
                {| wordCount := length (Js.split_ws contentText);
                   fileType := Some "text/plain";
                   fileSize := None; pages := None; videoId := None;
                   originalUrl := None; title := None;
                   contentLength := None; transcriptSegments := None;
                   hasTranscript := None; extractionError := None;
                   documentType := None |} |} in
         knowledgeBaseEntry <- addToKnowledgeBase topicId extractedContent
                                 (Some docId) ;;
         sourceEntry <- createSource topicId (Some docId) "text" sourceName
                          (Some sourceName) (Some "text/plain")
                          (Some (String.length contentText))
                          (Some (wordCount (metadata extractedContent)))
                          (metadata extractedContent)
                          (Some knowledgeBaseEntry.1) ;;
         ret {| ing_documentId := docId; sourceId := sourceEntry.1;
                ing_content := extractedContent;
                ing_wordCount := wordCount (metadata extractedContent);
                ing_storagePath := None |}
     end)
    (fun error =>
       throw (newError ("Failed to process text content: " +:+ message error))).

Definition transcriptFileContent (url videoId : string)
    (extracted : ExtractedContent) : string :=
  "YouTube Video Transcript" +:+ nl +:+
  "URL: " +:+ url +:+ nl +:+
  "Video ID: " +:+ videoId +:+ nl +:+
  "Extracted: " +:+ nowISO env +:+ nl +:+
  "Has Transcript: "
    +:+ (if default false (hasTranscript (metadata extracted))
         then "true" else "false") +:+ nl +:+
  "Word Count: " +:+ pretty (wordCount (metadata extracted)) +:+ nl +:+ nl +:+
  (if bool_decide (hasTranscript (metadata extracted) = Some false)
   then "Note: No transcript was available for this video. Manual notes were added instead."
        +:+ nl +:+ nl
   else "Transcript Content:" +:+ nl +:+ nl)
  +:+ extractedText extracted.

(** [processYouTubeURL] *)
Definition processYouTubeURL (topicId : nat) (url : string) : M IngestionResult :=
  user <- requireUser ;;
  topic <- getTopic topicId ;;
  try_catch
    (extractedContent <- lift (FileProcessingService.processYouTubeURL url
                                 (transcript env)) ;;
     let videoId := Js.or_else (extractYouTubeVideoId url) "unknown" in
     let filename := "video-" +:+ sanitizeVideoId videoId +:+ ".txt" in
     let filePath :=
       "documents/" +:+ pretty topicId +:+ "/" +:+ pretty user +:+ "/"
       +:+ pretty (dateNow env) +:+ "_" +:+ filename in
     let transcriptBlob :=
       {| blob_size :=
            utf8_length (transcriptFileContent url videoId extractedContent) |} in
     uploadError <- storage_upload filePath transcriptBlob ;;
     match uploadError with
     | Some e =>
         throw (newError ("Failed to upload transcript: " +:+ message e))
     | None =>
         let documentData :=
           {| doc_topic_id := topicId; doc_user_id := Some user;
              filename :=
                Js.or_else (Some (source extractedContent))
                  ("YouTube Video " +:+ videoId);
              storage_path := Some filePath;
              file_type := "youtube/video";
              file_size := blob_size transcriptBlob;
              doc_source_type := Some "youtube";
              doc_content := None |} in
         match getUser with
         | None => throw (newError "User authentication expired during processing")
         | Some currentUser =>
             if negb (currentUser =? user)
             then throw (newError "User authentication expired during processing")
             else
               inserted <- insert_document documentData ;;
               match inserted with
               | Throw docError =>
                   storage_remove filePath ;;;
                   if String.eqb (code docError) "42501"
                   then throw (newError ("Authentication failed - please sign out and sign back in. RLS Error: "
                                         +:+ message docError))
                   else throw (newError ("Failed to save document metadata: "
                                         +:+ message docError))
               | Ok docId =>
                   knowledgeBaseEntry <- addToKnowledgeBase topicId
                                           extractedContent (Some docId) ;;
                   sourceEntry <- createSource topicId (Some docId) "youtube"
                                    url (Some (source extractedContent))
                                    (Some "youtube/video")
                                    (Some (blob_size transcriptBlob))
                                    (Some (wordCount (metadata extractedContent)))
                                    (metadata extractedContent)
                                    (Some knowledgeBaseEntry.1) ;;
                   ret {| ing_documentId := docId; sourceId := sourceEntry.1;
                          ing_content := extractedContent;
                          ing_wordCount := wordCount (metadata extractedContent);
                          ing_storagePath := Some filePath |}
               end
         end
     end)
    (fun error =>
       throw (newError ("Failed to process YouTube video: " +:+ message error))).

(** *** Flashcard progress *)

(** [updateFlashcardProgress]: the error of the first query is ignored
    (no row then), the one of the upsert is thrown. *)
Definition updateFlashcardProgress (questionId : nat) (known : bool) : M unit :=
  user <- requireUser ;;
  readError <- external_call ;;
  s <- get_db ;;
  let existing :=
    match readError with
    | Some _ => None
    | None => flashcard_progress s !! (questionId, user)
    end in
  let '(newInterval, newReviews) :=
    match existing with
    | Some row =>
        (if known then PrimFloat.mul (interval row) 2.5%float else 1%float,
         reviews row + 1)
    | None => (1%float, 1)
    end in
  error <- external_call ;;
  throw_if_error error ;;;
  modify_db (with_flashcard_progress
               (insert (questionId, user)
                  {| reviews := newReviews; interval := newInterval |})).

End Service.

End SupabaseService.


(** ** Further string primitives *)

Module JsText.

(** [c.toLowerCase()] on a code unit below 256: the letters A to Z and the
    capitals of Latin-1, which lie 32 below their small letters. *)
Definition toLowerChar (c : ascii) : ascii :=
  let n := nat_of_ascii c in
  if ((65 <=? n) && (n <=? 90))
     || ((192 <=? n) && (n <=? 222) && negb (n =? 215))
  then ascii_of_nat (n + 32) else c.

(** [s.toLowerCase()] *)
Fixpoint toLowerCase (s : string) : string :=
  match s with
  | EmptyString => EmptyString
  | String c r => String (toLowerChar c) (toLowerCase r)
  end.

(** [s.toUpperCase()] on the code units whose capital is a code unit
    below 256; the sharp s, the micro sign and the y with diaeresis, whose
    capitals are not, do not occur where the services call it. *)
Definition toUpperChar (c : ascii) : ascii :=
  let n := nat_of_ascii c in
  if ((97 <=? n) && (n <=? 122))
     || ((224 <=? n) && (n <=? 254) && negb (n =? 247))
  then ascii_of_nat (n - 32) else c.

Fixpoint toUpperCase (s : string) : string :=
  match s with
  | EmptyString => EmptyString
  | String c r => String (toUpperChar c) (toUpperCase r)
  end.

(** [s.startsWith(p)] *)
Definition startsWith (s p : string) : bool := String.prefix p s.

(** [s.endsWith(suffix)]: some tail of [s] is [suffix]. *)
Fixpoint endsWith (s suffix : string) : bool :=
  String.eqb s suffix
  || match s with
     | EmptyString => false
     | String _ r => endsWith r suffix
     end.

(** [s.split(sep)] for a separator of one code unit: the pieces between
    the separators, at least one. *)
Fixpoint split_on (sep : ascii) (s : string) : list string :=
  match s with
  | EmptyString => [EmptyString]
  | String c r =>
      if Ascii.eqb c sep then EmptyString :: split_on sep r
      else match split_on sep r with
           | piece :: pieces => String c piece :: pieces
           | [] => [String c EmptyString]
           end
  end.

(** [pieces.pop()] on the result of a split, which is never empty. *)
Definition pop (pieces : list string) : string := List.last pieces EmptyString.

(** The double quote. *)
Definition dquote : ascii := "034"%char.

(** [s.replace(/c/g, '')] for one code unit. *)
Fixpoint remove_char (c : ascii) (s : string) : string :=
  match s with
  | EmptyString => EmptyString
  | String d r => if Ascii.eqb d c then remove_char c r else String d (remove_char c r)
  end.

(** The name ends with a full stop and one of the extensions:
    [name.match(/\.(e1|e2|...)$/)]. *)
Definition hasExtension (extensions : list string) (fileName : string) : bool :=
  existsb (fun ext => endsWith fileName ("." +:+ ext)) extensions.

(** [(bytes / 1024).toFixed(2)]: the division by a power of two is exact
    on the doubles that are file sizes, and [toFixed] rounds the exact
    quotient to the nearest hundredth, upwards when it lies half way. *)
Definition kilobytesFixed2 (bytes : nat) : string :=
  let n := (bytes * 100 + 512) / 1024 in
  pretty (n / 100) +:+ "."
  +:+ (if n mod 100 <? 10 then "0" else EmptyString) +:+ pretty (n mod 100).

End JsText.

(** ** The strategies for uploaded files: [FileProcessingService] *)

Module FileStrategies.

Import JsText FileProcessingService.

(** *** [detectLanguage] *)

Definition languageMap : list (string * string) :=
  [("js", "JavaScript"); ("jsx", "React/JavaScript"); ("ts", "TypeScript");
   ("tsx", "React/TypeScript"); ("py", "Python"); ("cpp", "C++"); ("c", "C");
   ("h", "C/C++ Header"); ("java", "Java"); ("cs", "C#"); ("php", "PHP");
   ("rb", "Ruby"); ("go", "Go"); ("rs", "Rust"); ("asm", "Assembly");
   ("sql", "SQL"); ("html", "HTML"); ("css", "CSS"); ("json", "JSON");
   ("xml", "XML"); ("yaml", "YAML"); ("yml", "YAML"); ("csv", "CSV Data");
   ("tsv", "TSV Data"); ("docx", "Word Document");
   ("pptx", "PowerPoint Presentation"); ("xlsx", "Excel Spreadsheet");
   ("pdf", "PDF Document"); ("mp3", "MP3 Audio"); ("wav", "WAV Audio");
   ("m4a", "M4A Audio"); ("aac", "AAC Audio"); ("ogg", "OGG Audio");
   ("flac", "FLAC Audio"); ("wma", "WMA Audio")].

Fixpoint ownProperty (key : string) (entries : list (string * string))
  : option string :=
  match entries with
  | [] => None
  | (k, v) :: rest => if String.eqb k key then Some v else ownProperty key rest
  end.

(** What [languageMap[ext] || 'Unknown'] evaluates to.  The map is an
    object literal, so a key it does not own is looked up in
    [Object.prototype]; of the members of the prototype only
    [constructor] and [__proto__] are spelled without capitals and can be
    met by an extension in lower case.  Both are objects, hence truthy,
    and are returned as they are. *)
Inductive Detected :=
| Language (label : string)
| Inherited (member : string).

Definition detectLanguage (filename : string) : Detected :=
  let ext := pop (split_on "." (toLowerCase filename)) in
  match ownProperty ext languageMap with
  | Some label => Language label
  | None =>
      if String.eqb ext "constructor" || String.eqb ext "__proto__"
      then Inherited ext
      else Language "Unknown"
  end.

(** A detected language inside a template literal.  The text of the
    function [Object] is the one of V8. *)
Definition templateOf (d : Detected) : string :=
  match d with
  | Language label => label
  | Inherited member =>
      if String.eqb member "constructor"
      then "function Object() { [native code] }"
      else "[object Object]"
  end.

(** *** [analyzeJSONStructure] *)

(** A value [JSON.parse] returns; the members of an object are in the
    order of [Object.keys]. *)
#[local] Unset Elimination Schemes.
Inductive JsonValue :=
| JsonNull
| JsonBoolean (b : bool)
| JsonNumber (n : float)
| JsonString (s : string)
| JsonArray (items : list JsonValue)
| JsonObject (members : list (string * JsonValue)).
#[local] Set Elimination Schemes.

(** [typeof v] *)
Definition typeOf (v : JsonValue) : string :=
  match v with
  | JsonBoolean _ => "boolean"
  | JsonNumber _ => "number"
  | JsonString _ => "string"
  | JsonNull | JsonArray _ | JsonObject _ => "object"
  end.

(** The [summary] of the object the function returns. *)
Definition analyzeJSONStructure (data : JsonValue) (depth : nat) : string :=
  if 3 <? depth then "deeply nested structure"
  else
    match data with
    | JsonArray items =>
        let firstItemType :=
          match items with
          | first :: _ => typeOf first
          | [] => "unknown"
          end in
        "Array with " +:+ pretty (length items) +:+ " items ("
        +:+ firstItemType +:+ " type)"
    | JsonObject members =>
        let keys := map fst members in
        let keyCount := length keys in
        let sampleKeys := Js.join ", " (firstn 3 keys) in
        "Object with " +:+ pretty keyCount +:+ " properties (" +:+ sampleKeys
        +:+ (if 3 <? keyCount then "..." else EmptyString) +:+ ")"
    | _ => typeOf data +:+ " value"
    end.

(** *** [extractTextFromTextFile] *)

Definition codeExtensions : list string :=
  [".js"; ".jsx"; ".ts"; ".tsx"; ".py"; ".cpp"; ".c"; ".h"; ".java"; ".cs";
   ".php"; ".rb"; ".go"; ".rs"; ".asm"; ".sql"; ".html"; ".css"; ".json";
   ".xml"; ".yaml"; ".yml"].

Definition xmlText (file : File) (text : string) : string :=
  "[XML Data File: " +:+ name file +:+ "]" +:+ nl +:+
  nl +:+
  "File Type: " +:+ templateOf (detectLanguage (name file)) +:+ nl +:+
  nl +:+
  "XML Structure and Content:" +:+ nl +:+
  text +:+ nl +:+
  nl +:+
  "This XML file should be analyzed for:" +:+ nl +:+
  "- Data structure and hierarchy" +:+ nl +:+
  "- Element relationships and attributes" +:+ nl +:+
  "- Configuration or data content" +:+ nl +:+
  "- Schema patterns and organization" +:+ nl +:+
  "- Key information and values".

Definition jsonText (file : File) (jsonData : JsonValue) (stringified : string)
  : string :=
  "[JSON Data File: " +:+ name file +:+ "]" +:+ nl +:+
  nl +:+
  "File Type: " +:+ templateOf (detectLanguage (name file)) +:+ nl +:+
  "Structure: " +:+ analyzeJSONStructure jsonData 0 +:+ nl +:+
  nl +:+
  "JSON Content:" +:+ nl +:+
  stringified +:+ nl +:+
  nl +:+
  "This JSON file should be analyzed for:" +:+ nl +:+
  "- Data structure and object relationships" +:+ nl +:+
  "- Key-value pairs and data types" +:+ nl +:+
  "- Configuration settings or data records" +:+ nl +:+
  "- API responses or data exchange formats" +:+ nl +:+
  "- Nested structures and arrays".

Definition invalidJsonText (file : File) (text : string) : string :=
  "[JSON File: " +:+ name file +:+ "]" +:+ nl +:+
  nl +:+
  "File Type: " +:+ templateOf (detectLanguage (name file)) +:+ nl +:+
  nl +:+
  "Content (Invalid JSON):" +:+ nl +:+
  text +:+ nl +:+
  nl +:+
  "This file appears to be JSON but has parsing errors. It should be analyzed for:" +:+ nl +:+
  "- Potential JSON structure" +:+ nl +:+
  "- Data patterns and formatting" +:+ nl +:+
  "- Configuration or data content".

Definition htmlText (file : File) (text : string) : string :=
  "[HTML Document: " +:+ name file +:+ "]" +:+ nl +:+
  nl +:+
  "File Type: " +:+ templateOf (detectLanguage (name file)) +:+ nl +:+
  nl +:+
  "HTML Content:" +:+ nl +:+
  text +:+ nl +:+
  nl +:+
  "This HTML document should be analyzed for:" +:+ nl +:+
  "- Web page structure and content" +:+ nl +:+
  "- Text content within HTML elements" +:+ nl +:+
  "- Semantic markup and organization" +:+ nl +:+
  "- Educational or informational content" +:+ nl +:+
  "- Key concepts presented in the document".

Definition codeText (file : File) (text : string) : string :=
  "[Code File: " +:+ name file +:+ "]" +:+ nl +:+
  nl +:+
  "Programming Language: " +:+ templateOf (detectLanguage (name file)) +:+ nl +:+
  nl +:+
  "Code Content:" +:+ nl +:+
  text +:+ nl +:+
  nl +:+
  "This is source code that should be analyzed for:" +:+ nl +:+
  "- Key programming concepts and patterns" +:+ nl +:+
  "- Important functions and algorithms  " +:+ nl +:+
  "- Best practices and techniques" +:+ nl +:+
  "- Common errors and debugging approaches" +:+ nl +:+
  "- Framework or library usage".

(** [fileText] is what [file.text()] settles to; [parsed] is the result
    of [JSON.parse] on that text, with the text [JSON.stringify] prints
    for it with an indentation of 2, or [None] when the parser throws. *)
Definition extractTextFromTextFile (file : File) (fileText : Outcome string)
    (parsed : option (JsonValue * string)) : Outcome ExtractedContent :=
  try_catch_pure
    (bind_pure fileText (fun text =>
       if Js.is_empty (Js.trim text)
       then Throw (newError "File appears to be empty")
       else
         let lowerName := toLowerCase (name file) in
         let isCodeFile := existsb (fun ext => endsWith lowerName ext) codeExtensions in
         let isXMLFile := endsWith lowerName ".xml" in
         let isJSONFile := endsWith lowerName ".json" in
         let isHTMLFile := endsWith lowerName ".html" || endsWith lowerName ".htm" in
         let processedText :=
           if isXMLFile then xmlText file text
           else if isJSONFile then
             match parsed with
             | Some (jsonData, stringified) => jsonText file jsonData stringified
             | None => invalidJsonText file text
             end
           else if isHTMLFile then htmlText file text
           else if isCodeFile then codeText file text
           else text in
         Ok {| type := "document";
               source := name file;
               extractedText := processedText;
               metadata :=
                 {| wordCount := splitCount text;
                    fileType := Some (Js.or_else (Some (mimeType file)) "text/plain");
                    fileSize := Some (byteSize file);
                    pages := None; videoId := None; originalUrl := None;
                    title := None; contentLength := None;
                    transcriptSegments := None; hasTranscript := None;
                    extractionError := None;
                    documentType :=
                      Some (if isXMLFile then "XML Document"
                            else if isJSONFile then "JSON Data"
                            else if isHTMLFile then "HTML Document"
                            else if isCodeFile then "Code File"
                            else "Text Document") |} |}))
    (fun error =>
       Throw (newError ("Failed to extract text from file: " +:+ message error))).

(** *** [extractTextFromWord] *)

Definition wordText (file : File) (value : string) : string :=
  "[Word Document: " +:+ name file +:+ "]" +:+ nl +:+
  nl +:+
  "Document Content:" +:+ nl +:+
  value +:+ nl +:+
  nl +:+
  "This Word document should be analyzed for:" +:+ nl +:+
  "- Key concepts and definitions" +:+ nl +:+
  "- Main topics and subtopics" +:+ nl +:+
  "- Important facts and details" +:+ nl +:+
  "- Structured information and lists" +:+ nl +:+
  "- Educational content and examples".

(** [extracted] is what [mammoth.extractRawText] settles to: the raw text
    and the number of messages. *)
Definition extractTextFromWord (file : File) (extracted : Outcome (string * nat))
  : Outcome ExtractedContent :=
  try_catch_pure
    (bind_pure extracted (fun result =>
       let value := result.1 in
       Ok {| type := "document";
             source := name file;
             extractedText := wordText file value;
             metadata :=
               {| wordCount := splitCount value;
                  fileType := Some (mimeType file);
                  fileSize := Some (byteSize file);
                  pages := None; videoId := None; originalUrl := None;
                  title := None; contentLength := None;
                  transcriptSegments := None; hasTranscript := None;
                  extractionError := None;
                  documentType := Some "Word Document" |} |}))
    (fun error =>
       Throw (newError ("Failed to extract text from Word document: "
                        +:+ message error))).

(** *** [extractTextFromImage] *)

(** [recognised] is what the start of the OCR worker followed by
    [recognize] settles to. *)
Definition extractTextFromImage (file : File) (recognised : Outcome string)
  : Outcome ExtractedContent :=
  try_catch_pure
    (bind_pure recognised (fun text =>
       if Js.is_empty (Js.trim text)
       then Throw (newError "No text detected in image")
       else
         Ok {| type := "document";
               source := name file;
               extractedText := text;
               metadata :=
                 {| wordCount := splitCount text;
                    fileType := Some (mimeType file);
                    fileSize := Some (byteSize file);
                    pages := None; videoId := None; originalUrl := None;
                    title := None; contentLength := None;
                    transcriptSegments := None; hasTranscript := None;
                    extractionError := None;
                    documentType := None |} |}))
    (fun error =>
       Throw (newError ("Failed to extract text from image: " +:+ message error))).

(** *** [extractTextFromCSV] *)

(** A cell: trimmed, and without its double quotes. *)
Definition csvCell (v : string) : string := remove_char dquote (Js.trim v).

(** The block of one sample row: a heading, then one line for each
    header with the value in that column, or [N/A] when the row has no
    value there or an empty one. *)
Definition csvRowBlock (separator : ascii) (headers : list string) (index : nat)
    (row : string) : string :=
  let values := map csvCell (split_on separator row) in
  nl +:+
  "Row " +:+ pretty (index + 1) +:+ ":" +:+ nl
  +:+ String.concat EmptyString
        (imap (fun i header =>
                 "  " +:+ header +:+ ": " +:+ Js.or_else (values !! i) "N/A" +:+ nl)
              headers).

Definition csvText (file : File) (fileTypeLabel : string) (separator : ascii)
    (headers dataRows : list string) : string :=
  "[" +:+ fileTypeLabel +:+ " Data File: " +:+ name file +:+ "]" +:+ nl +:+
  nl +:+
  "Data Structure: " +:+ pretty (length headers) +:+ " columns, " +:+ pretty (length dataRows) +:+ " rows" +:+ nl +:+
  nl +:+
  "Column Headers:" +:+ nl +:+
  Js.join nl (imap (fun i header => pretty (i + 1) +:+ ". " +:+ header) headers) +:+ nl +:+
  nl +:+
  "Sample Data (first 10 rows):" +:+ nl
  +:+ String.concat EmptyString (imap (csvRowBlock separator headers) (firstn 10 dataRows))
  +:+ (if 10 <? length dataRows
       then (nl +:+
            "... and " +:+ pretty (length dataRows - 10) +:+ " more rows" +:+ nl)
       else EmptyString)
  +:+ (nl +:+
       "Data Summary:" +:+ nl +:+
       "- Total Records: " +:+ pretty (length dataRows) +:+ nl +:+
       "- Columns: " +:+ pretty (length headers) +:+ nl +:+
       "- File Size: " +:+ kilobytesFixed2 (byteSize file) +:+ " KB" +:+ nl +:+
       "- Format: " +:+ fileTypeLabel +:+ " (" +:+ (if Ascii.eqb separator "009" then "Tab" else "Comma") +:+ " separated)" +:+ nl +:+
       nl +:+
       "This " +:+ fileTypeLabel +:+ " data should be analyzed for:" +:+ nl +:+
       "- Data patterns and trends" +:+ nl +:+
       "- Key relationships between columns" +:+ nl +:+
       "- Statistical insights and distributions" +:+ nl +:+
       "- Important data points and outliers" +:+ nl +:+
       "- Business or research insights").

Definition extractTextFromCSV (file : File) (fileText : Outcome string)
  : Outcome ExtractedContent :=
  let isTSV := endsWith (toLowerCase (name file)) ".tsv" in
  let fileTypeLabel := if isTSV then "TSV" else "CSV" in
  try_catch_pure
    (bind_pure fileText (fun text =>
       if Js.is_empty (Js.trim text)
       then Throw (newError "CSV/TSV file appears to be empty")
       else
         let separator := if isTSV then "009"%char else ","%char in
         let lines :=
           List.filter (fun line => negb (Js.is_empty (Js.trim line)))
             (split_on "010" text) in
         match lines with
         | [] =>
             Throw (newError ("No valid data found in " +:+ fileTypeLabel +:+ " file"))
         | headerLine :: dataRows =>
             let headers := map csvCell (split_on separator headerLine) in
             let processedText := csvText file fileTypeLabel separator headers dataRows in
             Ok {| type := "document";
                   source := name file;
                   extractedText := processedText;
                   metadata :=
                     {| wordCount := splitCount processedText;
                        fileType := Some (if isTSV then "text/tsv" else "text/csv");
                        fileSize := Some (byteSize file);
                        pages := None; videoId := None; originalUrl := None;
                        title := None; contentLength := None;
                        transcriptSegments := None; hasTranscript := None;
                        extractionError := None;
                        documentType := None |} |}
         end))
    (fun error =>
       Throw (newError ("Failed to extract text from " +:+ fileTypeLabel +:+ ": "
                        +:+ message error))).

(** *** [processFile] *)

(** What the libraries and the file give for one uploaded file.  The
    strategies for recordings, presentations and spreadsheets are not
    embedded: what each of them settles to for the file is given. *)
Record FileContents := {
  fileText : Outcome string;
  fileJson : option (JsonValue * string);
  filePdf : PdfDocument;
  fileWord : Outcome (string * nat);
  fileOcr : Outcome string;
  audioExtraction : Outcome ExtractedContent;
  powerPointExtraction : Outcome ExtractedContent;
  excelExtraction : Outcome ExtractedContent
}.

Definition audioExtensions : list string :=
  ["mp3"; "wav"; "m4a"; "aac"; "ogg"; "flac"; "wma"; "mp4"; "mov"; "avi"; "webm"].

Definition legacyExtensions : list string := ["doc"; "ppt"; "xls"].

Definition textExtensions : list string :=
  ["txt"; "md"; "js"; "jsx"; "ts"; "tsx"; "py"; "cpp"; "c"; "h"; "java"; "cs";
   "php"; "rb"; "go"; "rs"; "asm"; "sql"; "html"; "css"; "json"; "xml"; "yaml";
   "yml"].

(** The message for a file in a legacy Office format.  The two arrows of
    the source, code units above 255, are written [->]. *)
Definition legacyMessage (fileName : string) : string :=
  let legacyFormat := toUpperCase (pop (split_on "." fileName)) in
  let modernFormat :=
    if String.eqb legacyFormat "DOC" then "DOCX"
    else if String.eqb legacyFormat "PPT" then "PPTX" else "XLSX" in
  "Legacy " +:+ legacyFormat +:+ " format is not supported. Please save as "
  +:+ modernFormat +:+ " format for full processing. Most Office applications can convert: File -> Save As -> "
  +:+ modernFormat +:+ " format.".

Definition processFile (file : File) (contents : FileContents)
  : Outcome ExtractedContent :=
  let fileType := mimeType file in
  let fileName := toLowerCase (name file) in
  try_catch_pure
    (if startsWith fileType "audio/" || hasExtension audioExtensions fileName
     then audioExtraction contents
     else if String.eqb fileType "application/pdf" || endsWith fileName ".pdf"
     then extractTextFromPDF file (filePdf contents)
     else if String.eqb fileType
               "application/vnd.openxmlformats-officedocument.wordprocessingml.document"
             || endsWith fileName ".docx"
     then extractTextFromWord file (fileWord contents)
     else if String.eqb fileType
               "application/vnd.openxmlformats-officedocument.presentationml.presentation"
             || endsWith fileName ".pptx"
     then powerPointExtraction contents
     else if String.eqb fileType
               "application/vnd.openxmlformats-officedocument.spreadsheetml.sheet"
             || endsWith fileName ".xlsx"
     then excelExtraction contents
     else if hasExtension legacyExtensions fileName
     then Throw (newError (legacyMessage fileName))
     else if String.eqb fileType "text/csv" || endsWith fileName ".csv"
             || String.eqb fileType "text/tsv" || endsWith fileName ".tsv"
     then extractTextFromCSV file (fileText contents)
     else if startsWith fileType "image/"
     then extractTextFromImage file (fileOcr contents)
     else if startsWith fileType "text/" || hasExtension textExtensions fileName
     then extractTextFromTextFile file (fileText contents) (fileJson contents)
     else extractTextFromTextFile file (fileText contents) (fileJson contents))
    (fun error =>
       Throw (newError ("Failed to process " +:+ name file +:+ ": "
                        +:+ message error))).

End FileStrategies.

(** ** Further calls of [SupabaseService], and their caller *)

Module ContentService.

Import JsText FileProcessingService FileStrategies SupabaseService.

(** What the web answers during one call: the browser interfaces and the
    response to the request for the page. *)
Record Web := {
  browser : Browser;
  fetched : FetchResult
}.

Record WebIngestionResult := {
  web_documentId : nat;
  web_sourceId : nat;
  web_content : ExtractedContent;
  web_wordCount : nat;
  aiGeneration : GenerationResult
}.

(** An element of the list [getQuestions] returns: the payload of the
    question with its key and its flag. *)
Record PoolItem := {
  pool_data : StudyItem;
  pool_id : nat;
  pool_is_saved : bool
}.

(** The argument of [updateTopic]: the columns of a topic an update can
    name. *)
Record TopicUpdates := {
  new_name : option string;
  new_user_id : option nat
}.

(** The document row after the update of [processFileUpload]: the
    metadata are replaced by those of the extraction, which hold no
    content, and the owner is set. *)
Definition withOwner (user : nat) (d : Document) : Document :=
  {| doc_topic_id := doc_topic_id d; doc_user_id := Some user;
     filename := filename d; storage_path := storage_path d;
     file_type := file_type d; file_size := file_size d;
     doc_source_type := doc_source_type d; doc_content := None |}.

(** The message [processFileUpload] gives for an error: three marker
    words replace the message of the error by a fixed one. *)
Definition uploadErrorMessage (error : Error) : string :=
  if Js.includes "fileProcessingService" (message error)
  then "File processing service error - check console for details"
  else if Js.includes "uploadFile" (message error)
  then "File upload failed - check storage permissions"
  else if Js.includes "RLS" (message error)
  then "Authentication error - please sign out and sign back in"
  else Js.or_else (Some (message error)) "Unknown processing error".

(** A string that may be absent, as a condition: absent and empty are
    falsy. *)
Definition truthy (o : option string) : option string :=
  match o with
  | Some s => if Js.is_empty s then None else Some s
  | None => None
  end.

Section Service.

Variable env : Env.

(** *** Topics *)

(** [getTopics]; the order of the rows is the one of the table. *)
Definition getTopics : M (list (nat * Topic)) :=
  user <- requireUser env ;;
  error <- external_call ;;
  throw_if_error error ;;;
  s <- get_db ;;
  ret (select_rows (fun _ t => topic_user_id t =? user) (topics s)).

(** [createTopic] *)
Definition createTopic (name : string) : M (nat * Topic) :=
  user <- requireUser env ;;
  error <- external_call ;;
  throw_if_error error ;;;
  s <- get_db ;;
  let row := {| topic_user_id := user; topic_name := name |} in
  let '(id, t) := insert_row row (topics s) in
  modify_db (fun s =>
    {| blobs := blobs s; topics := t; documents := documents s;
       knowledge_base := knowledge_base s; sources := sources s;
       generations := generations s; questions := questions s;
       generation_items := generation_items s;
       flashcard_progress := flashcard_progress s |}) ;;;
  ret (id, row).

(** [updateTopic] *)
Definition updateTopic (id : nat) (updates : TopicUpdates) : M Topic :=
  user <- requireUser env ;;
  error <- external_call ;;
  throw_if_error error ;;;
  s <- get_db ;;
  match topics s !! id with
  | Some t =>
      if topic_user_id t =? user then
        let t' := {| topic_user_id := default (topic_user_id t) (new_user_id updates);
                     topic_name := default (topic_name t) (new_name updates) |} in
        modify_db (fun s =>
          {| blobs := blobs s; topics := <[id := t']> (topics s);
             documents := documents s;
             knowledge_base := knowledge_base s; sources := sources s;
             generations := generations s; questions := questions s;
             generation_items := generation_items s;
             flashcard_progress := flashcard_progress s |}) ;;;
        ret t'
      else throw singleRowError
  | None => throw singleRowError
  end.

(** *** Questions *)

(** [addQuestions]: questions without a generation; the columns the call
    does not name are empty. *)
Definition addQuestions (topicId : nat) (items : list StudyItem)
  : M (list (nat * Question)) :=
  user <- requireUser env ;;
  let questionsToInsert :=
    map (fun q =>
           {| q_topic_id := topicId; q_user_id := user;
              q_type := itemType q; question_data := q;
              is_saved := false;
              q_generation_id := None;
              source_attribution := [] |}) items in
  error <- external_call ;;
  throw_if_error error ;;;
  s <- get_db ;;
  let '(data, t) := insert_rows questionsToInsert (questions s) in
  modify_db (with_questions (fun _ => t)) ;;;
  ret data.

(** [getQuestions]; the order of the rows is the one of the table. *)
Definition getQuestions (topicId : nat) (savedOnly : bool) : M (list PoolItem) :=
  user <- requireUser env ;;
  error <- external_call ;;
  throw_if_error error ;;;
  s <- get_db ;;
  let data :=
    select_rows
      (fun _ q => (q_topic_id q =? topicId) && (q_user_id q =? user)
                  && (if savedOnly then is_saved q else true))
      (questions s) in
  ret (map (fun q => {| pool_data := question_data q.2; pool_id := q.1;
                        pool_is_saved := is_saved q.2 |}) data).

(** *** Sources with their numbers of generated items *)

(** The query of [getSourcesWithStats] for one source: an error is
    logged, and the source then counts no items. *)
Definition countGeneratedItems (source : nat * Source) : M (nat * Source * nat) :=
  error <- external_call ;;
  s <- get_db ;;
  let items :=
    match error with
    | Some _ => None
    | None =>
        Some (select_rows
                (fun _ it => bool_decide (source.1 ∈ derived_from_sources it))
                (generation_items s))
    end in
  ret (source, default 0 (length <$> items)).

(** [Promise.all(sources.map(...))], the requests in the order of the
    sources. *)
Fixpoint forEach {A B} (f : A -> M B) (l : list A) : M (list B) :=
  match l with
  | [] => ret []
  | x :: rest =>
      y <- f x ;;
      ys <- forEach f rest ;;
      ret (y :: ys)
  end.

(** [getSourcesWithStats] *)
Definition getSourcesWithStats (topicId : nat) : M (list (nat * Source * nat)) :=
  user <- requireUser env ;;
  sources <- getSources env topicId ;;
  forEach countGeneratedItems sources.

(** *** Ingestion of a file *)

(** [processFileUpload] *)
Definition processFileUpload (topicId : nat) (file : File)
    (contents : FileContents) : M IngestionResult :=
  user <- requireUser env ;;
  topic <- getTopic env topicId ;;
  try_catch
    (extractedContent <- lift (processFile file contents) ;;
     uploadResult <- uploadFile env topicId file ;;
     updateError <- external_call ;;
     match updateError with
     | Some _ => ret tt
     | None =>
         modify_db (with_documents
                      (alter (withOwner user) (documentId uploadResult)))
     end ;;;
     knowledgeBaseEntry <- addToKnowledgeBase env topicId extractedContent
                             (Some (documentId uploadResult)) ;;
     let sourceType :=
       if String.eqb (type extractedContent) "audio" then "audio" else "file" in
     sourceEntry <- createSource env topicId (Some (documentId uploadResult))
                      sourceType (name file) (Some (name file))
                      (Some (mimeType file)) (Some (byteSize file))
                      (Some (wordCount (metadata extractedContent)))
                      (metadata extractedContent)
                      (Some knowledgeBaseEntry.1) ;;
     ret {| ing_documentId := documentId uploadResult;
            sourceId := sourceEntry.1;
            ing_content := extractedContent;
            ing_wordCount := wordCount (metadata extractedContent);
            ing_storagePath := None |})
    (fun error =>
       throw (newError ("Failed to process " +:+ name file +:+ ": "
                        +:+ uploadErrorMessage error))).

(** *** Ingestion of a web page *)

(** [processWebURL]: the page is stored as a source, and a selective
    generation from that source follows at once. *)
Definition processWebURL (web : Web) (topicId : nat) (url : string)
  : M WebIngestionResult :=
  user <- requireUser env ;;
  topic <- getTopic env topicId ;;
  try_catch
    (extractedContent <- lift (FileProcessingService.processWebURL (browser web)
                                 (nowISO env) url (fetched web) (transcript env)) ;;
     inserted <- insert_document
                   {| doc_topic_id := topicId; doc_user_id := Some user;
                      filename := source extractedContent;
                      storage_path := None;
                      file_type := "text/html";
                      file_size :=
                        default 0 (contentLength (metadata extractedContent));
                      doc_source_type := Some "web";
                      doc_content := None |} ;;
     match inserted with
     | Throw docError =>
         throw (newError ("Failed to save web content: " +:+ message docError))
     | Ok docId =>
         knowledgeBaseEntry <- addToKnowledgeBase env topicId extractedContent
                                 (Some docId) ;;
         sourceEntry <- createSource env topicId (Some docId) "web"
                          (source extractedContent) (Some url)
                          (Some "text/html")
                          (Some (default 0 (contentLength
                                              (metadata extractedContent))))
                          (Some (wordCount (metadata extractedContent)))
                          (metadata extractedContent)
                          (Some knowledgeBaseEntry.1) ;;
         aiResult <- generateAIContentFromSources env topicId [sourceEntry.1] ;;
         ret {| web_documentId := docId;
                web_sourceId := sourceEntry.1;
                web_content := extractedContent;
                web_wordCount := wordCount (metadata extractedContent);
                aiGeneration := aiResult |}
     end)
    (fun error =>
       throw (newError ("Failed to process website: " +:+ message error))).

End Service.

End ContentService.

(** ** The data service of the user interface: [DataContext] *)

Module DataContext.

Import FileProcessingService FileStrategies SupabaseService ContentService.

(** [dataService.ingest]: [contextUser] is the user the interface holds,
    which is not the session the services ask for; of a file, an address
    and a text the first that is given is ingested. *)
Definition ingest (env : Env) (contextUser : option nat) (topicId : nat)
    (file : option (File * FileContents)) (url contentText sourceName : option string)
  : M IngestionResult :=
  match contextUser with
  | None =>
      throw (newError "Authentication required. Please sign in to ingest content.")
  | Some _ =>
      try_catch
        (match file with
         | Some (f, contents) => processFileUpload env topicId f contents
         | None =>
             match truthy url with
             | Some u => processYouTubeURL env topicId u
             | None =>
                 match truthy contentText with
                 | Some text =>
                     processTextContent env topicId text
                       (Js.or_else sourceName "Pasted Text")
                 | None =>
                     throw (newError "No file, URL, or text content provided")
                 end
             end
         end)
        (fun error =>
           throw (newError ("Failed to process content: "
                            +:+ Js.or_else (Some (message error))
                                  "Unknown processing error occurred")))
  end.

End DataContext.
(** ** Vocabulary of the properties

    Notions the statements of Part II use, beside the functions of the
    services. *)

Module Vocabulary.

Import Js FileProcessingService SupabaseService.

(** The white-space delimited token count of a text, in the words of the
    specification: the number of maximal runs of code units that are not
    white space. *)
Fixpoint tokens_from (prev_ws : bool) (s : string) : nat :=
  match s with
  | EmptyString => 0
  | String c r =>
      if is_space c then tokens_from true r
      else (if prev_ws then 1 else 0) + tokens_from false r
  end.

Definition token_count (s : string) : nat := tokens_from true s.

(** Whether the last code unit of [s] is white space; [d] answers for the
    empty text. *)
Fixpoint ends_in_space (d : bool) (s : string) : bool :=
  match s with
  | EmptyString => d
  | String c r => ends_in_space (is_space c) r
  end.

Definition starts_with_space (s : string) : bool :=
  match s with
  | EmptyString => false
  | String c _ => is_space c
  end.

(** Whether a text holds a line feed. *)
Fixpoint has_newline (s : string) : bool :=
  match s with
  | EmptyString => false
  | String c r => Ascii.eqb c "010" || has_newline r
  end.






(** A transcript is unavailable when the provider rejects, the timer wins,
    or no segment comes back. *)
Definition transcriptUnavailable (r : TranscriptResponse) : bool :=
  match r with
  | TranscriptRejected _ | TranscriptTimeout => true
  | TranscriptSegments segs => length segs =? 0
  end.

(** A page is unreachable when the request fails or the answer is not
    [ok]. *)
Definition pageUnreachable (r : FetchResult) : bool :=
  match r with
  | FetchRejected _ => true
  | FetchResponse ok _ _ _ => negb ok
  end.

Definition isYouTubeHost (hostname : string) : bool :=
  Js.includes "youtube.com" hostname || Js.includes "youtu.be" hostname.

Definition unreachableMessage : string :=
  "Failed to process website: Unable to access the website. This may be due to CORS restrictions or the site being unavailable. Error: ".

(** A browser for the examples: every [https] address parses, with the
    host [example.org]; a page is its body text. *)
Definition sampleBrowser : Browser :=
  {| URL_hostname := fun url =>
       if String.prefix "https://" url then Some "example.org" else None;
     DOMParser_parse := fun html =>
       {| titleText := None; mainContentText := None; bodyText := html |} |}.


Definition sampleNow : string := "2025-01-01T00:00:00.000Z".


(** *** Stores *)

(** [t'] is [t] after the insertion of [rows], each under the key the
    database gave it. *)
Definition inserted {A} (t : gmap nat A) (rows : list (nat * A)) (t' : gmap nat A)
  : Prop :=
  insert_rows rows.*2 t = (rows, t').

(** The tables a generation call has no business with are as before. *)
Definition same_other_tables (s s' : Store) : Prop :=
  blobs s' = blobs s /\ topics s' = topics s /\ documents s' = documents s
  /\ knowledge_base s' = knowledge_base s /\ sources s' = sources s
  /\ flashcard_progress s' = flashcard_progress s.

(** A question created on behalf of the session user for the generation
    [gid] with the sources [ids]. *)
Definition attributed_question (env : Env) (topicId gid : nat) (ids : list nat)
    (q : nat * Question) : Prop :=
  q_generation_id q.2 = Some gid /\ source_attribution q.2 = ids
  /\ is_saved q.2 = false /\ q_topic_id q.2 = topicId
  /\ getUser env = Some (q_user_id q.2).

(** A generation item recorded for the generation [gid] with the sources
    [ids]. *)
Definition attributed_item (gid : nat) (ids : list nat)
    (it : nat * GenerationItem) : Prop :=
  generation_id it.2 = gid /\ derived_from_sources it.2 = ids.

(** The source [id] belongs to the topic: it is a source of the topic owned
    by the session user. *)
Definition topic_owned (env : Env) (s : Store) (topicId id : nat) : bool :=
  match getUser env, sources s !! id with
  | Some user, Some row => (src_topic_id row =? topicId) && (src_user_id row =? user)
  | _, _ => false
  end.

(** The caller's ids that belong to the topic, in the caller's order. *)
Definition resolved_ids (env : Env) (s : Store) (topicId : nat) (ids : list nat)
  : list nat :=
  filter (fun id => topic_owned env s topicId id = true) ids.

(** The ids of every source of the topic, as the store lists them. *)
Definition topic_source_ids (env : Env) (s : Store) (topicId : nat) : list nat :=
  match getUser env with
  | Some user =>
      map fst (select_rows
                 (fun _ r => (src_topic_id r =? topicId) && (src_user_id r =? user))
                 (sources s))
  | None => []
  end.

(** What one generation call has written: the generation row under its
    key, the questions and the generation items. *)
Record GenerationRun := {
  run_id : nat;
  run_row : Generation;
  run_questions : list (nat * Question);
  run_items : list (nat * GenerationItem)
}.

(** The store [s1] is the store [s0] plus the records of [run], a
    generation of type [ty] for the topic [topicId] from the sources
    [ids]. *)
Definition recorded (env : Env) (ty : GenerationType) (topicId : nat)
    (ids : list nat) (s0 s1 : Store) (run : GenerationRun) : Prop :=
  generations s0 !! run_id run = None
  /\ generations s1 = <[run_id run := run_row run]> (generations s0)
  /\ generation_type (run_row run) = ty
  /\ source_ids (run_row run) = ids
  /\ inserted (questions s0) (run_questions run) (questions s1)
  /\ Forall (attributed_question env topicId (run_id run) ids) (run_questions run)
  /\ inserted (generation_items s0) (run_items run) (generation_items s1)
  /\ Forall (attributed_item (run_id run) ids) (run_items run)
  /\ same_other_tables s0 s1.

(** How the outcome of a call relates to the generation row it leaves. *)
Definition finalised (r : Outcome GenerationResult) (run : GenerationRun) : Prop :=
  match r with
  | Ok res =>
      generationId res = run_id run
      /\ status (run_row run) = Completed
      /\ items_generated (run_row run) = res_generated res
      /\ length (run_questions run) = res_generated res
      /\ length (run_items run) = res_generated res
      /\ 0 < res_generated res
  | Throw _ =>
      status (run_row run) = Processing \/ status (run_row run) = Failed
  end.

(** The two ways a generation call ends: nothing was written and the call
    threw, or exactly one generation was recorded. *)
Definition generation_post (env : Env) (ty : GenerationType) (topicId : nat)
    (ids : list nat) (s0 : Store) (r : Outcome GenerationResult) (s1 : Store)
  : Prop :=
  (s1 = s0 /\ is_ok r = false)
  \/ exists run, recorded env ty topicId ids s0 s1 run /\ finalised r run.

(** The question pool of a topic, as [getQuestions] reads it. *)
Definition question_pool (s : Store) (topicId user : nat) : gmap nat Question :=
  filter (fun kq => q_topic_id kq.2 = topicId /\ q_user_id kq.2 = user)
         (questions s).

Definition set_is_saved (b : bool) (q : Question) : Question :=
  {| q_topic_id := q_topic_id q; q_user_id := q_user_id q; q_type := q_type q;
     question_data := question_data q; is_saved := b;
     q_generation_id := q_generation_id q;
     source_attribution := source_attribution q |}.

(** [q'] is [q] up to the flag [is_saved]. *)
Definition same_but_is_saved (q q' : Question) : Prop :=
  q' = set_is_saved (is_saved q') q.

(** *** Histories of service calls *)

Inductive GenerationCall :=
| BulkGeneration (topicId : nat)
| SelectiveGeneration (topicId : nat) (sourceIds : list nat)
| DirectTextGeneration (topicId : nat) (textContent promptTitle : string).

Definition perform (env : Env) (call : GenerationCall) : M GenerationResult :=
  match call with
  | BulkGeneration topicId => SupabaseService.generateAIContent env topicId
  | SelectiveGeneration topicId sourceIds =>
      generateAIContentFromSources env topicId sourceIds
  | DirectTextGeneration topicId textContent promptTitle =>
      processDirectTextInput env topicId textContent promptTitle
  end.

(** The calls of the service that change the store: the three generation
    paths, the ingestion of a file, of pasted text and of a video, the
    saving of a question and the review of a flashcard. *)
Inductive ServiceCall :=
| Generate (call : GenerationCall)
| Upload (topicId : nat) (file : File)
| PasteText (topicId : nat) (contentText sourceName : string)
| AddVideo (topicId : nat) (url : string)
| Save (questionId : nat)
| Review (questionId : nat) (known : bool).

(** The store a call leaves. *)
Definition effect (env : Env) (call : ServiceCall) (s : Store)
    (faults : list (option Error)) : Store :=
  match call with
  | Generate c => (run (perform env c) s faults).2
  | Upload topicId file => (run (uploadFile env topicId file) s faults).2
  | PasteText topicId contentText sourceName =>
      (run (processTextContent env topicId contentText sourceName) s faults).2
  | AddVideo topicId url => (run (processYouTubeURL env topicId url) s faults).2
  | Save questionId => (run (saveQuestion env questionId) s faults).2
  | Review questionId known =>
      (run (updateFlashcardProgress env questionId known) s faults).2
  end.

(** One call of a history: what is called, in which environment, and which
    external calls fail. *)
Record Step := {
  step_env : Env;
  step_call : ServiceCall;
  step_faults : list (option Error)
}.

Definition step (s : Store) (st : Step) : Store :=
  effect (step_env st) (step_call st) s (step_faults st).

(** The store after a history of service calls. *)
Definition after (s : Store) (history : list Step) : Store :=
  foldl step s history.

(** The provenance records are as before, and the questions are as before
    up to the flag [is_saved]. *)
Definition provenance_kept (s s' : Store) : Prop :=
  generations s' = generations s
  /\ generation_items s' = generation_items s
  /\ dom (questions s') = dom (questions s)
  /\ forall k q,
       questions s !! k = Some q ->
       exists q', questions s' !! k = Some q' /\ same_but_is_saved q q'.

(** Attribution containment: every generation item belongs to a stored
    generation and names only sources of that generation. *)
Definition attribution_contained (s : Store) : Prop :=
  forall k it,
    generation_items s !! k = Some it ->
    exists g,
      generations s !! generation_id it = Some g
      /\ derived_from_sources it ⊆ source_ids g.

(** Attribution at the grain of the run: every generation item, and every
    question made by a generation, carries exactly the sources of its
    generation. *)
Definition attribution_exact (s : Store) : Prop :=
  (forall k it,
     generation_items s !! k = Some it ->
     exists g,
       generations s !! generation_id it = Some g
       /\ derived_from_sources it = source_ids g)
  /\ (forall k q gid,
        questions s !! k = Some q ->
        q_generation_id q = Some gid ->
        exists g,
          generations s !! gid = Some g
          /\ source_attribution q = source_ids g).

(** *** A small world for the examples

    The session user 7 owns the topic 1 with the sources 10, 11 and 12 (A,
    B and C), each with its document and knowledge-base row, and the topic
    2 with the source 20 (D). *)

Definition sampleSource (topicId documentId knowledgeBaseId : nat) (label : string)
  : Source :=
  {| src_topic_id := topicId; src_user_id := 7;
     src_document_id := Some documentId; source_type := "file";
     source_name := label; original_name := Some label;
     src_file_type := Some "text/plain"; src_file_size := Some 100;
     word_count := Some 20; src_metadata := emptyMetadata 20;
     knowledge_base_id := Some knowledgeBaseId |}.

Definition sampleKnowledge (topicId documentId : nat) (label body : string)
  : KnowledgeBaseRow :=
  {| kb_topic_id := topicId; kb_user_id := 7;
     kb_document_id := Some documentId; kb_type := "document";
     kb_source := label; kb_content := body;
     kb_metadata := emptyMetadata 20 |}.

Definition sampleStore : Store :=
  {| blobs := ∅;
     topics := {[ 1 := {| topic_user_id := 7; topic_name := "Biology" |};
                  2 := {| topic_user_id := 7; topic_name := "History" |} ]};
     documents := ∅;
     knowledge_base :=
       {[ 200 := sampleKnowledge 1 100 "a.txt" "Cells divide by mitosis.";
          201 := sampleKnowledge 1 101 "b.txt" "Meiosis halves the chromosome number.";
          202 := sampleKnowledge 1 102 "c.txt" "Ribosomes build proteins.";
          220 := sampleKnowledge 2 120 "d.txt" "Rome fell in 476." ]};
     sources :=
       {[ 10 := sampleSource 1 100 200 "a.txt";
          11 := sampleSource 1 101 201 "b.txt";
          12 := sampleSource 1 102 202 "c.txt";
          20 := sampleSource 2 120 220 "d.txt" ]};
     generations := ∅; questions := ∅; generation_items := ∅;
     flashcard_progress := ∅ |}.

Definition sampleFlashcard : StudyItem :=
  {| itemType := "flashcard"; front := Some "What is mitosis?";
     question := None; itemTitle := None; difficulty := Some "easy" |}.

Definition sampleSummary : StudyItem :=
  {| itemType := "summary"; front := None; question := None;
     itemTitle := Some "Cell division"; difficulty := None |}.

Definition sampleCompletion : CompletionResponse :=
  CompletionContent
    (Some {| flashcards := Some [sampleFlashcard]; multipleChoice := None;
             openEnded := None; summaries := Some [sampleSummary] |}).

Definition sampleEnv : Env :=
  {| auth := SignedIn 7;
     VITE_OPENAI_API_KEY := Some "sk-test";
     nowISO := sampleNow;
     dateNow := 1735689600000%N;
     elapsedMs := 1500;
     completion := sampleCompletion;
     transcript := TranscriptTimeout |}.


(** A text is pasted into the topic 1, then a selective generation is made
    from A, B and the foreign D; no call fails. *)
Definition sampleHistory : list Step :=
  [ {| step_env := sampleEnv;
       step_call := PasteText 1 "Hello world, this is a test." "Pasted Text";
       step_faults := [] |};
    {| step_env := sampleEnv;
       step_call := Generate (SelectiveGeneration 1 [10; 11; 20]);
       step_faults := [] |} ].

(** The sample world after that history: it holds one completed
    generation, under the key 0. *)
Definition completedStore : Store := after sampleStore sampleHistory.

(** An update that sets the status back to [processing]. *)
Definition reopen : GenerationUpdates :=
  {| u_status := Some Processing; itemsGenerated := None; u_breakdown := None;
     completedAt := None; processingTimeMs := None; errorMessage := None |}.





Definition sampleFile : File :=
  {| name := "lecture notes.txt"; byteSize := 512; mimeType := "text/plain" |}.

Definition constraintError : Error :=
  {| message := "null value in column violates not-null constraint";
     code := "23502" |}.

Definition storageError : Error :=
  {| message := "storage unavailable"; code := "503" |}.

End Vocabulary.


(** ** Vocabulary of the further properties *)

Module Notions.

Import Js JsText FileProcessingService FileStrategies SupabaseService
  ContentService Vocabulary.

(** Whether [rest] can follow a captured video id: it is empty or starts
    with one of the code units that end the capture. *)
Definition ends_capture (rest : string) : bool :=
  match rest with
  | EmptyString => true
  | String c _ => negb (is_capture_char c)
  end.

(** No code unit of [s] is the letter y, with which every alternative of
    the URL pattern starts. *)
Definition without_y (s : string) : bool :=
  all_chars (fun c => negb (Ascii.eqb c "y")) s.

(** Every white-space code unit of [s] is a blank that does not follow
    white space; [prev_ws] tells whether white space precedes [s]. *)
Fixpoint single_blanks (prev_ws : bool) (s : string) : bool :=
  match s with
  | EmptyString => true
  | String c r =>
      if is_space c
      then Ascii.eqb c " " && negb prev_ws && single_blanks true r
      else single_blanks false r
  end.

(** A text in which words are separated by single blanks, without white
    space at either end. *)
Definition single_spaced (s : string) : bool :=
  single_blanks true s && negb (ends_in_space false s).

(** The sources the caller selected among those of the topic that the
    session user owns, as [getKnowledgeBaseBySourceIds] reads them. *)
Definition selected_sources (s : Store) (topicId user : nat)
    (sourceIds : list nat) : list (nat * Source) :=
  select_rows
    (fun k r => (src_topic_id r =? topicId) && (src_user_id r =? user)
                && bool_decide (k ∈ sourceIds))
    (sources s).

(** Why a knowledge-base row belongs to a selection of sources: it is the
    row of the document of a selected source, or the row a selected text
    source names, or no selected source has a document at all. *)
Definition linked_to_selection (selected : list (nat * Source)) (k : nat)
    (row : KnowledgeBaseRow) : Prop :=
  (exists src d,
     src ∈ selected /\ src_document_id src.2 = Some d
     /\ kb_document_id row = Some d)
  \/ (exists src,
        src ∈ selected /\ source_type src.2 = "text"
        /\ knowledge_base_id src.2 = Some k)
  \/ Forall (fun src : nat * Source => src_document_id src.2 = None) selected.

(** The document row [uploadFile] has the database write for a file. *)
Definition uploadedDocument (topicId user : nat) (file : File) (path : string)
  : Document :=
  {| doc_topic_id := topicId; doc_user_id := Some user;
     filename := name file; storage_path := Some path;
     file_type := mimeType file; file_size := byteSize file;
     doc_source_type := None; doc_content := None |}.

(** The tables an upload has no business with are as before. *)
Definition same_but_files (s s' : Store) : Prop :=
  topics s' = topics s /\ knowledge_base s' = knowledge_base s
  /\ sources s' = sources s /\ generations s' = generations s
  /\ questions s' = questions s /\ generation_items s' = generation_items s
  /\ flashcard_progress s' = flashcard_progress s.

(** Every way [uploadFile] ends: see the theorem on its outcomes. *)
Definition upload_post (env : Env) (topicId : nat) (file : File) (s : Store)
    (r : Outcome UploadResult) (s' : Store) : Prop :=
  same_but_files s s'
  /\ match r with
     | Ok r =>
         exists user,
           auth env = SignedIn user
           /\ storagePath r = uploadPath env topicId user file
           /\ blobs s !! storagePath r = None
           /\ blobs s'
              = <[storagePath r := {| blob_size := byteSize file |}]> (blobs s)
           /\ documents s !! documentId r = None
           /\ documents s'
              = <[documentId r := uploadedDocument topicId user file (storagePath r)]>
                  (documents s)
     | Throw _ =>
         documents s' = documents s
         /\ (blobs s' = blobs s
             \/ exists user,
                  auth env = SignedIn user
                  /\ blobs s !! uploadPath env topicId user file = None
                  /\ blobs s'
                     = <[uploadPath env topicId user file
                         := {| blob_size := byteSize file |}]> (blobs s))
     end.

(** The code units a file name keeps in a storage path:
    [[a-zA-Z0-9.-]]. *)
Definition is_name_char (c : ascii) : bool :=
  in_range 97 122 c || in_range 65 90 c || in_range 48 57 c
  || Ascii.eqb c "." || Ascii.eqb c "-".

(** The code units of a sanitised file name: the kept ones and the
    underscore that replaces the others. *)
Definition is_safe_char (c : ascii) : bool := is_name_char c || Ascii.eqb c "_".

(** What a generation call that throws [e] leaves of the generation it
    created: no items counted, and either the row as it was created or the
    row marked failed with the message of [e]; [marks] tells whether the
    path marks failures at all. *)
Definition failure_record (marks : bool) (e : Error) (g : Generation) : Prop :=
  items_generated g = 0 /\ gen_breakdown g = None
  /\ ((status g = Processing /\ error_message g = None)
      \/ (marks = true /\ status g = Failed
          /\ error_message g = Some (message e))).

(** A call that throws has created no generation, or one, with a failure
    record. *)
Definition failure_post (marks : bool) (s0 : Store)
    (r : Outcome GenerationResult) (s1 : Store) : Prop :=
  match r with
  | Ok _ => True
  | Throw e =>
      generations s1 = generations s0
      \/ exists gid g,
           generations s0 !! gid = None
           /\ generations s1 = <[gid := g]> (generations s0)
           /\ failure_record marks e g
  end.


(** The sample world after a selective generation from A and B in which
    the insertion of the generation items, the eighth external call, has
    failed. *)
Definition interruptedStore : Store :=
  (run (generateAIContentFromSources sampleEnv 1 [10; 11]) sampleStore
     [None; None; None; None; None; None; None; Some constraintError]).2.

(** The rows of the knowledge base of a topic, as [getKnowledgeBase]
    reads them. *)
Definition topic_knowledge (s : Store) (topicId user : nat)
  : list (nat * KnowledgeBaseRow) :=
  select_rows (fun _ r => (kb_topic_id r =? topicId) && (kb_user_id r =? user))
    (knowledge_base s).

(** The generation row the bulk path leaves when the generator finds no
    content. *)
Definition emptyHandedGeneration (topicId user : nat) (sourceIds : list nat)
  : Generation :=
  {| gen_topic_id := topicId; gen_user_id := user;
     generation_type := Bulk; source_ids := sourceIds;
     status := Failed; items_generated := 0; gen_breakdown := None;
     error_message := Some "No content available for AI processing";
     completed_at := None; processing_time_ms := None |}.

(** The sample world without the rows of the knowledge base: the topics
    keep their sources. *)
Definition unfedStore : Store := with_knowledge_base (fun _ => ∅) sampleStore.

(** The rows the ingestion of a pasted text writes: the document, and
    the row of the knowledge base for the document [docId]. *)
Definition textDocument (topicId user : nat) (contentText sourceName : string)
  : Document :=
  {| doc_topic_id := topicId; doc_user_id := Some user;
     filename := sourceName; storage_path := None;
     file_type := "text/plain"; file_size := String.length contentText;
     doc_source_type := None; doc_content := Some contentText |}.

Definition textKnowledge (topicId user docId : nat)
    (contentText sourceName : string) : KnowledgeBaseRow :=
  {| kb_topic_id := topicId; kb_user_id := user;
     kb_document_id := Some docId; kb_type := "text";
     kb_source := sourceName; kb_content := contentText;
     kb_metadata :=
       {| wordCount := splitCount contentText;
          fileType := Some "text/plain";
          fileSize := None; pages := None; videoId := None;
          originalUrl := None; title := None;
          contentLength := None; transcriptSegments := None;
          hasTranscript := None; extractionError := None;
          documentType := None |} |}.

(** No code unit of [s] is a full stop. *)
Definition dot_free (s : string) : bool :=
  all_chars (fun c => negb (Ascii.eqb c ".")) s.

(** Some code unit of [s] is not white space. *)
Fixpoint has_ink (s : string) : bool :=
  match s with
  | EmptyString => false
  | String c r => negb (is_space c) || has_ink r
  end.


(** A file that is nothing but text, without an extension that the text
    strategy frames. *)
Definition plainName (fileName : string) : bool :=
  negb (existsb (fun ext => endsWith (toLowerCase fileName) ext) codeExtensions)
  && negb (endsWith (toLowerCase fileName) ".htm").

(** What the metadata of a text file are, for a file with the document
    type [documentType]. *)
Definition textFileMetadata (file : File) (text documentType : string)
  : Metadata :=
  {| wordCount := splitCount text;
     fileType := Some (or_else (Some (mimeType file)) "text/plain");
     fileSize := Some (byteSize file);
     pages := None; videoId := None; originalUrl := None;
     title := None; contentLength := None;
     transcriptSegments := None; hasTranscript := None;
     extractionError := None;
     documentType := Some documentType |}.

(** The MIME types and extensions that [processFile] tries before it
    looks for a legacy Office format. *)
Definition routedBeforeLegacy (file : File) : bool :=
  startsWith (mimeType file) "audio/"
  || String.eqb (mimeType file) "application/pdf"
  || String.eqb (mimeType file)
       "application/vnd.openxmlformats-officedocument.wordprocessingml.document"
  || String.eqb (mimeType file)
       "application/vnd.openxmlformats-officedocument.presentationml.presentation"
  || String.eqb (mimeType file)
       "application/vnd.openxmlformats-officedocument.spreadsheetml.sheet".

(** No name that ends with [suffix] ends with a full stop and one of the
    [extensions]: each of these is at least as long as [suffix] and does
    not end with it. *)
Definition excludes (suffix : string) (extensions : list string) : bool :=
  forallb (fun ext =>
             (String.length suffix <=? String.length ("." +:+ ext))
             && negb (endsWith ("." +:+ ext) suffix))
          extensions.

(** The message for a file in the legacy format [legacy], to be saved in
    the format [modern]. *)
Definition legacyRefusal (fileName legacy modern : string) : string :=
  "Failed to process " +:+ fileName +:+ ": Legacy " +:+ legacy
  +:+ " format is not supported. Please save as " +:+ modern
  +:+ " format for full processing. Most Office applications can convert: File -> Save As -> "
  +:+ modern +:+ " format.".

(** A file for which no strategy has anything to say. *)
Definition silentContents : FileContents :=
  {| fileText := Ok EmptyString; fileJson := None;
     filePdf := PdfPages []; fileWord := Ok (EmptyString, 0);
     fileOcr := Ok EmptyString;
     audioExtraction := Throw (newError "no audio");
     powerPointExtraction := Throw (newError "no slides");
     excelExtraction := Throw (newError "no sheets") |}.

(** The sample world without a session. *)
Definition signedOutEnv : Env :=
  {| auth := NoUser;
     VITE_OPENAI_API_KEY := Some "sk-test";
     nowISO := sampleNow;
     dateNow := 1735689600000%N;
     elapsedMs := 1500;
     completion := sampleCompletion;
     transcript := TranscriptTimeout |}.

(** What [processWebURL] of the service has stored when it returns: a
    document, a knowledge-base row and a source for the page, linked to
    each other, and a completed selective generation from that source
    alone. *)
Definition web_page_stored (topicId : nat) (url : string) (s : Store)
    (r : WebIngestionResult) (s' : Store) : Prop :=
  (documents s !! web_documentId r = None
   /\ sources s !! web_sourceId r = None
   /\ generations s !! generationId (aiGeneration r) = None)
  /\ (exists d,
        documents s' !! web_documentId r = Some d
        /\ doc_topic_id d = topicId
        /\ doc_source_type d = Some "web"
        /\ storage_path d = None)
  /\ (exists src k row,
        sources s' !! web_sourceId r = Some src
        /\ src_topic_id src = topicId
        /\ source_type src = "web"
        /\ original_name src = Some url
        /\ src_document_id src = Some (web_documentId r)
        /\ knowledge_base_id src = Some k
        /\ knowledge_base s' !! k = Some row
        /\ kb_document_id row = Some (web_documentId r)
        /\ kb_content row = extractedText (web_content r))
  /\ (exists g,
        generations s' !! generationId (aiGeneration r) = Some g
        /\ generation_type g = Selective
        /\ source_ids g = [web_sourceId r]
        /\ status g = Completed
        /\ items_generated g = res_generated (aiGeneration r))
  /\ size (questions s') = size (questions s) + res_generated (aiGeneration r)
  /\ blobs s' = blobs s.

(** A page of the sample browser, and its address. *)
Definition samplePage : Web :=
  {| browser := sampleBrowser;
     fetched :=
       FetchResponse true 200 "OK"
         (Ok (Some "Cells divide by mitosis, and meiosis halves the chromosome number.")) |}.

Definition samplePageUrl : string := "https://example.org/cells".

Definition samplePageResult : WebIngestionResult :=
  {| web_documentId := 0;
     web_sourceId := 21;
     web_content :=
       {| type := "web"; source := "Web Page";
          extractedText :=
            webProcessedText "Web Page" samplePageUrl sampleNow
              "Cells divide by mitosis, and meiosis halves the chromosome number.";
          metadata :=
            {| wordCount := 10;
               fileType := None; fileSize := None; pages := None;
               videoId := None; originalUrl := Some samplePageUrl;
               title := Some "Web Page"; contentLength := Some 66;
               transcriptSegments := None; hasTranscript := None;
               extractionError := None;
               documentType := Some "Web Page" |} |};
     web_wordCount := 10;
     aiGeneration :=
       {| success := true; res_generated := 2;
          res_breakdown :=
            {| flashcardsCount := 1; multipleChoiceCount := 0;
               openEndedCount := 0; summariesCount := 1 |};
          generationId := 0; sourceCount := Some 1 |} |}.

(** What [processFileUpload] has stored when it returns: the blob, the
    document, a knowledge-base row with the extracted text and a source,
    linked to each other; no generation is made. *)
Definition file_stored (env : Env) (topicId : nat) (file : File)
    (contents : FileContents) (s : Store) (r : IngestionResult) (s' : Store)
  : Prop :=
  exists user,
    getUser env = Some user
    /\ processFile file contents = Ok (ing_content r)
    /\ ing_wordCount r = wordCount (metadata (ing_content r))
    /\ blobs s !! uploadPath env topicId user file = None
    /\ blobs s'
       = <[uploadPath env topicId user file := {| blob_size := byteSize file |}]>
           (blobs s)
    /\ documents s !! ing_documentId r = None
    /\ documents s'
       = <[ing_documentId r
           := uploadedDocument topicId user file (uploadPath env topicId user file)]>
           (documents s)
    /\ sources s !! sourceId r = None
    /\ (exists src k row,
          sources s' = <[sourceId r := src]> (sources s)
          /\ src_topic_id src = topicId
          /\ src_user_id src = user
          /\ source_type src
             = (if String.eqb (type (ing_content r)) "audio" then "audio" else "file")
          /\ source_name src = name file
          /\ word_count src = Some (ing_wordCount r)
          /\ src_document_id src = Some (ing_documentId r)
          /\ knowledge_base_id src = Some k
          /\ knowledge_base s !! k = None
          /\ knowledge_base s' = <[k := row]> (knowledge_base s)
          /\ kb_document_id row = Some (ing_documentId r)
          /\ kb_content row = extractedText (ing_content r))
    /\ generations s' = generations s
    /\ questions s' = questions s
    /\ generation_items s' = generation_items s.

(** What the browser reads from the sample file. *)
Definition sampleNotes : FileContents :=
  {| fileText := Ok "Cells divide by mitosis.";
     fileJson := None;
     filePdf := PdfPages []; fileWord := Ok (EmptyString, 0);
     fileOcr := Ok EmptyString;
     audioExtraction := Throw (newError "no audio");
     powerPointExtraction := Throw (newError "no slides");
     excelExtraction := Throw (newError "no sheets") |}.

Definition sampleNotesResult : IngestionResult :=
  {| ing_documentId := 0;
     sourceId := 21;
     ing_content :=
       {| type := "document"; source := "lecture notes.txt";
          extractedText := "Cells divide by mitosis.";
          metadata :=
            textFileMetadata sampleFile "Cells divide by mitosis." "Text Document" |};
     ing_wordCount := 4;
     ing_storagePath := None |}.

(** A file in a legacy Office format. *)
Definition sampleLegacyFile : File :=
  {| name := "thesis.doc"; byteSize := 10; mimeType := "application/msword" |}.

(** An ingestion that returns has stored a new source of the given kind
    for the topic, which names the document of the result and carries its
    word count. *)
Definition source_stored (topicId : nat) (kind : string) (s : Store)
    (r : IngestionResult) (s' : Store) : Prop :=
  sources s !! sourceId r = None
  /\ exists src,
       sources s' = <[sourceId r := src]> (sources s)
       /\ src_topic_id src = topicId
       /\ source_type src = kind
       /\ src_document_id src = Some (ing_documentId r)
       /\ word_count src = Some (ing_wordCount r).

(** The kind of source [ingest] makes of what it is given: a file before
    an address, an address before a text; every address is a video. *)
Definition ingestedKind (file : option (File * FileContents))
    (url : option string) (r : IngestionResult) : string :=
  match file with
  | Some _ => if String.eqb (type (ing_content r)) "audio" then "audio" else "file"
  | None =>
      match truthy url with
      | Some _ => "youtube"
      | None => "text"
      end
  end.

(** The number [getSourcesWithStats] shows for a source: the generation
    items whose [derived_from_sources] contains its key. *)
Definition generatedItemsCount (s : Store) (sourceId : nat) : nat :=
  length (select_rows
            (fun _ it => bool_decide (sourceId ∈ derived_from_sources it))
            (generation_items s)).

(** The sources of a topic, each with its number of generated items. *)
Definition sourcesWithCounts (s : Store) (topicId user : nat)
  : list (nat * Source * nat) :=
  map (fun source => (source, generatedItemsCount s source.1))
      (select_rows
         (fun _ r => (src_topic_id r =? topicId) && (src_user_id r =? user))
         (sources s)).

(** The element of the list of [getQuestions] for the question [q] under
    the key [k]. *)
Definition poolItem (k : nat) (q : Question) : PoolItem :=
  {| pool_data := question_data q; pool_id := k; pool_is_saved := is_saved q |}.

(** The question table after a [saveQuestion] that did not throw: the
    update reaches the question only when the user owns it. *)
Definition savedTable (user questionId : nat) (t : gmap nat Question)
  : gmap nat Question :=
  match t !! questionId with
  | Some q =>
      if q_user_id q =? user then <[questionId := set_is_saved true q]> t else t
  | None => t
  end.

(** A question made by [addQuestions] from the item [item]: unsaved, and
    outside every generation. *)
Definition plain_question (topicId user : nat) (item : StudyItem) (q : Question)
  : Prop :=
  q = {| q_topic_id := topicId; q_user_id := user; q_type := itemType item;
         question_data := item; is_saved := false;
         q_generation_id := None; source_attribution := [] |}.

End Notions.
(* ===================================================================== *)
(** * Part II: properties                                                *)
(* ===================================================================== *)

(** ** White space, pieces and tokens *)

Module JsFacts.

Import Js Vocabulary.

Lemma split_from_length (s : string) :
  forall cur,
    length (split_from cur false s)
    = tokens_from false s + 1 + (if ends_in_space false s then 1 else 0)
    /\ length (split_from cur true s)
       = tokens_from true s + (if ends_in_space true s then 1 else 0).
Proof.
  induction s as [|c r IH]; intros cur; simpl.
  - split; reflexivity.
  - destruct (is_space c) eqn:Hc; simpl.
    + destruct (IH []) as [_ IHt]. rewrite IHt. split; lia.
    + destruct (IH (c :: cur)) as [IHf _]. rewrite IHf. split; lia.
Qed.

Lemma ends_in_space_nonempty (s : string) (d d' : bool) :
  is_empty s = false -> ends_in_space d s = ends_in_space d' s.
Proof. destruct s; [discriminate | reflexivity]. Qed.

(** The pieces of [split(/\s+/)] are the tokens, plus one empty piece for
    white space (or nothing at all) at the start and one for white space
    at the end. *)
Lemma length_split_ws (s : string) :
  length (split_ws s)
  = token_count s
    + (if is_empty s || starts_with_space s then 1 else 0)
    + (if ends_in_space false s then 1 else 0).
Proof.
  unfold split_ws, token_count.
  destruct (split_from_length s []) as [H _]. rewrite H.
  destruct s as [|c r]; simpl; [reflexivity|].
  destruct (is_space c); simpl; lia.
Qed.


Lemma trimEnd_ends (s : string) : ends_in_space false (trimEnd s) = false.
Proof.
  induction s as [|c r IH]; simpl; [reflexivity|].
  destruct (is_space c) eqn:Hc; simpl.
  - destruct (is_empty (trimEnd r)) eqn:He; simpl; [reflexivity|].
    rewrite (ends_in_space_nonempty _ _ false He). exact IH.
  - destruct (trimEnd r) as [|c' r'] eqn:Hr; simpl; [exact Hc|].
    simpl in IH. exact IH.
Qed.







Lemma is_space_newline (c : ascii) : Ascii.eqb c "010" = true -> is_space c = true.
Proof. intros H. apply Ascii.eqb_eq in H. subst. reflexivity. Qed.

Lemma collapse_from_no_newline (s : string) (b : bool) :
  has_newline (collapse_from b s) = false.
Proof.
  revert b. induction s as [|c r IH]; intros b; simpl; [reflexivity|].
  destruct (is_space c) eqn:Hc.
  - destruct b; simpl; apply IH.
  - simpl. rewrite IH.
    destruct (Ascii.eqb c "010") eqn:E; [|reflexivity].
    apply is_space_newline in E. congruence.
Qed.

End JsFacts.

(** ** Properties of the extraction layer *)

Module ExtractionProps.

Import FileProcessingService Vocabulary.

Lemma prefix_append (p s : string) : String.prefix p (p +:+ s) = true.
Proof.
  induction p as [|c p IH]; simpl.
  - destruct s; reflexivity.
  - destruct (ascii_dec c c) as [_|Hne]; [exact IH | congruence].
Qed.

Lemma blank_lines_none (s : string) :
  has_newline s = false -> blank_lines_from 0 s = s.
Proof.
  induction s as [|c r IH]; simpl; [reflexivity|].
  intros H. apply orb_false_iff in H as [Hc Hr].
  rewrite Hc, (IH Hr). reflexivity.
Qed.

(** The second replacement of the clean-up never finds a match: the first
    one has removed every line feed. *)
Lemma cleanText_eq (s : string) : cleanText s = Js.trim (Js.replace_ws_runs s).
Proof.
  unfold cleanText, replace_blank_lines, Js.replace_ws_runs.
  rewrite blank_lines_none; [reflexivity | apply JsFacts.collapse_from_no_newline].
Qed.

(** *** The completion-service response *)



(** *** Fallbacks of the network-sourced strategies *)

Lemma extractYouTubeTranscript_total (url : string) (response : TranscriptResponse) :
  exists c, extractYouTubeTranscript url response = Ok c.
Proof.
  unfold extractYouTubeTranscript, try_catch_pure, bind_pure.
  destruct (extractYouTubeVideoId url); [|eauto].
  destruct (awaitTranscript response) as [segs|e]; [|eauto].
  destruct (length segs =? 0); eauto.
Qed.

Lemma extractYouTubeTranscript_fallback (url : string) (response : TranscriptResponse) :
  transcriptUnavailable response = true ->
  exists c reason,
    extractYouTubeTranscript url response = Ok c
    /\ hasTranscript (metadata c) = Some false
    /\ extractionError (metadata c) = Some reason
    /\ extractedText c = youtubeFallbackText url (extractYouTubeVideoId url) reason.
Proof.
  intros Hu.
  unfold extractYouTubeTranscript, try_catch_pure, bind_pure.
  destruct (extractYouTubeVideoId url) as [vid|] eqn:Hv.
  - destruct response as [e| |segs]; simpl in *.
    + eexists _, _. repeat split; reflexivity.
    + eexists _, _. repeat split; reflexivity.
    + rewrite Hu. eexists _, _. repeat split; reflexivity.
  - eexists _, _. repeat split; reflexivity.
Qed.

Lemma fetchPage_unreachable (response : FetchResult) :
  pageUnreachable response = true ->
  exists detail,
    fetchPage response
    = Throw (newError ("Unable to access the website. This may be due to CORS restrictions or the site being unavailable. Error: "
                       +:+ detail)).
Proof.
  destruct response as [e|ok status statusText contents]; simpl.
  - intros _. eexists. reflexivity.
  - intros Hk. apply negb_true_iff in Hk. subst ok. eexists. reflexivity.
Qed.

(** C7, counterexample: an unreachable page is no successful extraction;
    the error leaves the extraction layer. *)
Lemma unreachable_page_throws :
  processWebURL sampleBrowser sampleNow "https://example.org/notes"
    (FetchRejected (newError "Failed to fetch")) TranscriptTimeout
  = Throw (newError (unreachableMessage +:+ "Failed to fetch"))
  /\ ~ (exists c, processWebURL sampleBrowser sampleNow "https://example.org/notes"
                    (FetchRejected (newError "Failed to fetch")) TranscriptTimeout
                  = Ok c).
Proof.
  assert (H : processWebURL sampleBrowser sampleNow "https://example.org/notes"
                (FetchRejected (newError "Failed to fetch")) TranscriptTimeout
              = Throw (newError (unreachableMessage +:+ "Failed to fetch")))
    by (vm_compute; reflexivity).
  split; [exact H|].
  intros [c Hc]. rewrite H in Hc. discriminate.
Qed.

(** C7, as the code has it: the video strategy never throws, and without a
    transcript it returns the labelled placeholder with
    [hasTranscript = false] and the reason in [extractionError]; an address
    of the video provider given to the web strategy is handled the same
    way.  An unreachable web page has no fallback: the web strategy
    throws. *)
Theorem extraction_fallback_is_for_videos :
  (forall url response, exists c, extractYouTubeTranscript url response = Ok c)
  /\ (forall url response,
        transcriptUnavailable response = true ->
        exists c reason,
          extractYouTubeTranscript url response = Ok c
          /\ hasTranscript (metadata c) = Some false
          /\ extractionError (metadata c) = Some reason
          /\ extractedText c
             = youtubeFallbackText url (extractYouTubeVideoId url) reason
          /\ String.prefix "[YouTube Video: " (extractedText c) = true
          /\ Js.is_empty (extractedText c) = false)
  /\ (forall browser now url hostname response tr,
        URL_hostname browser url = Some hostname ->
        isYouTubeHost hostname = true ->
        processWebURL browser now url response tr
        = extractYouTubeTranscript url tr)
  /\ (forall browser now url hostname response tr,
        URL_hostname browser url = Some hostname ->
        isYouTubeHost hostname = false ->
        pageUnreachable response = true ->
        exists detail,
          processWebURL browser now url response tr
          = Throw (newError (unreachableMessage +:+ detail))).
Proof.
  split; [exact extractYouTubeTranscript_total|].
  split.
  { intros url response Hu.
    destruct (extractYouTubeTranscript_fallback url response Hu)
      as (c & reason & Hc & Ht & He & Hx).
    exists c, reason. repeat split; try assumption.
    - rewrite Hx. unfold youtubeFallbackText. apply prefix_append.
    - rewrite Hx. reflexivity. }
  split.
  { intros browser now url hostname response tr Hh Hy.
    unfold processWebURL. rewrite Hh. unfold isYouTubeHost in Hy. rewrite Hy.
    destruct (extractYouTubeTranscript_total url tr) as [c Hc].
    rewrite Hc. reflexivity. }
  intros browser now url hostname response tr Hh Hy Hu.
  destruct (fetchPage_unreachable response Hu) as [detail Hd].
  exists detail.
  unfold processWebURL. rewrite Hh. unfold isYouTubeHost in Hy. rewrite Hy, Hd.
  reflexivity.
Qed.

(** *** Word counts of the strategies *)






End ExtractionProps.

(** ** Tables *)

Module TableFacts.

Lemma insert_row_fresh {A} (row : A) (t : gmap nat A) :
  t !! (insert_row row t).1 = None.
Proof. unfold insert_row. simpl. apply not_elem_of_dom, is_fresh. Qed.

Lemma insert_row_subseteq {A} (row : A) (t : gmap nat A) :
  t ⊆ (insert_row row t).2.
Proof. apply insert_subseteq, (insert_row_fresh row t). Qed.

Lemma insert_rows_values {A} (rows : list A) (t : gmap nat A) :
  (insert_rows rows t).1.*2 = rows.
Proof.
  revert t. induction rows as [|row rest IH]; intros t; simpl; [reflexivity|].
  specialize (IH (<[fresh (dom t) := row]> t)).
  destruct (insert_rows rest _) as [ins t2]. simpl in *.
  f_equal. exact IH.
Qed.

Lemma insert_rows_length {A} (rows : list A) (t : gmap nat A) :
  length (insert_rows rows t).1 = length rows.
Proof. rewrite <- (insert_rows_values rows t) at 2. by rewrite length_fmap. Qed.

Lemma insert_rows_subseteq {A} (rows : list A) (t : gmap nat A) :
  t ⊆ (insert_rows rows t).2.
Proof.
  revert t. induction rows as [|row rest IH]; intros t; simpl; [reflexivity|].
  specialize (IH (<[fresh (dom t) := row]> t)).
  destruct (insert_rows rest _) as [ins t2]. simpl in *.
  etrans; [|exact IH]. apply (insert_row_subseteq row t).
Qed.

Lemma insert_rows_size {A} (rows : list A) (t : gmap nat A) :
  size (insert_rows rows t).2 = size t + length rows.
Proof.
  revert t. induction rows as [|row rest IH]; intros t; simpl; [lia|].
  specialize (IH (<[fresh (dom t) := row]> t)).
  destruct (insert_rows rest _) as [ins t2]. simpl in *.
  rewrite IH, map_size_insert_None; [lia|].
  apply (insert_row_fresh row t).
Qed.

(** A row of the table after the insertion was there before or is one of
    the inserted rows. *)
Lemma insert_rows_lookup {A} (rows : list A) (t : gmap nat A) (k : nat) (v : A) :
  (insert_rows rows t).2 !! k = Some v ->
  t !! k = Some v \/ (k, v) ∈ (insert_rows rows t).1.
Proof.
  revert t. induction rows as [|row rest IH]; intros t; simpl; [by left|].
  specialize (IH (<[fresh (dom t) := row]> t)).
  destruct (insert_rows rest _) as [ins t2]. simpl in *.
  intros H. destruct (IH H) as [H1|H1].
  - destruct (decide (fresh (dom t) = k)) as [<-|Hne].
    + rewrite lookup_insert_eq in H1. injection H1 as <-.
      right. apply list_elem_of_here.
    + rewrite lookup_insert_ne in H1 by done. by left.
  - right. by apply list_elem_of_further.
Qed.

(** An inserted row has a key that was free, and is in the table after. *)
Lemma insert_rows_new {A} (rows : list A) (t : gmap nat A) (k : nat) (v : A) :
  (k, v) ∈ (insert_rows rows t).1 ->
  t !! k = None /\ (insert_rows rows t).2 !! k = Some v.
Proof.
  revert t. induction rows as [|row rest IH]; intros t; simpl.
  { intros H. by apply elem_of_nil in H. }
  pose proof (insert_rows_subseteq rest (<[fresh (dom t) := row]> t)) as Hsub.
  specialize (IH (<[fresh (dom t) := row]> t)).
  destruct (insert_rows rest _) as [ins t2]. simpl in *.
  intros H. apply elem_of_cons in H as [[= -> ->]|H].
  - split; [apply (insert_row_fresh row t)|].
    eapply lookup_weaken; [|exact Hsub]. apply lookup_insert_eq.
  - destruct (IH H) as [H1 H2]. split; [|exact H2].
    destruct (decide (fresh (dom t) = k)) as [<-|Hne].
    + by rewrite lookup_insert_eq in H1.
    + by rewrite lookup_insert_ne in H1.
Qed.

Lemma inserted_nil {A} (t : gmap nat A) : Vocabulary.inserted t [] t.
Proof. reflexivity. Qed.

Lemma inserted_insert_rows {A} (rows : list A) (t : gmap nat A) :
  Vocabulary.inserted t (insert_rows rows t).1 (insert_rows rows t).2.
Proof.
  unfold Vocabulary.inserted. rewrite insert_rows_values.
  by destruct (insert_rows rows t).
Qed.

Lemma inserted_subseteq {A} (t t' : gmap nat A) (rows : list (nat * A)) :
  Vocabulary.inserted t rows t' -> t ⊆ t'.
Proof.
  intros H. pose proof (insert_rows_subseteq rows.*2 t) as Hs.
  unfold Vocabulary.inserted in H. by rewrite H in Hs.
Qed.

Lemma inserted_size {A} (t t' : gmap nat A) (rows : list (nat * A)) :
  Vocabulary.inserted t rows t' -> size t' = size t + length rows.
Proof.
  intros H. pose proof (insert_rows_size rows.*2 t) as Hs.
  unfold Vocabulary.inserted in H. rewrite H in Hs. simpl in Hs.
  by rewrite length_fmap in Hs.
Qed.

Lemma inserted_lookup {A} (t t' : gmap nat A) (rows : list (nat * A))
    (k : nat) (v : A) :
  Vocabulary.inserted t rows t' ->
  t' !! k = Some v -> t !! k = Some v \/ (k, v) ∈ rows.
Proof.
  intros H. pose proof (insert_rows_lookup rows.*2 t k v) as Hs.
  unfold Vocabulary.inserted in H. by rewrite H in Hs.
Qed.

Lemma inserted_new {A} (t t' : gmap nat A) (rows : list (nat * A))
    (k : nat) (v : A) :
  Vocabulary.inserted t rows t' ->
  (k, v) ∈ rows -> t !! k = None /\ t' !! k = Some v.
Proof.
  intros H. pose proof (insert_rows_new rows.*2 t k v) as Hs.
  unfold Vocabulary.inserted in H. by rewrite H in Hs.
Qed.

(** Inserted rows that pass a filter enlarge the filtered table by their
    number. *)
Lemma inserted_filter_size {A} (P : nat * A -> Prop) `{!forall x, Decision (P x)}
    (rows : list (nat * A)) :
  forall t t',
    Vocabulary.inserted t rows t' ->
    Forall P rows ->
    size (filter P t') = size (filter P t) + length rows.
Proof.
  unfold Vocabulary.inserted.
  induction rows as [|[k row] rows IH]; intros t t' Hins HF.
  - injection Hins as <-. simpl. lia.
  - rewrite fmap_cons in Hins. simpl in Hins.
    destruct (insert_rows rows.*2 (<[fresh (dom t) := row]> t)) as [ins t2] eqn:E.
    injection Hins as Hk -> ->.
    apply Forall_cons in HF as [HP HF].
    rewrite (IH _ _ E HF). rewrite <- Hk.
    rewrite map_filter_insert_True by (by rewrite Hk).
    rewrite map_size_insert_None; [simpl; lia|].
    apply map_lookup_filter_None_2. left.
    apply not_elem_of_dom, is_fresh.
Qed.

End TableFacts.

(** ** A program logic for service calls

    [wps m s Q]: whatever the schedule of faults, running [m] from the
    store [s] ends with an outcome and a store that satisfy [Q]. *)

Module Logic.

Import FileProcessingService SupabaseService.

Definition wps {A} (m : M A) (s : Store) (Q : Outcome A -> Store -> Prop) : Prop :=
  forall faults, Q (m (mkSt s faults)).1 (db (m (mkSt s faults)).2).

Lemma wps_run {A} (m : M A) (s : Store) (Q : Outcome A -> Store -> Prop)
    (faults : list (option Error)) :
  wps m s Q -> Q (run m s faults).1 (run m s faults).2.
Proof.
  intros H. specialize (H faults). unfold run.
  destruct (m _) as [r st]. exact H.
Qed.

Lemma wps_mono {A} (m : M A) (s : Store) (Q Q' : Outcome A -> Store -> Prop) :
  (forall r s', Q r s' -> Q' r s') -> wps m s Q -> wps m s Q'.
Proof. intros HQ H faults. apply HQ, H. Qed.

Lemma wps_ret {A} (a : A) (s : Store) (Q : Outcome A -> Store -> Prop) :
  Q (Ok a) s -> wps (ret a) s Q.
Proof. intros H faults. exact H. Qed.

Lemma wps_throw {A} (e : Error) (s : Store) (Q : Outcome A -> Store -> Prop) :
  Q (Throw e) s -> wps (throw e) s Q.
Proof. intros H faults. exact H. Qed.

Lemma wps_lift {A} (r : Outcome A) (s : Store) (Q : Outcome A -> Store -> Prop) :
  Q r s -> wps (lift r) s Q.
Proof. intros H faults. exact H. Qed.

Lemma wps_bind {A B} (m : M A) (k : A -> M B) (s : Store)
    (Q : Outcome B -> Store -> Prop) :
  wps m s (fun r s' =>
             match r with
             | Ok a => wps (k a) s' Q
             | Throw e => Q (Throw e) s'
             end) ->
  wps (bind m k) s Q.
Proof.
  intros H faults. specialize (H faults). unfold bind.
  destruct (m _) as [[a|e] [s' fs]]; simpl in *; [apply H | exact H].
Qed.

Lemma wps_try_catch {A} (body : M A) (handler : Error -> M A) (s : Store)
    (Q : Outcome A -> Store -> Prop) :
  wps body s (fun r s' =>
                match r with
                | Ok a => Q (Ok a) s'
                | Throw e => wps (handler e) s' Q
                end) ->
  wps (try_catch body handler) s Q.
Proof.
  intros H faults. specialize (H faults). unfold try_catch.
  destruct (body _) as [[a|e] [s' fs]]; simpl in *; [exact H | apply H].
Qed.

Lemma wps_get_db (s : Store) (Q : Outcome Store -> Store -> Prop) :
  Q (Ok s) s -> wps get_db s Q.
Proof. intros H faults. exact H. Qed.

Lemma wps_modify_db (f : Store -> Store) (s : Store)
    (Q : Outcome unit -> Store -> Prop) :
  Q (Ok tt) (f s) -> wps (modify_db f) s Q.
Proof. intros H faults. exact H. Qed.

Lemma wps_external_call (s : Store) (Q : Outcome (option Error) -> Store -> Prop) :
  (forall error, Q (Ok error) s) -> wps external_call s Q.
Proof.
  intros H faults. unfold external_call. simpl.
  destruct faults as [|f fs]; apply H.
Qed.

Lemma wps_throw_if_error (error : option Error) (s : Store)
    (Q : Outcome unit -> Store -> Prop) :
  (forall e, error = Some e -> Q (Throw e) s) ->
  (error = None -> Q (Ok tt) s) ->
  wps (throw_if_error error) s Q.
Proof.
  intros Ht Ho. destruct error as [e|]; simpl.
  - apply wps_throw. by apply Ht.
  - apply wps_ret. by apply Ho.
Qed.

(** One step of symbolic execution. *)
Ltac wps_step :=
  lazymatch goal with
  | |- wps (bind _ _) _ _ => apply wps_bind
  | |- wps (try_catch _ _) _ _ => apply wps_try_catch
  | |- wps (ret _) _ _ => apply wps_ret
  | |- wps (throw _) _ _ => apply wps_throw
  | |- wps (lift _) _ _ => apply wps_lift
  | |- wps get_db _ _ => apply wps_get_db
  | |- wps (modify_db _) _ _ => apply wps_modify_db
  | |- wps external_call _ _ => apply wps_external_call; intros ?
  | |- wps (throw_if_error ?e) _ _ => destruct e; simpl throw_if_error
  | |- wps (match ?x with _ => _ end) _ _ => destruct x eqn:?
  | |- wps (if ?b then _ else _) _ _ => destruct b eqn:?
  end; lazy beta iota.

Ltac wps_steps := repeat wps_step.

Section Operations.

Variable env : Env.

Lemma wps_requireUser (s : Store) (Q : Outcome nat -> Store -> Prop) :
  (forall e, Q (Throw e) s) ->
  (forall user, getUser env = Some user -> Q (Ok user) s) ->
  wps (requireUser env) s Q.
Proof.
  intros Ht Ho. unfold requireUser.
  destruct (getUser env) as [u|] eqn:E; [apply wps_ret; by apply Ho|].
  apply wps_throw, Ht.
Qed.

Lemma wps_requireApiKey (s : Store) (Q : Outcome string -> Store -> Prop) :
  (forall r, Q r s) -> wps (requireApiKey env) s Q.
Proof. intros H. unfold requireApiKey. wps_steps; apply H. Qed.

(** A call that only reads leaves the store as it is. *)
Lemma wps_getTopic (id : nat) (s : Store) (Q : Outcome Topic -> Store -> Prop) :
  (forall r, Q r s) -> wps (getTopic env id) s Q.
Proof.
  intros H. unfold getTopic.
  apply wps_bind, wps_requireUser; [intros; apply H|intros user _].
  wps_steps; apply H.
Qed.

Lemma wps_getSources (topicId : nat) (s : Store)
    (Q : Outcome (list (nat * Source)) -> Store -> Prop) :
  (forall e, Q (Throw e) s) ->
  (forall user, getUser env = Some user ->
     Q (Ok (select_rows
              (fun _ r => (src_topic_id r =? topicId) && (src_user_id r =? user))
              (sources s))) s) ->
  wps (getSources env topicId) s Q.
Proof.
  intros Ht Ho. unfold getSources.
  apply wps_bind, wps_requireUser; [intros; apply Ht|intros user Hu].
  wps_steps; [apply Ht | by apply Ho].
Qed.

Lemma wps_getKnowledgeBase (topicId : nat) (s : Store)
    (Q : Outcome (list (nat * KnowledgeBaseRow)) -> Store -> Prop) :
  (forall r, Q r s) -> wps (getKnowledgeBase env topicId) s Q.
Proof.
  intros H. unfold getKnowledgeBase.
  apply wps_bind, wps_requireUser; [intros; apply H|intros user _].
  wps_steps; apply H.
Qed.

Lemma wps_getKnowledgeBaseBySourceIds (topicId : nat) (sourceIds : list nat)
    (s : Store) (Q : Outcome (list (nat * KnowledgeBaseRow)) -> Store -> Prop) :
  (forall r, Q r s) -> wps (getKnowledgeBaseBySourceIds env topicId sourceIds) s Q.
Proof.
  intros H. unfold getKnowledgeBaseBySourceIds.
  apply wps_bind, wps_requireUser; [intros; apply H|intros user _].
  wps_steps; apply H.
Qed.

(** *** The calls that write *)

Lemma wps_createGeneration (topicId : nat) (ty : GenerationType)
    (ids : list nat) (st : Status) (s : Store)
    (Q : Outcome (nat * Generation) -> Store -> Prop) :
  (forall e, Q (Throw e) s) ->
  (forall id row,
     generations s !! id = None ->
     generation_type row = ty -> source_ids row = ids -> status row = st ->
     Q (Ok (id, row)) (with_generations (fun _ => <[id := row]> (generations s)) s)) ->
  wps (createGeneration env topicId ty ids st) s Q.
Proof.
  intros Ht Ho. unfold createGeneration.
  apply wps_bind, wps_requireUser; [intros; apply Ht|intros user Hu].
  wps_steps; [apply Ht|].
  match goal with H : insert_row _ _ = _ |- _ => injection H as <- <- end.
  apply Ho; try reflexivity.
  apply not_elem_of_dom, is_fresh.
Qed.

Lemma wps_updateGeneration (gid : nat) (updates : GenerationUpdates) (s : Store)
    (Q : Outcome Generation -> Store -> Prop) :
  (forall e, Q (Throw e) s) ->
  (forall g,
     generations s !! gid = Some g ->
     Q (Ok (applyGenerationUpdates (nowISO env) updates g))
       (with_generations
          (insert gid (applyGenerationUpdates (nowISO env) updates g)) s)) ->
  wps (updateGeneration env gid updates) s Q.
Proof.
  intros Ht Ho. unfold updateGeneration.
  apply wps_bind, wps_requireUser; [intros; apply Ht|intros user Hu].
  wps_steps; try apply Ht. by apply Ho.
Qed.

Lemma wps_addQuestionsWithGeneration (topicId : nat) (items : list StudyItem)
    (gid : nat) (ids : list nat) (s : Store)
    (Q : Outcome (list (nat * Question)) -> Store -> Prop) :
  (forall e, Q (Throw e) s) ->
  (forall rows t',
     Vocabulary.inserted (questions s) rows t' ->
     length rows = length items ->
     Forall (Vocabulary.attributed_question env topicId gid ids) rows ->
     Q (Ok rows) (with_questions (fun _ => t') s)) ->
  wps (addQuestionsWithGeneration env topicId items gid ids) s Q.
Proof.
  intros Ht Ho. unfold addQuestionsWithGeneration.
  apply wps_bind, wps_requireUser; [intros; apply Ht|intros user Hu].
  wps_steps; [apply Ht|].
  match goal with
  | H : insert_rows ?r ?t = (?data, _) |- _ =>
      pose proof (TableFacts.inserted_insert_rows r t) as Hi;
      pose proof (TableFacts.insert_rows_length r t) as Hl;
      pose proof (TableFacts.insert_rows_values r t) as Hv;
      rewrite H in Hi, Hl, Hv;
      let d := fresh "inserted_rows" in rename data into d
  end.
  simpl in Hi, Hl, Hv. apply Ho.
  - exact Hi.
  - by rewrite Hl, length_map.
  - apply Forall_forall. intros [k q] Hin.
    assert (Hq : q ∈ inserted_rows.*2) by (apply list_elem_of_fmap; by exists (k, q)).
    rewrite Hv in Hq. apply list_elem_of_fmap in Hq as [item [-> _]].
    repeat split. exact Hu.
Qed.

Lemma wps_createGenerationItems (gid : nat) (qs : list (nat * Question))
    (ids : list nat) (s : Store)
    (Q : Outcome (list (nat * GenerationItem)) -> Store -> Prop) :
  (forall e, Q (Throw e) s) ->
  (forall rows t',
     Vocabulary.inserted (generation_items s) rows t' ->
     length rows = length qs ->
     Forall (Vocabulary.attributed_item gid ids) rows ->
     Q (Ok rows) (with_generation_items (fun _ => t') s)) ->
  wps (createGenerationItems env gid qs ids) s Q.
Proof.
  intros Ht Ho. unfold createGenerationItems.
  apply wps_bind, wps_requireUser; [intros; apply Ht|intros user Hu].
  wps_steps; [apply Ht|].
  match goal with
  | H : insert_rows ?r ?t = (?data, _) |- _ =>
      pose proof (TableFacts.inserted_insert_rows r t) as Hi;
      pose proof (TableFacts.insert_rows_length r t) as Hl;
      pose proof (TableFacts.insert_rows_values r t) as Hv;
      rewrite H in Hi, Hl, Hv;
      let d := fresh "inserted_rows" in rename data into d
  end.
  simpl in Hi, Hl, Hv. apply Ho.
  - exact Hi.
  - by rewrite Hl, length_map.
  - apply Forall_forall. intros [k it] Hin.
    assert (Hq : it ∈ inserted_rows.*2) by (apply list_elem_of_fmap; by exists (k, it)).
    rewrite Hv in Hq. apply list_elem_of_fmap in Hq as [q [-> _]].
    repeat split.
Qed.

End Operations.

End Logic.

(** ** The generation coordinator *)

Module GenerationProps.

Import FileProcessingService SupabaseService Vocabulary Logic.

Lemma generateAIContent_generated (topicName : string) (pieces : list ContentPiece)
    (apiKey : string) (response : CompletionResponse) (r : AIResult) :
  FileProcessingService.generateAIContent topicName pieces apiKey response = Ok r ->
  generated r = length (content r) /\ 0 < generated r.
Proof.
  unfold FileProcessingService.generateAIContent, try_catch_pure.
  destruct (Js.is_empty _); [discriminate|].
  destruct response as [e|st stt am|[g|]]; try discriminate.
  destruct (length _ =? 0) eqn:Hn; [discriminate|].
  intros [= <-]. simpl. apply Nat.eqb_neq in Hn. lia.
Qed.

Lemma same_other_tables_refl (s : Store) : same_other_tables s s.
Proof. by repeat split. Qed.

(** Projections of an updated store. *)
Ltac store_simpl :=
  cbn [fst snd blobs topics documents knowledge_base sources generations
       questions generation_items flashcard_progress with_blobs with_documents
       with_knowledge_base with_sources with_generations with_questions
       with_generation_items with_flashcard_progress] in *.

(** The row [updateGeneration] finds under the key of the generation that
    was just inserted is that generation. *)
Ltac found_row :=
  store_simpl;
  repeat match goal with
         | H : <[?k := _]> _ !! ?k = Some _ |- _ =>
             rewrite lookup_insert_eq in H; injection H as <-
         end.

(** Exhibit the records a call has written so far: the generation row and
    the inserted rows are read off the store and the hypotheses. *)
Ltac record_run gid :=
  eexists (Build_GenerationRun gid _ _ _);
  split;
  [ unfold recorded, same_other_tables; store_simpl;
    cbn [run_id run_row run_questions run_items];
    repeat split;
    first [ eassumption | reflexivity | apply TableFacts.inserted_nil
          | apply Forall_nil_2 | by rewrite insert_insert_eq ]
  | cbn [finalised run_id run_row run_questions run_items] ].

Section Paths.

Variable env : Env.

(** The outer handler reads the topic for the log and throws the error on:
    the store is the one the handler found. *)
Lemma wps_logAndRethrow (topicId : nat) (error : Error) (s : Store)
    (Q : Outcome GenerationResult -> Store -> Prop) :
  Q (Throw error) s -> wps (logAndRethrow env topicId error) s Q.
Proof.
  intros H. unfold logAndRethrow.
  apply wps_bind, wps_try_catch, wps_getTopic.
  intros [t|e]; wps_steps; exact H.
Qed.

(** Steps 5 to 8 and their handler, from the store in which the generation
    row [row] has just been inserted under the unused key [gid]. *)
Lemma wps_generation_steps (ty : GenerationType) (topicId : nat) (topic : Topic)
    (knowledgeBase : list (nat * KnowledgeBaseRow)) (apiKey : string)
    (gid : nat) (row : Generation) (ids : list nat) (withCount : bool)
    (s0 : Store) (Q : Outcome GenerationResult -> Store -> Prop) :
  generations s0 !! gid = None ->
  generation_type row = ty -> source_ids row = ids -> status row = Processing ->
  (forall r s',
     (exists run, recorded env ty topicId ids s0 s' run /\ finalised r run) -> Q r s') ->
  wps (try_catch
         (generateAndStore env topicId topic knowledgeBase apiKey (gid, row) ids
            withCount)
         (markFailed env (gid, row)))
      (with_generations (fun _ => <[gid := row]> (generations s0)) s0) Q.
Proof.
  intros Hfresh Hty Hids Hst HQ.
  unfold generateAndStore, markFailed.
  apply wps_try_catch, wps_bind, wps_lift.
  destruct (FileProcessingService.generateAIContent _ _ _ _) as [aiResult|e] eqn:Hai.
  2: { apply wps_bind, wps_updateGeneration.
       - intros e'. apply HQ. record_run gid. by left.
       - intros g Hg. found_row. wps_steps. apply HQ. record_run gid. by right. }
  destruct (generateAIContent_generated _ _ _ _ _ Hai) as [Hgen Hpos].
  apply wps_bind, wps_addQuestionsWithGeneration.
  { intros e. apply wps_bind, wps_updateGeneration.
    - intros e'. apply HQ. record_run gid. by left.
    - intros g Hg. found_row. wps_steps. apply HQ. record_run gid. by right. }
  intros qs tq Hq Hlq HFq.
  apply wps_bind, wps_createGenerationItems.
  { intros e. apply wps_bind, wps_updateGeneration.
    - intros e'. apply HQ. record_run gid. by left.
    - intros g Hg. found_row. wps_steps. apply HQ. record_run gid. by right. }
  intros its ti Hi Hli HFi.
  apply wps_bind, wps_updateGeneration.
  { intros e. apply wps_bind, wps_updateGeneration.
    - intros e'. apply HQ. record_run gid. by left.
    - intros g Hg. found_row. wps_steps. apply HQ. record_run gid. by right. }
  intros g Hg. found_row. wps_steps. apply HQ. record_run gid.
  cbn. repeat split; lia.
Qed.

Lemma select_rows_elem {A} (p : nat -> A -> bool) (t : gmap nat A) (k : nat) (v : A) :
  (k, v) ∈ select_rows p t <-> t !! k = Some v /\ p k v = true.
Proof.
  unfold select_rows. rewrite list_elem_of_filter, elem_of_map_to_list. simpl.
  tauto.
Qed.

Lemma existsb_select_rows (topicId user id : nat) (s : Store) :
  getUser env = Some user ->
  existsb (fun source : nat * Source => source.1 =? id)
    (select_rows
       (fun _ r => (src_topic_id r =? topicId) && (src_user_id r =? user))
       (sources s))
  = topic_owned env s topicId id.
Proof.
  intros Hu. unfold topic_owned. rewrite Hu.
  apply eq_true_iff_eq. rewrite existsb_exists. split.
  - intros [[k row] [Hin Hk]]. apply Nat.eqb_eq in Hk. simpl in Hk. subst k.
    apply list_elem_of_In, select_rows_elem in Hin as [Hl Hp].
    by rewrite Hl.
  - destruct (sources s !! id) as [row|] eqn:Hl; [|discriminate].
    intros Hp. exists (id, row). split; [|apply Nat.eqb_refl].
    apply list_elem_of_In, select_rows_elem. by split.
Qed.

Lemma valid_ids_resolved (topicId user : nat) (ids : list nat) (s : Store) :
  getUser env = Some user ->
  filter (fun id =>
            existsb (fun source : nat * Source => source.1 =? id)
              (select_rows
                 (fun _ r => (src_topic_id r =? topicId) && (src_user_id r =? user))
                 (sources s)) = true) ids
  = resolved_ids env s topicId ids.
Proof.
  intros Hu. unfold resolved_ids. apply list_filter_iff.
  intros id. by rewrite (existsb_select_rows _ _ _ _ Hu).
Qed.

(** Every way the bulk path ends. *)
Lemma wps_generateAIContent (topicId : nat) (s0 : Store) :
  wps (SupabaseService.generateAIContent env topicId) s0
    (generation_post env Bulk topicId (topic_source_ids env s0 topicId) s0).
Proof.
  unfold SupabaseService.generateAIContent.
  apply wps_bind, wps_requireUser; [intros; by left|intros user Hu].
  apply wps_bind, wps_requireApiKey.
  intros [apiKey|e]; [|by left].
  apply wps_try_catch, wps_bind, wps_getSources.
  { intros e. apply wps_logAndRethrow. by left. }
  intros user' Hu'. rewrite Hu in Hu'. injection Hu' as <-.
  unfold topic_source_ids. rewrite Hu.
  set (rows := select_rows _ _).
  destruct (length rows =? 0); [apply wps_throw, wps_logAndRethrow; by left|].
  apply wps_bind, wps_getKnowledgeBase.
  intros [knowledgeBase|e]; [|apply wps_logAndRethrow; by left].
  apply wps_bind, wps_getTopic.
  intros [topic|e]; [|apply wps_logAndRethrow; by left].
  apply wps_bind, wps_createGeneration.
  { intros e. apply wps_logAndRethrow. by left. }
  intros gid row Hfresh Hty Hids Hst.
  apply (wps_generation_steps Bulk); try assumption.
  intros [res|e] s' H; [by right|].
  apply wps_logAndRethrow. by right.
Qed.

(** Every way the selective path ends. *)
Lemma wps_generateAIContentFromSources (topicId : nat) (sourceIds : list nat)
    (s0 : Store) :
  wps (generateAIContentFromSources env topicId sourceIds) s0
    (fun r s1 =>
       generation_post env Selective topicId (resolved_ids env s0 topicId sourceIds)
         s0 r s1
       /\ (resolved_ids env s0 topicId sourceIds = [] ->
           s1 = s0 /\ is_ok r = false)).
Proof.
  unfold generateAIContentFromSources.
  apply wps_bind, wps_requireUser; [intros; split; [by left|done]|intros user Hu].
  apply wps_bind, wps_requireApiKey.
  intros [apiKey|e]; [|split; [by left|done]].
  apply wps_try_catch, wps_bind, wps_getSources.
  { intros e. apply wps_logAndRethrow. split; [by left|done]. }
  intros user' Hu'. rewrite Hu in Hu'. injection Hu' as <-.
  rewrite (valid_ids_resolved _ _ _ _ Hu).
  set (validSourceIds := resolved_ids env s0 topicId sourceIds).
  destruct (length validSourceIds =? 0) eqn:Hlen.
  { apply wps_throw, wps_logAndRethrow. split; [by left|done]. }
  assert (Hne : validSourceIds <> []).
  { intros Hnil. rewrite Hnil in Hlen. discriminate. }
  apply wps_bind, wps_getKnowledgeBaseBySourceIds.
  intros [knowledgeBase|e]; [|apply wps_logAndRethrow; split; [by left|done]].
  destruct (length knowledgeBase =? 0).
  { apply wps_throw, wps_logAndRethrow. split; [by left|done]. }
  apply wps_bind, wps_getTopic.
  intros [topic|e]; [|apply wps_logAndRethrow; split; [by left|done]].
  apply wps_bind, wps_createGeneration.
  { intros e. apply wps_logAndRethrow. split; [by left|done]. }
  intros gid row Hfresh Hty Hids Hst.
  apply (wps_generation_steps Selective); try assumption.
  intros [res|e] s' H; [split; [by right|done]|].
  apply wps_logAndRethrow. split; [by right|done].
Qed.

(** Every way the direct-text path ends. *)
Lemma wps_processDirectTextInput (topicId : nat) (textContent promptTitle : string)
    (s0 : Store) :
  wps (processDirectTextInput env topicId textContent promptTitle) s0
    (generation_post env DirectText topicId [] s0).
Proof.
  unfold processDirectTextInput.
  apply wps_bind, wps_requireUser; [intros; by left|intros user Hu].
  apply wps_bind, wps_getTopic.
  intros [topic|e]; [|by left].
  apply wps_try_catch, wps_bind, wps_lift.
  destruct (processDirectText _ _ _) as [extracted|e]; [|wps_steps; by left].
  apply wps_bind, wps_requireApiKey.
  intros [apiKey|e]; [|wps_steps; by left].
  apply wps_bind, wps_lift.
  destruct (FileProcessingService.generateAIContent _ _ _ _) as [aiResult|e] eqn:Hai;
    [|wps_steps; by left].
  destruct (generateAIContent_generated _ _ _ _ _ Hai) as [Hgen Hpos].
  apply wps_bind, wps_createGeneration.
  { intros e. wps_steps. by left. }
  intros gid row Hfresh Hty Hids Hst.
  apply wps_bind, wps_addQuestionsWithGeneration.
  { intros e. wps_steps. right. record_run gid. by left. }
  intros qs tq Hq Hlq HFq.
  apply wps_bind, wps_createGenerationItems.
  { intros e. wps_steps. right. record_run gid. by left. }
  intros its ti Hi Hli HFi.
  apply wps_bind, wps_updateGeneration.
  { intros e. wps_steps. right. record_run gid. by left. }
  intros g Hg. found_row. wps_steps. right. record_run gid.
  cbn. repeat split; lia.
Qed.

End Paths.

(** Every way a generation call ends, whichever path it takes. *)
Lemma perform_post (env : Env) (call : GenerationCall) (s0 : Store)
    (faults : list (option Error)) :
  exists ty topicId ids,
    generation_post env ty topicId ids s0
      (run (perform env call) s0 faults).1 (run (perform env call) s0 faults).2.
Proof.
  destruct call as [topicId|topicId sourceIds|topicId textContent promptTitle];
    simpl perform.
  - exists Bulk, topicId, (topic_source_ids env s0 topicId).
    apply (wps_run _ _ _ faults), wps_generateAIContent.
  - exists Selective, topicId, (resolved_ids env s0 topicId sourceIds).
    apply (wps_run _ _ (fun r s1 => generation_post _ _ _ _ s0 r s1) faults).
    eapply wps_mono; [|apply wps_generateAIContentFromSources].
    intros r s' [H _]. exact H.
  - exists DirectText, topicId, (@nil nat).
    apply (wps_run _ _ _ faults), wps_processDirectTextInput.
Qed.

(** *** Attribution *)

Lemma recorded_item (env : Env) (ty : GenerationType) (topicId : nat) (ids : list nat)
    (s0 s1 : Store) (run : GenerationRun) (k : nat) (it : GenerationItem) :
  recorded env ty topicId ids s0 s1 run ->
  generation_items s1 !! k = Some it ->
  generation_items s0 !! k = Some it
  \/ (generation_id it = run_id run /\ derived_from_sources it = ids).
Proof.
  intros (_ & _ & _ & _ & _ & _ & Hi & HFi & _) Hk.
  destruct (TableFacts.inserted_lookup _ _ _ _ _ Hi Hk) as [Hold|Hnew]; [by left|].
  right. rewrite Forall_forall in HFi. apply (HFi _ Hnew).
Qed.

Lemma recorded_question (env : Env) (ty : GenerationType) (topicId : nat) (ids : list nat)
    (s0 s1 : Store) (run : GenerationRun) (k : nat) (q : Question) :
  recorded env ty topicId ids s0 s1 run ->
  questions s1 !! k = Some q ->
  questions s0 !! k = Some q
  \/ (q_generation_id q = Some (run_id run) /\ source_attribution q = ids).
Proof.
  intros (_ & _ & _ & _ & Hq & HFq & _) Hk.
  destruct (TableFacts.inserted_lookup _ _ _ _ _ Hq Hk) as [Hold|Hnew]; [by left|].
  right. rewrite Forall_forall in HFq. destruct (HFq _ Hnew) as (? & ? & _).
  by split.
Qed.

(** A generation that was stored before the call is stored unchanged
    after it. *)
Lemma recorded_generation_kept (env : Env) (ty : GenerationType) (topicId : nat)
    (ids : list nat) (s0 s1 : Store) (run : GenerationRun) (gid : nat)
    (g : Generation) :
  recorded env ty topicId ids s0 s1 run ->
  generations s0 !! gid = Some g ->
  generations s1 !! gid = Some g.
Proof.
  intros (Hfresh & Hg & _) Hgid. rewrite Hg.
  rewrite lookup_insert_ne; [done|]. intros Heq. rewrite Heq in Hfresh. congruence.
Qed.

Lemma recorded_generation_new (env : Env) (ty : GenerationType) (topicId : nat)
    (ids : list nat) (s0 s1 : Store) (run : GenerationRun) :
  recorded env ty topicId ids s0 s1 run ->
  generations s1 !! run_id run = Some (run_row run)
  /\ source_ids (run_row run) = ids.
Proof.
  intros (_ & Hg & _ & Hids & _). split; [|done].
  rewrite Hg. apply lookup_insert_eq.
Qed.

Lemma generation_post_contained (env : Env) (ty : GenerationType) (topicId : nat)
    (ids : list nat) (s0 s1 : Store) (r : Outcome GenerationResult) :
  generation_post env ty topicId ids s0 r s1 ->
  attribution_contained s0 -> attribution_contained s1.
Proof.
  intros [[-> _]|(run & Hrec & _)] Hinv; [done|].
  intros k it Hk.
  destruct (recorded_item _ _ _ _ _ _ _ _ _ Hrec Hk) as [Hold|[Hgid Hd]].
  - destruct (Hinv _ _ Hold) as (g & Hg & Hsub).
    exists g. split; [|done]. by eapply recorded_generation_kept.
  - destruct (recorded_generation_new _ _ _ _ _ _ _ Hrec) as [Hg Hids].
    exists (run_row run). rewrite Hgid, Hd, Hids. done.
Qed.

Lemma generation_post_exact (env : Env) (ty : GenerationType) (topicId : nat)
    (ids : list nat) (s0 s1 : Store) (r : Outcome GenerationResult) :
  generation_post env ty topicId ids s0 r s1 ->
  attribution_exact s0 -> attribution_exact s1.
Proof.
  intros [[-> _]|(run & Hrec & _)] [Hitems Hquestions]; [done|].
  destruct (recorded_generation_new _ _ _ _ _ _ _ Hrec) as [Hg Hids].
  split.
  - intros k it Hk.
    destruct (recorded_item _ _ _ _ _ _ _ _ _ Hrec Hk) as [Hold|[Hgid Hd]].
    + destruct (Hitems _ _ Hold) as (g & Hg' & Heq).
      exists g. split; [|done]. by eapply recorded_generation_kept.
    + exists (run_row run). by rewrite Hgid, Hd, Hids.
  - intros k q gid Hk Hq.
    destruct (recorded_question _ _ _ _ _ _ _ _ _ Hrec Hk) as [Hold|[Hgid Ha]].
    + destruct (Hquestions _ _ _ Hold Hq) as (g & Hg' & Heq).
      exists g. split; [|done]. by eapply recorded_generation_kept.
    + rewrite Hq in Hgid. injection Hgid as ->.
      exists (run_row run). by rewrite Ha, Hids.
Qed.

(** *** The calls that are no generation *)

Lemma same_but_is_saved_refl (q : Question) : same_but_is_saved q q.
Proof. by destruct q. Qed.

Lemma provenance_kept_questions (s s' : Store) :
  generations s' = generations s ->
  generation_items s' = generation_items s ->
  questions s' = questions s ->
  provenance_kept s s'.
Proof.
  intros Hg Hi Hq. repeat split; try done; rewrite Hq; [done|].
  intros k q Hk. exists q. split; [done | apply same_but_is_saved_refl].
Qed.

(** The step for the user check, which every call starts with. *)
Ltac wps_user :=
  lazymatch goal with
  | |- wps (bind (requireUser _) _) _ _ =>
      apply wps_bind, wps_requireUser; [intros ? | intros ? ?]
  end.

(** A call that writes neither generations, generation items nor
    questions. *)
Ltac wps_frame :=
  repeat first
    [ wps_user | wps_step
    | match goal with |- match ?x with _ => _ end => destruct x eqn:? end ];
  repeat match goal with
         | H : insert_row _ _ = _ |- _ => injection H as <- <-
         end;
  store_simpl; by apply provenance_kept_questions.

Lemma uploadFile_frame (env : Env) (topicId : nat) (file : File) (s : Store) :
  wps (uploadFile env topicId file) s (fun _ s' => provenance_kept s s').
Proof.
  unfold uploadFile, maxRetries, authLoop, storage_upload, storage_remove,
    rpc_simple_insert_document, getFileUrl.
  wps_frame.
Qed.

Lemma processTextContent_frame (env : Env) (topicId : nat)
    (contentText sourceName : string) (s : Store) :
  wps (processTextContent env topicId contentText sourceName) s
    (fun _ s' => provenance_kept s s').
Proof.
  unfold processTextContent, rpc_simple_insert_document, addToKnowledgeBase,
    createSource, getTopic.
  wps_frame.
Qed.

Lemma processYouTubeURL_frame (env : Env) (topicId : nat) (url : string)
    (s : Store) :
  wps (processYouTubeURL env topicId url) s (fun _ s' => provenance_kept s s').
Proof.
  unfold processYouTubeURL, storage_upload, storage_remove, insert_document,
    addToKnowledgeBase, createSource, getTopic.
  wps_frame.
Qed.

Lemma updateFlashcardProgress_frame (env : Env) (questionId : nat) (known : bool)
    (s : Store) :
  wps (updateFlashcardProgress env questionId known) s
    (fun _ s' => provenance_kept s s').
Proof. unfold updateFlashcardProgress. wps_frame. Qed.

(** [saveQuestion] changes nothing but the flag [is_saved], which it sets
    for the question it names when the session user owns it. *)
Lemma saveQuestion_effect (env : Env) (questionId : nat) (s : Store) :
  wps (saveQuestion env questionId) s
    (fun r s' =>
       provenance_kept s s'
       /\ (forall q user,
             r = Ok tt -> getUser env = Some user ->
             questions s !! questionId = Some q -> q_user_id q = user ->
             is_saved <$> questions s' !! questionId = Some true)).
Proof.
  assert (Hsame : provenance_kept s s) by (by apply provenance_kept_questions).
  unfold saveQuestion.
  wps_user; [split; [exact Hsame | discriminate]|].
  wps_steps; [split; [exact Hsame | discriminate]|].
  unfold provenance_kept. store_simpl.
  destruct (questions s !! questionId) as [q0|] eqn:Hq0.
  2: { split; [exact Hsame|]. intros q user' _ _ Hq. discriminate. }
  destruct (q_user_id q0 =? user) eqn:Hown.
  2: { split; [exact Hsame|].
       intros q user' _ Hu' [= <-] Hq.
       match goal with Hu : getUser env = Some user |- _ =>
         rewrite Hu in Hu'; injection Hu' as <- end.
       rewrite Hq, Nat.eqb_refl in Hown. discriminate. }
  repeat split.
  - apply dom_insert_lookup_L. eauto.
  - intros k q Hk. destruct (decide (questionId = k)) as [<-|Hne].
    + rewrite lookup_insert_eq. eexists. split; [reflexivity|].
      rewrite Hq0 in Hk. injection Hk as <-. reflexivity.
    + rewrite lookup_insert_ne by done.
      exists q. split; [done | apply same_but_is_saved_refl].
  - intros q user' _ _ _ _. by rewrite lookup_insert_eq.
Qed.

Lemma provenance_kept_contained (s s' : Store) :
  provenance_kept s s' -> attribution_contained s -> attribution_contained s'.
Proof.
  intros (Hg & Hi & _) Hinv k it Hk. rewrite Hi in Hk. rewrite Hg.
  by apply (Hinv k it).
Qed.

Lemma provenance_kept_exact (s s' : Store) :
  provenance_kept s s' -> attribution_exact s -> attribution_exact s'.
Proof.
  intros (Hg & Hi & Hdom & Hq) [Hitems Hquestions]. split.
  - intros k it Hk. rewrite Hi in Hk. rewrite Hg. by apply (Hitems k it).
  - intros k q' gid Hk Hgid. rewrite Hg.
    assert (Hin : k ∈ dom (questions s)).
    { rewrite <- Hdom. apply elem_of_dom. eauto. }
    apply elem_of_dom in Hin as [q Hkq].
    destruct (Hq k q Hkq) as (q'' & Hk'' & Hsame).
    rewrite Hk in Hk''. injection Hk'' as <-.
    unfold same_but_is_saved in Hsame. rewrite Hsame in Hgid |- *.
    by apply (Hquestions k q gid).
Qed.

(** A call other than a generation keeps the provenance records. *)
Lemma effect_kept (env : Env) (call : ServiceCall) (s : Store)
    (faults : list (option Error)) :
  (forall c, call <> Generate c) ->
  provenance_kept s (effect env call s faults).
Proof.
  intros Hng.
  destruct call as [c|topicId file|topicId contentText sourceName|topicId url
                    |questionId|questionId known]; simpl effect.
  - by destruct (Hng c).
  - apply (wps_run _ _ (fun _ s' => provenance_kept s s') faults), uploadFile_frame.
  - apply (wps_run _ _ (fun _ s' => provenance_kept s s') faults),
      processTextContent_frame.
  - apply (wps_run _ _ (fun _ s' => provenance_kept s s') faults),
      processYouTubeURL_frame.
  - apply (wps_run _ _ (fun _ s' => provenance_kept s s') faults).
    eapply wps_mono; [|apply saveQuestion_effect]. by intros r s' [H _].
  - apply (wps_run _ _ (fun _ s' => provenance_kept s s') faults),
      updateFlashcardProgress_frame.
Qed.

Lemma effect_contained (env : Env) (call : ServiceCall) (s : Store)
    (faults : list (option Error)) :
  attribution_contained s -> attribution_contained (effect env call s faults).
Proof.
  intros Hinv. destruct call as [c| | | | |].
  - simpl effect.
    destruct (perform_post env c s faults) as (ty & topicId & ids & Hpost).
    by eapply generation_post_contained.
  - eapply provenance_kept_contained; [apply effect_kept; discriminate | done].
  - eapply provenance_kept_contained; [apply effect_kept; discriminate | done].
  - eapply provenance_kept_contained; [apply effect_kept; discriminate | done].
  - eapply provenance_kept_contained; [apply effect_kept; discriminate | done].
  - eapply provenance_kept_contained; [apply effect_kept; discriminate | done].
Qed.

Lemma effect_exact (env : Env) (call : ServiceCall) (s : Store)
    (faults : list (option Error)) :
  attribution_exact s -> attribution_exact (effect env call s faults).
Proof.
  intros Hinv. destruct call as [c| | | | |].
  - simpl effect.
    destruct (perform_post env c s faults) as (ty & topicId & ids & Hpost).
    by eapply generation_post_exact.
  - eapply provenance_kept_exact; [apply effect_kept; discriminate | done].
  - eapply provenance_kept_exact; [apply effect_kept; discriminate | done].
  - eapply provenance_kept_exact; [apply effect_kept; discriminate | done].
  - eapply provenance_kept_exact; [apply effect_kept; discriminate | done].
  - eapply provenance_kept_exact; [apply effect_kept; discriminate | done].
Qed.

(** C1: attribution containment is an invariant of the service.  From a
    store in which every generation item names only sources of its
    generation, any history of calls, the bulk, selective and direct-text
    generation paths and the ingestion, saving and review calls between
    them, with any environments and any faults, leads to such a store
    again. *)
Theorem attribution_containment (s : Store) (history : list Step) :
  attribution_contained s -> attribution_contained (after s history).
Proof.
  revert s. induction history as [|st history IH]; intros s Hinv; [exact Hinv|].
  apply IH. by apply effect_contained.
Qed.

(** C10: attribution is never finer than the run.  From a store in which
    every generation item and every generated question carries exactly the
    [source_ids] of its generation, any history of service calls leads to
    such a store again: all items of one generation carry the same
    attribution, the full resolved list. *)
Theorem attribution_is_per_generation (s : Store) (history : list Step) :
  attribution_exact s -> attribution_exact (after s history).
Proof.
  revert s. induction history as [|st history IH]; intros s Hinv; [exact Hinv|].
  apply IH. by apply effect_exact.
Qed.

End GenerationProps.

(** ** Selective generation *)

Module SelectiveProps.

Import FileProcessingService SupabaseService Vocabulary Logic GenerationProps.









(** The scenario of the specification: the topic has the sources A, B and
    C; selective generation from A, B and D, a source of another topic,
    records a generation from A and B. *)
Example selective_scenario :
  source_ids <$> generations (after sampleStore sampleHistory) !! 0
  = Some [10; 11]
  /\ size (generations (after sampleStore sampleHistory)) = 1.
Proof. split; vm_compute; reflexivity. Qed.

End SelectiveProps.

(** ** Outcomes of the generation paths *)

Module CoordinatorProps.

Import FileProcessingService SupabaseService Vocabulary Logic GenerationProps.

Lemma attribution_contained_sample : attribution_contained sampleStore.
Proof.
  intros k it Hk. unfold sampleStore in Hk. cbn [generation_items] in Hk.
  rewrite lookup_empty in Hk. discriminate.
Qed.

Lemma attribution_exact_sample : attribution_exact sampleStore.
Proof.
  split.
  - intros k it Hk. unfold sampleStore in Hk. cbn [generation_items] in Hk.
    rewrite lookup_empty in Hk. discriminate.
  - intros k q gid Hk. unfold sampleStore in Hk. cbn [questions] in Hk.
    rewrite lookup_empty in Hk. discriminate.
Qed.

Lemma attribution_containment_witness :
  attribution_contained sampleStore
  /\ attribution_contained (after sampleStore sampleHistory).
Proof.
  split; [exact attribution_contained_sample|].
  exact (attribution_containment sampleStore sampleHistory
           attribution_contained_sample).
Defined.

Lemma attribution_is_per_generation_witness :
  attribution_exact sampleStore
  /\ attribution_exact (after sampleStore sampleHistory).
Proof.
  split; [exact attribution_exact_sample|].
  exact (attribution_is_per_generation sampleStore sampleHistory
           attribution_exact_sample).
Defined.

(** What a call that returns has recorded. *)
Lemma perform_ok (env : Env) (call : GenerationCall) (s : Store)
    (faults : list (option Error)) (res : GenerationResult) :
  (run (perform env call) s faults).1 = Ok res ->
  exists ty topicId ids written,
    recorded env ty topicId ids s (run (perform env call) s faults).2 written
    /\ finalised (Ok res) written.
Proof.
  intros Hr.
  destruct (perform_post env call s faults) as (ty & topicId & ids & Hpost).
  rewrite Hr in Hpost.
  destruct Hpost as [[_ Hk]|(written & Hrec & Hfin)]; [discriminate|].
  by exists ty, topicId, ids, written.
Qed.

(** *** Zero items *)



(** *** Terminal status *)

Lemma generation_post_kept (env : Env) (ty : GenerationType) (topicId : nat)
    (ids : list nat) (s0 s1 : Store) (r : Outcome GenerationResult) :
  generation_post env ty topicId ids s0 r s1 ->
  generations s0 ⊆ generations s1.
Proof.
  intros [[-> _]|(written & Hrec & _)]; [done|].
  destruct Hrec as (Hfresh & Hg & _). rewrite Hg.
  by apply insert_subseteq.
Qed.

Lemma updateGeneration_writes (env : Env) (gid : nat) (updates : GenerationUpdates)
    (s : Store) :
  wps (updateGeneration env gid updates) s
    (fun r s' =>
       forall g' st,
         r = Ok g' -> u_status updates = Some st ->
         status g' = st /\ generations s' !! gid = Some g').
Proof.
  apply wps_updateGeneration; [discriminate|].
  intros g Hg g' st [= <-] Hst. store_simpl. split.
  - cbn. by rewrite Hst.
  - apply lookup_insert_eq.
Qed.

(** C4, counterexample: [updateGeneration] on a completed generation, with
    a status, changes the status; here the generation is opened again. *)
Lemma terminal_status_is_overwritten :
  status <$> generations completedStore !! 0 = Some Completed
  /\ is_ok (run (updateGeneration sampleEnv 0 reopen) completedStore []).1 = true
  /\ status <$> generations
                  (run (updateGeneration sampleEnv 0 reopen) completedStore []).2
                !! 0
     = Some Processing.
Proof. repeat split; vm_compute; reflexivity. Qed.

(** C4, as the code has it: [updateGeneration] has no guard on the current
    status and stores the status it is given.  What keeps a finished
    generation as it is, is the way the paths use it: a generation call
    leaves every generation that existed before it unchanged, terminal or
    not, and writes only to the one it creates, which is [processing] when
    inserted and ends [completed] when the call returns, and [failed] or
    still [processing] when it throws. *)
Theorem generation_paths_keep_finished_generations :
  (forall env call s faults,
     generations s ⊆ generations (run (perform env call) s faults).2)
  /\ (forall env call s faults gid g,
        generations s !! gid = None ->
        generations (run (perform env call) s faults).2 !! gid = Some g ->
        match (run (perform env call) s faults).1 with
        | Ok res => generationId res = gid /\ status g = Completed
        | Throw _ => status g = Processing \/ status g = Failed
        end)
  /\ (forall env gid updates s faults g' st,
        (run (updateGeneration env gid updates) s faults).1 = Ok g' ->
        u_status updates = Some st ->
        status g' = st
        /\ generations (run (updateGeneration env gid updates) s faults).2 !! gid
           = Some g').
Proof.
  split.
  { intros env call s faults.
    destruct (perform_post env call s faults) as (ty & topicId & ids & Hpost).
    by eapply generation_post_kept. }
  split.
  { intros env call s faults gid g Hnone Hsome.
    destruct (perform_post env call s faults) as (ty & topicId & ids & Hpost).
    destruct Hpost as [[Heq _]|(written & Hrec & Hfin)].
    - rewrite Heq in Hsome. congruence.
    - destruct Hrec as (Hfresh & Hg & _). rewrite Hg in Hsome.
      destruct (decide (run_id written = gid)) as [Hid|Hne].
      + rewrite Hid, lookup_insert_eq in Hsome. injection Hsome as <-.
        destruct (run (perform env call) s faults).1 as [res|e]; simpl in Hfin.
        * destruct Hfin as (Hres & Hst & _). split; congruence.
        * exact Hfin.
      + rewrite lookup_insert_ne in Hsome by done. congruence. }
  intros env gid updates s faults g' st Hr Hst.
  exact (wps_run _ _ _ faults (updateGeneration_writes env gid updates s)
           g' st Hr Hst).
Qed.

(** *** The question pool *)

(** C5: the question pool is additive.  A generation call never deletes or
    changes a question that existed before it; a selective generation that
    returns has enlarged the question table, and the pool of its topic, by
    exactly [itemsGenerated], the number it also stores in its record; and
    [saveQuestion], the one call that updates a question, changes nothing
    but the flag [is_saved], which it sets for the question it names. *)
Theorem question_pool_is_additive :
  (forall env call s faults,
     questions s ⊆ questions (run (perform env call) s faults).2)
  /\ (forall env topicId sourceIds s faults res user,
        (run (generateAIContentFromSources env topicId sourceIds) s faults).1
        = Ok res ->
        getUser env = Some user ->
        size (questions
                (run (generateAIContentFromSources env topicId sourceIds) s faults).2)
        = size (questions s) + res_generated res
        /\ size (question_pool
                   (run (generateAIContentFromSources env topicId sourceIds) s
                      faults).2 topicId user)
           = size (question_pool s topicId user) + res_generated res
        /\ items_generated
             <$> generations
                   (run (generateAIContentFromSources env topicId sourceIds) s
                      faults).2 !! generationId res
           = Some (res_generated res))
  /\ (forall env questionId s faults,
        provenance_kept s (run (saveQuestion env questionId) s faults).2
        /\ (forall q user,
              (run (saveQuestion env questionId) s faults).1 = Ok tt ->
              getUser env = Some user ->
              questions s !! questionId = Some q -> q_user_id q = user ->
              is_saved
                <$> questions (run (saveQuestion env questionId) s faults).2
                    !! questionId
              = Some true)).
Proof.
  split.
  { intros env call s faults.
    destruct (perform_post env call s faults) as (ty & topicId & ids & Hpost).
    destruct Hpost as [[-> _]|(written & Hrec & _)]; [done|].
    destruct Hrec as (_ & _ & _ & _ & Hq & _).
    by eapply TableFacts.inserted_subseteq. }
  split.
  { intros env topicId sourceIds s faults res user Hr Hu.
    pose proof (wps_run _ _ _ faults
                  (wps_generateAIContentFromSources env topicId sourceIds s))
      as [Hpost _].
    rewrite Hr in Hpost.
    destruct Hpost as [[_ Hk]|(written & Hrec & Hfin)]; [discriminate|].
    destruct (recorded_generation_new _ _ _ _ _ _ _ Hrec) as [Hg _].
    destruct Hrec as (_ & _ & _ & _ & Hq & HFq & _).
    destruct Hfin as (Hid & _ & Hitems & Hlen & _).
    repeat split.
    - rewrite (TableFacts.inserted_size _ _ _ Hq). lia.
    - unfold question_pool.
      rewrite (TableFacts.inserted_filter_size _ _ _ _ Hq); [lia|].
      eapply Forall_impl; [exact HFq|].
      intros [k q] (_ & _ & _ & Ht & Huq). simpl in *.
      rewrite Hu in Huq. injection Huq as ->. done.
    - rewrite Hid, Hg. simpl. by rewrite Hitems. }
  intros env questionId s faults.
  exact (wps_run _ _ _ faults (saveQuestion_effect env questionId s)).
Qed.

End CoordinatorProps.

(** ** Flashcard progress *)

Module ProgressProps.

Import SupabaseService Vocabulary Logic.




End ProgressProps.

(** ** Ingestion *)

Module IngestionProps.

Import FileProcessingService SupabaseService Vocabulary Logic GenerationProps.




(** *** Compensation *)

(** Evaluation of the calls on a schedule whose head is known. *)
Lemma bind_ok {A B} (m : M A) (k : A -> M B) (st st' : St) (a : A) :
  m st = (Ok a, st') -> bind m k st = k a st'.
Proof. intros H. unfold bind. by rewrite H. Qed.

Lemma bind_throw {A B} (m : M A) (k : A -> M B) (st st' : St) (e : Error) :
  m st = (Throw e, st') -> bind m k st = (Throw e, st').
Proof. intros H. unfold bind. by rewrite H. Qed.

Lemma try_catch_throw {A} (body : M A) (handler : Error -> M A) (st st' : St)
    (e : Error) :
  body st = (Throw e, st') -> try_catch body handler st = handler e st'.
Proof. intros H. unfold try_catch. by rewrite H. Qed.





Lemma getTopic_found (env : Env) (topicId user : nat) (topic : Topic) (s : Store)
    (rest : list (option Error)) :
  getUser env = Some user ->
  topics s !! topicId = Some topic ->
  topic_user_id topic = user ->
  getTopic env topicId (mkSt s (None :: rest)) = (Ok topic, mkSt s rest).
Proof.
  intros Hu Ht Ho. unfold getTopic, requireUser, bind, external_call, get_db.
  rewrite Hu. simpl. rewrite Ht, Ho, Nat.eqb_refl. reflexivity.
Qed.




Lemma lift_run {A} (r : Outcome A) (st : St) : lift r st = (r, st).
Proof. reflexivity. Qed.





(** The compensation is best effort: when the blob store refuses both
    removals, the blob stays under its path although no document row
    refers to it. *)
Example refused_removal_leaves_the_blob :
  is_Some (blobs (run (uploadFile sampleEnv 1 sampleFile) sampleStore
                    [None; Some constraintError; Some storageError;
                     Some storageError]).2
           !! uploadPath sampleEnv 1 7 sampleFile)
  /\ documents (run (uploadFile sampleEnv 1 sampleFile) sampleStore
                  [None; Some constraintError; Some storageError;
                   Some storageError]).2 = ∅.
Proof. split; [vm_compute; eauto | reflexivity]. Qed.

End IngestionProps.

(* ===================================================================== *)
(** * Part III: further properties of the two services                   *)
(* ===================================================================== *)

(** ** Video ids *)

Module VideoIdProps.

Import Js FileProcessingService Vocabulary Notions.

Lemma take_while_app (p : ascii -> bool) (a rest : string) :
  all_chars p a = true ->
  match rest with EmptyString => True | String c _ => p c = false end ->
  take_while p (a +:+ rest) = a.
Proof.
  intros Ha Hrest. induction a as [|c a IH]; simpl in *.
  - destruct rest as [|c r]; simpl; [done | by rewrite Hrest].
  - apply andb_true_iff in Ha as [Hc Ha]. rewrite Hc. f_equal. by apply IH.
Qed.

Lemma capture_after_other (c : ascii) (s : string) :
  Ascii.eqb c "y" = false -> capture_after video_url_prefixes (String c s) = None.
Proof.
  intros Hc. rewrite Ascii.eqb_sym in Hc.
  cbn [capture_after video_url_prefixes strip_prefix]. by rewrite Hc.
Qed.

Lemma search_video_id_skip (before s : string) :
  without_y before = true ->
  search_video_id (before +:+ s) = search_video_id s.
Proof.
  intros Hb. induction before as [|c before IH]; [done|].
  cbn [without_y all_chars] in Hb.
  apply andb_true_iff in Hb as [Hc Hb]. apply negb_true_iff in Hc.
  change (String c before +:+ s) with (String c (before +:+ s)).
  cbn [search_video_id]. rewrite (capture_after_other _ _ Hc). by apply IH.
Qed.

Lemma capture_after_alt (alt id rest : string) :
  In alt video_url_prefixes ->
  is_empty id = false ->
  all_chars is_capture_char id = true ->
  ends_capture rest = true ->
  capture_after video_url_prefixes (alt +:+ id +:+ rest) = Some id.
Proof.
  intros Halt Hne Hid Hrest.
  assert (Htw : take_while is_capture_char (id +:+ rest) = id).
  { apply take_while_app; [done|]. destruct rest as [|c r]; [done|].
    by apply negb_true_iff in Hrest. }
  remember (id +:+ rest) as tail eqn:Htail.
  simpl in Halt.
  destruct Halt as [<-|[<-|[<-|[<-|[]]]]]; simpl.
  all: change (EmptyString +:+ tail) with tail; by rewrite Htw, Hne.
Qed.

(** A video id between one of the four URL forms and the end of the
    address, or the first of the separators, is the id that is found:
    whatever precedes the form, as long as it holds no letter y, and
    whatever follows the separator. *)
Theorem video_id_round_trip (before alt id rest : string) :
  without_y before = true ->
  In alt video_url_prefixes ->
  is_empty id = false ->
  all_chars is_capture_char id = true ->
  ends_capture rest = true ->
  extractYouTubeVideoId (before +:+ alt +:+ id +:+ rest) = Some id.
Proof.
  intros Hb Halt Hne Hid Hrest. unfold extractYouTubeVideoId.
  rewrite (search_video_id_skip _ _ Hb).
  pose proof (capture_after_alt alt id rest Halt Hne Hid Hrest) as Hc.
  assert (Hs : exists c r, alt +:+ id +:+ rest = String c r).
  { simpl in Halt. destruct Halt as [<-|[<-|[<-|[<-|[]]]]]; simpl; eauto. }
  destruct Hs as (c & r & Hs). rewrite Hs in *.
  cbn [search_video_id]. by rewrite Hc.
Qed.

Lemma video_id_round_trip_witness :
  extractYouTubeVideoId "https://www.youtube.com/watch?v=dQw4w9WgXcQ&t=42s"
  = Some "dQw4w9WgXcQ".
Proof.
  apply (video_id_round_trip "https://www." "youtube.com/watch?v=" "dQw4w9WgXcQ"
           "&t=42s");
    [reflexivity | simpl; tauto | reflexivity | reflexivity | reflexivity].
Defined.

Lemma id_char_is_capture_char (c : ascii) :
  is_id_char c = true -> is_capture_char c = true.
Proof.
  destruct c as [[] [] [] [] [] [] [] []]; vm_compute; congruence.
Qed.

Lemma all_chars_impl (p q : ascii -> bool) (s : string) :
  (forall c, p c = true -> q c = true) ->
  all_chars p s = true -> all_chars q s = true.
Proof.
  intros Hpq. induction s as [|c s IH]; simpl; [done|].
  intros [Hc Hs]%andb_true_iff. by rewrite (Hpq c Hc), IH.
Qed.

Lemma take_while_all (p : ascii -> bool) (s : string) :
  all_chars p (take_while p s) = true.
Proof.
  induction s as [|c s IH]; simpl; [done|].
  destruct (p c) eqn:Hc; simpl; [by rewrite Hc, IH | done].
Qed.

Lemma capture_after_shape (alts : list string) (s id : string) :
  capture_after alts s = Some id ->
  is_empty id = false /\ all_chars is_capture_char id = true.
Proof.
  induction alts as [|alt alts IH]; simpl; [discriminate|].
  destruct (strip_prefix alt s) as [rest|]; [|exact IH].
  destruct (is_empty (take_while is_capture_char rest)) eqn:He; [exact IH|].
  intros [= <-]. split; [exact He | apply take_while_all].
Qed.

Lemma search_video_id_shape (s id : string) :
  search_video_id s = Some id ->
  is_empty id = false /\ all_chars is_capture_char id = true.
Proof.
  induction s as [|c s IH]; [discriminate|].
  cbn [search_video_id].
  destruct (capture_after video_url_prefixes (String c s)) as [id'|] eqn:Hc.
  - intros [= <-]. by eapply capture_after_shape.
  - exact IH.
Qed.

(** Whatever the address, an id that is found is not empty and holds none
    of the separators: no ampersand, question mark, number sign or line
    feed.  Its length is not checked, except for an address that is a
    bare id. *)
Theorem video_id_shape (url id : string) :
  extractYouTubeVideoId url = Some id ->
  is_empty id = false /\ all_chars is_capture_char id = true.
Proof.
  unfold extractYouTubeVideoId.
  destruct (search_video_id url) as [id'|] eqn:Hs.
  - intros [= <-]. by eapply search_video_id_shape.
  - unfold bare_video_id.
    destruct (String.length url =? 11) eqn:Hl; [|discriminate].
    destruct (all_chars is_id_char url) eqn:Ha; [|discriminate].
    intros [= <-]. split.
    + destruct url; [discriminate | done].
    + eapply all_chars_impl; [apply id_char_is_capture_char | done].
Qed.

Lemma video_id_shape_witness :
  is_empty "abc" = false /\ all_chars is_capture_char "abc" = true.
Proof.
  apply (video_id_shape "https://youtu.be/abc?t=1" "abc"). reflexivity.
Defined.

End VideoIdProps.

(** ** The clean-up of extracted text *)

Module CleanTextProps.

Import Js FileProcessingService Vocabulary Notions JsFacts.

Lemma single_blanks_collapse (s : string) (w : bool) :
  single_blanks w (collapse_from w s) = true.
Proof.
  revert w. induction s as [|c r IH]; intros w; simpl; [done|].
  destruct (is_space c) eqn:Hc.
  - destruct w; [apply IH|]. simpl. apply IH.
  - simpl. rewrite Hc. apply IH.
Qed.

Lemma single_blanks_weaken (s : string) :
  single_blanks true s = true -> single_blanks false s = true.
Proof.
  destruct s as [|c r]; simpl; [done|].
  destruct (is_space c); [|done]. by rewrite andb_false_r.
Qed.

Lemma single_blanks_trimStart_id (s : string) :
  single_blanks true s = true -> trimStart s = s.
Proof.
  destruct s as [|c r]; simpl; [done|].
  destruct (is_space c); [|done]. by rewrite andb_false_r.
Qed.

Lemma single_blanks_trimStart (s : string) :
  single_blanks false s = true -> single_blanks true (trimStart s) = true.
Proof.
  destruct s as [|c r]; simpl; [done|].
  destruct (is_space c) eqn:Hc.
  - intros [_ Hr]%andb_true_iff.
    by rewrite (single_blanks_trimStart_id _ Hr).
  - simpl. by rewrite Hc.
Qed.

Lemma single_blanks_trimEnd (s : string) (w : bool) :
  single_blanks w s = true -> single_blanks w (trimEnd s) = true.
Proof.
  revert w. induction s as [|c r IH]; intros w; simpl; [done|].
  destruct (is_space c) eqn:Hc; simpl.
  - intros [Hw Hr]%andb_true_iff.
    destruct (is_empty (trimEnd r)); simpl; [done|].
    by rewrite Hc, Hw, (IH _ Hr).
  - intros Hr. rewrite Hc. by apply IH.
Qed.

Lemma single_blanks_no_newline (s : string) (w : bool) :
  single_blanks w s = true -> has_newline s = false.
Proof.
  revert w. induction s as [|c r IH]; intros w; simpl; [done|].
  destruct (Ascii.eqb c "010") eqn:Hn.
  - rewrite (is_space_newline _ Hn).
    apply Ascii.eqb_eq in Hn. subst c. discriminate.
  - destruct (is_space c); simpl.
    + intros [_ Hr]%andb_true_iff. by apply (IH true).
    + apply IH.
Qed.

Lemma tokens_collapse (s : string) (p w : bool) :
  (w = true -> p = true) ->
  tokens_from p (collapse_from w s) = tokens_from p s.
Proof.
  revert p w. induction s as [|c r IH]; intros p w Hw; simpl; [done|].
  destruct (is_space c) eqn:Hc.
  - destruct w.
    + rewrite (Hw eq_refl). by apply IH.
    + simpl. by apply IH.
  - simpl. rewrite Hc. f_equal. by apply IH.
Qed.

Lemma tokens_trimStart (s : string) :
  tokens_from true (trimStart s) = tokens_from true s.
Proof.
  induction s as [|c r IH]; simpl; [done|].
  destruct (is_space c) eqn:Hc; [exact IH|]. simpl. by rewrite Hc.
Qed.

Lemma tokens_trimEnd (s : string) (p : bool) :
  tokens_from p (trimEnd s) = tokens_from p s.
Proof.
  revert p. induction s as [|c r IH]; intros p; simpl; [done|].
  destruct (is_space c) eqn:Hc; simpl.
  - destruct (is_empty (trimEnd r)) eqn:He; simpl.
    + rewrite <- (IH true). by destruct (trimEnd r).
    + rewrite Hc. apply IH.
  - rewrite Hc. f_equal. apply IH.
Qed.

Lemma collapse_id (s : string) (w : bool) :
  single_blanks w s = true -> collapse_from w s = s.
Proof.
  revert w. induction s as [|c r IH]; intros w; simpl; [done|].
  destruct (is_space c) eqn:Hc.
  - intros [[Hb Hw]%andb_true_iff Hr]%andb_true_iff.
    apply Ascii.eqb_eq in Hb. subst c.
    destruct w; [discriminate|]. f_equal. by apply IH.
  - intros Hr. f_equal. by apply IH.
Qed.

Lemma trimEnd_id (s : string) :
  ends_in_space false s = false -> trimEnd s = s.
Proof.
  induction s as [|c r IH]; simpl; [done|].
  intros He. destruct r as [|c' r'].
  - simpl in *. by rewrite He.
  - rewrite IH by exact He. simpl. by rewrite andb_false_r.
Qed.

(** The clean-up of the text of a PDF and of a web page leaves the words,
    separated by single blanks: no line break survives it (so that the
    replacement of blank lines, which comes second, finds nothing to
    replace), the words are the same in number, and a text that is already
    in this form is left as it is. *)
Theorem cleanText_single_spaced :
  (forall s, single_spaced (cleanText s) = true)
  /\ (forall s, has_newline (cleanText s) = false)
  /\ (forall s, replace_blank_lines (replace_ws_runs s) = replace_ws_runs s)
  /\ (forall s, token_count (cleanText s) = token_count s)
  /\ (forall s, single_spaced s = true -> cleanText s = s)
  /\ (forall s, cleanText (cleanText s) = cleanText s).
Proof.
  assert (Hform : forall s, single_spaced (cleanText s) = true).
  { intros s. rewrite ExtractionProps.cleanText_eq.
    unfold single_spaced, trim, replace_ws_runs.
    rewrite trimEnd_ends, andb_true_r.
    apply single_blanks_trimEnd, single_blanks_trimStart, single_blanks_collapse. }
  assert (Hfix : forall s, single_spaced s = true -> cleanText s = s).
  { intros s [Hb He]%andb_true_iff. apply negb_true_iff in He.
    rewrite ExtractionProps.cleanText_eq. unfold trim, replace_ws_runs.
    rewrite (collapse_id _ _ (single_blanks_weaken _ Hb)).
    rewrite (single_blanks_trimStart_id _ Hb). by apply trimEnd_id. }
  split; [exact Hform|]. split.
  { intros s. specialize (Hform s). apply andb_true_iff in Hform as [Hb _].
    by eapply single_blanks_no_newline. }
  split.
  { intros s. apply ExtractionProps.blank_lines_none.
    apply collapse_from_no_newline. }
  split.
  { intros s. rewrite ExtractionProps.cleanText_eq.
    unfold token_count, trim, replace_ws_runs.
    rewrite tokens_trimEnd, tokens_trimStart. by apply tokens_collapse. }
  split; [exact Hfix|].
  intros s. apply Hfix, Hform.
Qed.

End CleanTextProps.

(** ** Validation, sessions and failures of the service calls *)

Module ServiceProps.

Import Js FileProcessingService SupabaseService Vocabulary Notions Logic
  GenerationProps.

(** Evaluation of a read of the topic on a schedule whose first entry, if
    any, is no fault. *)
Lemma getTopic_first (env : Env) (topicId user : nat) (topic : Topic) (s : Store)
    (faults : list (option Error)) :
  getUser env = Some user ->
  topics s !! topicId = Some topic ->
  topic_user_id topic = user ->
  head faults = None \/ head faults = Some None ->
  getTopic env topicId (mkSt s faults) = (Ok topic, mkSt s (tail faults)).
Proof.
  intros Hu Ht Ho Hf. unfold getTopic, requireUser, bind, external_call, get_db.
  rewrite Hu. simpl.
  destruct faults as [|[e|] rest]; simpl in *.
  - by rewrite Ht, Ho, Nat.eqb_refl.
  - by destruct Hf.
  - by rewrite Ht, Ho, Nat.eqb_refl.
Qed.

Lemma processDirectText_short (now textContent promptTitle : string) :
  String.length (trim textContent) < 10 ->
  processDirectText now textContent promptTitle
  = Throw (newError ("Failed to process text input: " +:+
      "Text input is too short. Please provide at least 10 characters of meaningful content.")).
Proof.
  intros Hshort. unfold processDirectText, try_catch_pure.
  apply Nat.ltb_lt in Hshort. by rewrite Hshort.
Qed.

(** A direct text of fewer than ten code units, white space at its ends
    not counted, is refused before anything is written: the store is as
    it was, whatever the faults, and the caller who owns the topic gets
    the message of the extraction layer under two prefixes, the one of
    that layer and the one of the service. *)
Theorem short_direct_text_is_refused (env : Env) (topicId : nat)
    (textContent promptTitle : string) (s : Store) (faults : list (option Error)) :
  String.length (trim textContent) < 10 ->
  (run (processDirectTextInput env topicId textContent promptTitle) s faults).2 = s
  /\ is_ok (run (processDirectTextInput env topicId textContent promptTitle) s
              faults).1 = false
  /\ (forall user topic,
        getUser env = Some user ->
        topics s !! topicId = Some topic ->
        topic_user_id topic = user ->
        head faults = None \/ head faults = Some None ->
        (run (processDirectTextInput env topicId textContent promptTitle) s
           faults).1
        = Throw (newError ("Failed to process text input: " +:+
            "Failed to process text input: " +:+
            "Text input is too short. Please provide at least 10 characters of meaningful content."))).
Proof.
  intros Hshort.
  assert (Hw : wps (processDirectTextInput env topicId textContent promptTitle) s
                 (fun r s' => s' = s /\ is_ok r = false)).
  { unfold processDirectTextInput.
    apply wps_bind, wps_requireUser; [done|intros user Hu].
    apply wps_bind, wps_getTopic. intros [topic|e]; [|done].
    rewrite (processDirectText_short _ _ _ Hshort). by wps_steps. }
  destruct (wps_run _ _ _ faults Hw) as [Hs Hr].
  split; [exact Hs|]. split; [exact Hr|].
  intros user topic Hu Ht Ho Hf.
  unfold run, processDirectTextInput, requireUser. rewrite Hu.
  erewrite IngestionProps.bind_ok by reflexivity.
  erewrite IngestionProps.bind_ok
    by (eapply getTopic_first; [exact Hu | exact Ht | exact Ho | exact Hf]).
  rewrite (processDirectText_short _ _ _ Hshort).
  reflexivity.
Qed.

Lemma short_direct_text_is_refused_witness :
  run (processDirectTextInput sampleEnv 1 "  too short  " "Note") sampleStore []
  = (Throw (newError ("Failed to process text input: " +:+
       "Failed to process text input: " +:+
       "Text input is too short. Please provide at least 10 characters of meaningful content.")),
     sampleStore).
Proof.
  pose proof (short_direct_text_is_refused sampleEnv 1 "  too short  " "Note"
                sampleStore []) as H.
  destruct H as (Hs & _ & Hm); [vm_compute; lia|].
  specialize (Hm 7 {| topic_user_id := 7; topic_name := "Biology" |}
                eq_refl eq_refl eq_refl (or_introl eq_refl)).
  destruct (run _ _ _) as [r s']. simpl in *. by subst.
Defined.

(** *** The knowledge base of selected sources *)

Lemma select_rows_NoDup {A} (p : nat -> A -> bool) (t : gmap nat A) :
  NoDup (select_rows p t).*1.
Proof.
  unfold select_rows.
  eapply sublist_NoDup; [apply (NoDup_fst_map_to_list t)|].
  apply fmap_sublist, sublist_filter.
Qed.

Lemma omap_nil_Forall {A B} (f : A -> option B) (l : list A) :
  omap f l = [] -> Forall (fun x => f x = None) l.
Proof.
  induction l as [|x l IH]; simpl; [constructor|].
  destruct (f x) eqn:Hx; [discriminate|]. intros Hl. constructor; auto.
Qed.

Lemma map_fst_fmap {A B} (l : list (A * B)) : map fst l = l.*1.
Proof. induction l as [|x l IH]; simpl; [done | by rewrite IH]. Qed.

(** Every way [getKnowledgeBaseBySourceIds] ends. *)
Lemma wps_knowledge_base_selected (env : Env) (topicId : nat)
    (sourceIds : list nat) (s : Store) (user : nat) :
  getUser env = Some user ->
  wps (getKnowledgeBaseBySourceIds env topicId sourceIds) s
    (fun r s' =>
       s' = s
       /\ forall rows, r = Ok rows ->
            NoDup rows.*1
            /\ forall k row,
                 (k, row) ∈ rows ->
                 knowledge_base s !! k = Some row
                 /\ kb_topic_id row = topicId /\ kb_user_id row = user
                 /\ linked_to_selection
                      (selected_sources s topicId user sourceIds) k row).
Proof.
  intros Hu.
  unfold getKnowledgeBaseBySourceIds.
  apply wps_bind, wps_requireUser; [done|].
  intros user' Hu'. rewrite Hu in Hu'. injection Hu' as <-.
  fold (selected_sources s topicId user sourceIds).
  set (selected := selected_sources s topicId user sourceIds).
  assert (Hdata : forall k row,
            (k, row) ∈ select_rows
              (fun _ r => (kb_topic_id r =? topicId) && (kb_user_id r =? user)
                  && (if 0 <? length (omap (fun kr : nat * Source =>
                                              src_document_id kr.2) selected)
                      then match kb_document_id r with
                           | Some d =>
                               bool_decide
                                 (d ∈ omap (fun kr : nat * Source =>
                                              src_document_id kr.2) selected)
                           | None => false
                           end
                      else true))
              (knowledge_base s) ->
            knowledge_base s !! k = Some row
            /\ kb_topic_id row = topicId /\ kb_user_id row = user
            /\ linked_to_selection selected k row).
  { intros k row [Hl Hp]%select_rows_elem.
    apply andb_true_iff in Hp as [[Ht Hown]%andb_true_iff Hdoc].
    apply Nat.eqb_eq in Ht, Hown.
    repeat split; try done.
    destruct (0 <? length _) eqn:Hlen.
    - left. destruct (kb_document_id row) as [d|]; [|discriminate].
      apply bool_decide_eq_true in Hdoc.
      apply list_elem_of_omap in Hdoc as (src & Hin & Hd).
      by exists src, d.
    - right. right. apply omap_nil_Forall.
      apply Nat.ltb_ge in Hlen. by apply length_zero_iff_nil; lia. }
  wps_steps; (split; [done|]); intros rows' Hr; try discriminate;
    injection Hr as <-.
  - split; [constructor | intros k row Hin; by apply elem_of_nil in Hin].
  - split.
    + rewrite fmap_app. apply NoDup_app.
      split; [apply select_rows_NoDup|].
      split.
      * intros k Hk [kr [-> Hkr]]%list_elem_of_fmap.
        apply list_elem_of_filter in Hkr as [Hnot _].
        apply Hnot. by rewrite map_fst_fmap.
      * eapply sublist_NoDup; [|apply fmap_sublist, sublist_filter].
        apply select_rows_NoDup.
    + intros k row [Hin|Hin]%elem_of_app; [by apply Hdata|].
      apply list_elem_of_filter in Hin as [_ Hin].
      apply select_rows_elem in Hin as [Hl Hp].
      apply andb_true_iff in Hp as [[Ht Hown]%andb_true_iff Hk].
      apply Nat.eqb_eq in Ht, Hown. apply bool_decide_eq_true in Hk.
      repeat split; try done.
      right. left.
      apply list_elem_of_omap in Hk as (src & Hsrc & Hkb).
      apply list_elem_of_filter in Hsrc as [Htext Hsrc].
      exists src. split; [done|]. split; [|done].
      by apply String.eqb_eq.
  - split; [apply select_rows_NoDup | exact Hdata].
Qed.

(** The rows [getKnowledgeBaseBySourceIds] returns are rows of the
    knowledge base of that topic and of the session user, each once, and
    each is linked to the selection: by the document of a selected source,
    or because a selected text source names it.  One case is left: when
    no selected source has a document, the rows are not narrowed by
    document, and rows of other sources of the topic come back too.  The
    call does not change the store. *)
Theorem knowledge_base_of_selected_sources (env : Env) (topicId : nat)
    (sourceIds : list nat) (s : Store) (faults : list (option Error))
    (user : nat) (rows : list (nat * KnowledgeBaseRow)) :
  getUser env = Some user ->
  (run (getKnowledgeBaseBySourceIds env topicId sourceIds) s faults).1 = Ok rows ->
  (run (getKnowledgeBaseBySourceIds env topicId sourceIds) s faults).2 = s
  /\ NoDup rows.*1
  /\ forall k row,
       (k, row) ∈ rows ->
       knowledge_base s !! k = Some row
       /\ kb_topic_id row = topicId /\ kb_user_id row = user
       /\ linked_to_selection (selected_sources s topicId user sourceIds) k row.
Proof.
  intros Hu Hr.
  destruct (wps_run _ _ _ faults
              (wps_knowledge_base_selected env topicId sourceIds s user Hu))
    as [Hs Hrows].
  split; [exact Hs|]. by apply Hrows.
Qed.

Lemma knowledge_base_of_selected_sources_witness :
  (run (getKnowledgeBaseBySourceIds sampleEnv 1 [10; 20]) sampleStore []).1
  = Ok [(200, sampleKnowledge 1 100 "a.txt" "Cells divide by mitosis.")]
  /\ NoDup [200].
Proof.
  split; [vm_compute; reflexivity|].
  apply (knowledge_base_of_selected_sources sampleEnv 1 [10; 20] sampleStore [] 7
           [(200, sampleKnowledge 1 100 "a.txt" "Cells divide by mitosis.")]
           eq_refl).
  vm_compute. reflexivity.
Defined.

(** *** Uploads *)

Lemma wps_uploadFile (env : Env) (topicId : nat) (file : File) (s : Store) :
  wps (uploadFile env topicId file) s (upload_post env topicId file s).
Proof.
  unfold upload_post.
  unfold uploadFile, maxRetries, authLoop, storage_upload, storage_remove,
    rpc_simple_insert_document, getFileUrl, getUser.
  destruct (auth env) as [user| |e] eqn:Hauth; simpl.
  2,3: wps_steps; (split; [by repeat split|]); split; [done | by left].
  wps_steps;
    repeat match goal with
           | H : insert_row _ _ = _ |- _ => injection H as <- <-
           end;
    store_simpl;
    (split; [by repeat split|]).
  1,2: by split; [|left].
  - split; [done|]. right. by exists user.
  - split; [done|]. left. by rewrite delete_insert_id.
  - split; [done|]. left. by rewrite delete_insert_id.
  - split; [done|]. left. rewrite delete_insert_id by done. by apply delete_id.
  - exists user. cbn [storagePath documentId]. repeat split; try done.
    apply not_elem_of_dom, is_fresh.
  - exists user. cbn [storagePath documentId]. repeat split; try done.
    apply not_elem_of_dom, is_fresh.
  - exists user. cbn [storagePath documentId]. repeat split; try done.
    apply not_elem_of_dom, is_fresh.
Qed.


Lemma map_chars_length (f : ascii -> ascii) (s : string) :
  String.length (map_chars f s) = String.length s.
Proof. induction s as [|c s IH]; simpl; [done | by rewrite IH]. Qed.

Lemma map_chars_all (f : ascii -> ascii) (p : ascii -> bool) (s : string) :
  (forall c, p (f c) = true) -> all_chars p (map_chars f s) = true.
Proof.
  intros Hf. induction s as [|c s IH]; simpl; [done | by rewrite Hf, IH].
Qed.

Lemma map_chars_id (f : ascii -> ascii) (p : ascii -> bool) (s : string) :
  (forall c, p c = true -> f c = c) -> all_chars p s = true -> map_chars f s = s.
Proof.
  intros Hf. induction s as [|c s IH]; simpl; [done|].
  intros [Hc Hs]%andb_true_iff. by rewrite (Hf c Hc), IH.
Qed.

(** The name under which a file is stored has the length of the file's
    name and holds only letters, digits, full stops, hyphens and
    underscores, so no slash of the name reaches the storage path; a name
    made of letters, digits, full stops and hyphens is kept as it is, and
    sanitising twice changes nothing more.  The id of a video is treated
    alike, with the underscore in place of the full stop. *)
Theorem sanitised_names_are_safe :
  (forall name,
     String.length (sanitizeFileName name) = String.length name
     /\ all_chars is_safe_char (sanitizeFileName name) = true
     /\ all_chars (fun c => negb (Ascii.eqb c "/")) (sanitizeFileName name) = true
     /\ (all_chars is_name_char name = true -> sanitizeFileName name = name)
     /\ sanitizeFileName (sanitizeFileName name) = sanitizeFileName name)
  /\ (forall videoId,
        String.length (sanitizeVideoId videoId) = String.length videoId
        /\ all_chars is_id_char (sanitizeVideoId videoId) = true
        /\ (all_chars is_id_char videoId = true -> sanitizeVideoId videoId = videoId)
        /\ sanitizeVideoId (sanitizeVideoId videoId) = sanitizeVideoId videoId).
Proof.
  assert (Hsafe : forall name, all_chars is_safe_char (sanitizeFileName name) = true).
  { intros name. apply map_chars_all. intros c. fold (is_name_char c).
    destruct (is_name_char c) eqn:Hc; [|done].
    unfold is_safe_char. by rewrite Hc. }
  assert (Hid : forall videoId, all_chars is_id_char (sanitizeVideoId videoId) = true).
  { intros videoId. apply map_chars_all. intros c.
    by destruct (is_id_char c) eqn:Hc. }
  split.
  - intros name. split; [apply map_chars_length|]. split; [apply Hsafe|].
    split.
    { eapply VideoIdProps.all_chars_impl; [|apply Hsafe].
      intros c. destruct c as [[] [] [] [] [] [] [] []]; vm_compute; congruence. }
    split.
    { apply map_chars_id. intros c Hc. fold (is_name_char c). by rewrite Hc. }
    apply (map_chars_id _ is_safe_char); [|apply Hsafe].
    intros c. fold (is_name_char c).
    destruct c as [[] [] [] [] [] [] [] []]; vm_compute; congruence.
  - intros videoId. split; [apply map_chars_length|]. split; [apply Hid|].
    split.
    { apply map_chars_id. intros c Hc. by rewrite Hc. }
    apply (map_chars_id _ is_id_char); [|apply Hid].
    intros c Hc. by rewrite Hc.
Qed.

(** *** Sessions *)

Lemma no_user_throws {A} (env : Env) (k : nat -> M A) (s : Store) :
  getUser env = None ->
  wps (user <- requireUser env ;; k user) s (fun r s' => s' = s /\ is_ok r = false).
Proof.
  intros Hu. apply wps_bind. unfold requireUser. rewrite Hu. by apply wps_throw.
Qed.

(** Without a signed-in user no call writes: the generation paths, the
    upload of a file, the ingestion of text and of a video, the saving of
    a question and the review of a flashcard all throw and leave the
    store as it was, whatever the faults. *)
Theorem no_session_no_write (env : Env) (call : ServiceCall) (s : Store)
    (faults : list (option Error)) :
  getUser env = None -> effect env call s faults = s.
Proof.
  intros Hu.
  destruct call as [[topicId|topicId sourceIds|topicId textContent promptTitle]
                    |topicId file|topicId contentText sourceName|topicId url
                    |questionId|questionId known]; simpl effect.
  1-3,5-8:
    match goal with
    | |- (run ?m ?s0 ?fs).2 = _ =>
        apply (wps_run m s0 (fun r s' => s' = s0 /\ is_ok r = false) fs);
        by apply no_user_throws
    end.
  apply (wps_run _ _ (fun _ s' => s' = s) faults).
  unfold uploadFile, maxRetries, authLoop. unfold getUser in Hu.
  destruct (auth env); [discriminate | |]; simpl; by wps_steps.
Qed.

Lemma no_session_no_write_witness :
  effect signedOutEnv (Upload 1 sampleFile) sampleStore [None; Some storageError]
  = sampleStore.
Proof.
  apply (no_session_no_write signedOutEnv (Upload 1 sampleFile) sampleStore
           [None; Some storageError]).
  reflexivity.
Defined.

(** *** Generations that fail *)

Section Failures.

Variable env : Env.




Lemma wps_logAndRethrow_failure (marks : bool) (topicId : nat) (e : Error)
    (s0 s : Store) :
  failure_post marks s0 (Throw e) s ->
  wps (logAndRethrow env topicId e) s (failure_post marks s0).
Proof. intros H. by apply wps_logAndRethrow. Qed.

Lemma failure_post_unchanged (marks : bool) (s0 : Store)
    (r : Outcome GenerationResult) :
  failure_post marks s0 r s0.
Proof. destruct r; [done | by left]. Qed.




End Failures.



(** No step is undone: when the insertion of the generation items fails,
    the two questions of the run are in the pool already and stay there,
    attributed to a generation that is marked failed and counts no
    items. *)
Example questions_outlive_a_failed_run :
  status <$> generations interruptedStore !! 0 = Some Failed
  /\ items_generated <$> generations interruptedStore !! 0 = Some 0
  /\ size (questions interruptedStore) = 2
  /\ map_Forall (fun _ q => q_generation_id q = Some 0) (questions interruptedStore)
  /\ generation_items interruptedStore = ∅.
Proof.
  split; [vm_compute; reflexivity|]. split; [vm_compute; reflexivity|].
  split; [vm_compute; reflexivity|]. split; [|vm_compute; reflexivity].
  apply map_Forall_to_list. vm_compute. by repeat constructor.
Qed.

(** *** Topics without content *)

Lemma requireApiKey_configured (env : Env) (key : string) (st : St) :
  VITE_OPENAI_API_KEY env = Some key -> is_empty key = false ->
  requireApiKey env st = (Ok key, st).
Proof. intros Hk He. unfold requireApiKey. by rewrite Hk, He. Qed.

Lemma getSources_quiet (env : Env) (topicId user : nat) (s : Store) :
  getUser env = Some user ->
  getSources env topicId (mkSt s [])
  = (Ok (select_rows
           (fun _ r => (src_topic_id r =? topicId) && (src_user_id r =? user))
           (sources s)), mkSt s []).
Proof. intros Hu. unfold getSources, requireUser. by rewrite Hu. Qed.

Lemma getKnowledgeBase_quiet (env : Env) (topicId user : nat) (s : Store) :
  getUser env = Some user ->
  getKnowledgeBase env topicId (mkSt s [])
  = (Ok (topic_knowledge s topicId user), mkSt s []).
Proof. intros Hu. unfold getKnowledgeBase, requireUser. by rewrite Hu. Qed.

Lemma getTopic_quiet (env : Env) (topicId user : nat) (topic : Topic) (s : Store) :
  getUser env = Some user ->
  topics s !! topicId = Some topic ->
  topic_user_id topic = user ->
  getTopic env topicId (mkSt s []) = (Ok topic, mkSt s []).
Proof.
  intros Hu Ht Ho.
  by rewrite (getTopic_first env topicId user topic s []); [| | | |left].
Qed.

Lemma generateAIContent_nothing (topicName apiKey : string)
    (response : CompletionResponse) :
  FileProcessingService.generateAIContent topicName [] apiKey response
  = Throw (newError "No content available for AI processing").
Proof. reflexivity. Qed.

Lemma getKnowledgeBaseBySourceIds_quiet (env : Env) (topicId user : nat)
    (sourceIds : list nat) (s : Store) :
  getUser env = Some user ->
  exists rows,
    getKnowledgeBaseBySourceIds env topicId sourceIds (mkSt s [])
    = (Ok rows, mkSt s []).
Proof.
  intros Hu. unfold getKnowledgeBaseBySourceIds, requireUser, bind. rewrite Hu.
  simpl.
  destruct (length _ =? 0); [by eexists|]. simpl.
  destruct (0 <? length (omap (fun kr : nat * Source => knowledge_base_id kr.2) _));
    by eexists.
Qed.

Lemma topic_knowledge_elem (s : Store) (topicId user k : nat)
    (row : KnowledgeBaseRow) :
  knowledge_base s !! k = Some row ->
  kb_topic_id row = topicId -> kb_user_id row = user ->
  (k, row) ∈ topic_knowledge s topicId user.
Proof.
  intros Hk <- <-. apply select_rows_elem. split; [done|].
  by rewrite !Nat.eqb_refl.
Qed.

Lemma createGeneration_quiet (env : Env) (topicId user : nat)
    (ty : GenerationType) (ids : list nat) (st : Status) (s : Store) :
  getUser env = Some user ->
  createGeneration env topicId ty ids st (mkSt s [])
  = (Ok (fresh (dom (generations s)),
         {| gen_topic_id := topicId; gen_user_id := user;
            generation_type := ty; source_ids := ids; status := st;
            items_generated := 0; gen_breakdown := None;
            error_message := None; completed_at := None;
            processing_time_ms := None |}),
     mkSt (with_generations
             (fun _ => <[fresh (dom (generations s)) :=
                  {| gen_topic_id := topicId; gen_user_id := user;
                     generation_type := ty; source_ids := ids; status := st;
                     items_generated := 0; gen_breakdown := None;
                     error_message := None; completed_at := None;
                     processing_time_ms := None |}]> (generations s)) s) []).
Proof. intros Hu. unfold createGeneration, requireUser. by rewrite Hu. Qed.

(** A topic without content.  The bulk path refuses a topic without
    sources before it writes anything.  For a topic that has sources but
    no row in the knowledge base, the two paths differ: the selective
    path throws before it creates a generation, and the bulk path creates
    one, finds nothing to send and leaves it marked failed. *)
Theorem generation_without_content :
  (forall env topicId s faults,
     topic_source_ids env s topicId = [] ->
     (run (SupabaseService.generateAIContent env topicId) s faults).2 = s
     /\ is_ok (run (SupabaseService.generateAIContent env topicId) s faults).1
        = false)
  /\ (forall env topicId s user key topic,
        getUser env = Some user ->
        VITE_OPENAI_API_KEY env = Some key -> is_empty key = false ->
        topics s !! topicId = Some topic -> topic_user_id topic = user ->
        topic_knowledge s topicId user = [] ->
        (topic_source_ids env s topicId <> [] ->
         run (SupabaseService.generateAIContent env topicId) s []
         = (Throw (newError "No content available for AI processing"),
            with_generations
              (insert (fresh (dom (generations s)))
                 (emptyHandedGeneration topicId user
                    (topic_source_ids env s topicId))) s))
        /\ (forall sourceIds,
              resolved_ids env s topicId sourceIds <> [] ->
              run (generateAIContentFromSources env topicId sourceIds) s []
              = (Throw (newError "No content found for the selected sources."),
                 s))).
Proof.
  split.
  { intros env topicId s faults Hnone.
    apply (wps_run _ _ (fun r s' => s' = s /\ is_ok r = false) faults).
    unfold SupabaseService.generateAIContent.
    apply wps_bind, wps_requireUser; [done|intros user Hu].
    apply wps_bind, wps_requireApiKey.
    intros [apiKey|e]; [|done].
    apply wps_try_catch, wps_bind, wps_getSources.
    { intros e. by apply wps_logAndRethrow. }
    intros user' Hu'. rewrite Hu in Hu'. injection Hu' as <-.
    unfold topic_source_ids in Hnone. rewrite Hu in Hnone.
    apply map_eq_nil in Hnone. rewrite Hnone. simpl.
    by apply wps_throw, wps_logAndRethrow. }
  intros env topicId s user key topic Hu Hk Hke Ht Ho Hkb.
  split.
  { intros Hsrc.
    unfold topic_source_ids in *. rewrite Hu in *.
    set (rows := select_rows _ (sources s)) in *.
    assert (Hlen : (length rows =? 0) = false).
    { apply Nat.eqb_neq. destruct rows; [done | simpl; lia]. }
    unfold run, SupabaseService.generateAIContent, requireUser. rewrite Hu.
    erewrite IngestionProps.bind_ok by reflexivity.
    erewrite IngestionProps.bind_ok by (by apply requireApiKey_configured).
    erewrite IngestionProps.try_catch_throw.
    2: { erewrite IngestionProps.bind_ok by (by apply getSources_quiet).
         fold rows. cbv beta zeta. rewrite Hlen.
         erewrite IngestionProps.bind_ok by (by apply getKnowledgeBase_quiet).
         erewrite IngestionProps.bind_ok by (by eapply getTopic_quiet).
         erewrite IngestionProps.bind_ok by (by apply createGeneration_quiet).
         rewrite Hkb. unfold generateAndStore.
         erewrite IngestionProps.try_catch_throw
           by (erewrite IngestionProps.bind_throw; [reflexivity|];
               by rewrite IngestionProps.lift_run, generateAIContent_nothing).
         unfold markFailed, updateGeneration, requireUser. rewrite Hu.
         unfold bind, external_call, throw_if_error, get_db, ret, modify_db, throw.
         cbn [pending db generations with_generations].
         rewrite lookup_insert_eq. cbn [gen_user_id]. rewrite Nat.eqb_refl.
         reflexivity. }
    unfold logAndRethrow, try_catch, bind.
    erewrite getTopic_quiet; [|exact Hu| |exact Ho].
    2: { cbn [db topics with_generations]. exact Ht. }
    unfold throw. cbn [db]. f_equal.
    unfold with_generations, emptyHandedGeneration, applyGenerationUpdates.
    cbn. by rewrite insert_insert_eq. }
  intros sourceIds Hres.
  destruct (getKnowledgeBaseBySourceIds_quiet env topicId user
              (resolved_ids env s topicId sourceIds) s Hu) as [rows Hrows].
  assert (Hnil : rows = []).
  { pose proof (wps_knowledge_base_selected env topicId
                  (resolved_ids env s topicId sourceIds) s user Hu []) as [_ H].
    rewrite Hrows in H. destruct (H rows eq_refl) as [_ Hin].
    destruct rows as [|[k row] rows]; [done|].
    destruct (Hin k row) as (Hl & Htopic & Hown & _); [left|].
    pose proof (topic_knowledge_elem s topicId user k row Hl Htopic Hown) as He.
    rewrite Hkb in He. by apply elem_of_nil in He. }
  subst rows.
  unfold run, generateAIContentFromSources, requireUser. rewrite Hu.
  erewrite IngestionProps.bind_ok by reflexivity.
  erewrite IngestionProps.bind_ok by (by apply requireApiKey_configured).
  erewrite IngestionProps.try_catch_throw.
  2: { erewrite IngestionProps.bind_ok by (by apply getSources_quiet).
       cbv beta zeta. rewrite (valid_ids_resolved env _ _ _ _ Hu).
       assert (Hlen : (length (resolved_ids env s topicId sourceIds) =? 0) = false).
       { apply Nat.eqb_neq. destruct (resolved_ids _ _ _ _); [done | simpl; lia]. }
       rewrite Hlen.
       erewrite IngestionProps.bind_ok by exact Hrows.
       reflexivity. }
  unfold logAndRethrow, try_catch, bind.
  by erewrite getTopic_quiet.
Qed.

Lemma generation_without_content_witness :
  (run (SupabaseService.generateAIContent sampleEnv 1) unfedStore []).1
  = Throw (newError "No content available for AI processing")
  /\ run (generateAIContentFromSources sampleEnv 1 [10; 11]) unfedStore []
     = (Throw (newError "No content found for the selected sources."), unfedStore).
Proof.
  destruct (proj2 generation_without_content sampleEnv 1 unfedStore 7 "sk-test"
              {| topic_user_id := 7; topic_name := "Biology" |}
              eq_refl eq_refl eq_refl eq_refl eq_refl eq_refl) as [Hbulk Hsel].
  split.
  - rewrite Hbulk; [reflexivity|]. vm_compute. discriminate.
  - apply Hsel. vm_compute. discriminate.
Defined.

(** *** Faults during a review and during an ingestion *)



Lemma addToKnowledgeBase_fails (env : Env) (topicId user : nat)
    (extracted : ExtractedContent) (documentId : option nat) (s : Store)
    (e : Error) (rest : list (option Error)) :
  getUser env = Some user ->
  addToKnowledgeBase env topicId extracted documentId (mkSt s (Some e :: rest))
  = (Throw e, mkSt s rest).
Proof. intros Hu. unfold addToKnowledgeBase, requireUser. by rewrite Hu. Qed.

Lemma addToKnowledgeBase_stores (env : Env) (topicId user : nat)
    (extracted : ExtractedContent) (documentId : option nat) (s : Store)
    (rest : list (option Error)) :
  getUser env = Some user ->
  addToKnowledgeBase env topicId extracted documentId (mkSt s (None :: rest))
  = (Ok (fresh (dom (knowledge_base s)),
         {| kb_topic_id := topicId; kb_user_id := user;
            kb_document_id := documentId;
            kb_type := type extracted; kb_source := source extracted;
            kb_content := extractedText extracted;
            kb_metadata := metadata extracted |}),
     mkSt (with_knowledge_base
             (fun _ => <[fresh (dom (knowledge_base s)) :=
                  {| kb_topic_id := topicId; kb_user_id := user;
                     kb_document_id := documentId;
                     kb_type := type extracted; kb_source := source extracted;
                     kb_content := extractedText extracted;
                     kb_metadata := metadata extracted |}]> (knowledge_base s))
             s) rest).
Proof. intros Hu. unfold addToKnowledgeBase, requireUser. by rewrite Hu. Qed.

Lemma createSource_fails (env : Env) (topicId user : nat) (documentId : option nat)
    (sourceType sourceName : string) (originalName fileType : option string)
    (fileSize wc : option nat) (meta : Metadata) (knowledgeBaseId : option nat)
    (s : Store) (e : Error) (rest : list (option Error)) :
  getUser env = Some user ->
  createSource env topicId documentId sourceType sourceName originalName fileType
    fileSize wc meta knowledgeBaseId (mkSt s (Some e :: rest))
  = (Throw e, mkSt s rest).
Proof. intros Hu. unfold createSource, requireUser. by rewrite Hu. Qed.

Lemma rpc_simple_insert_document_stores (env : Env) (topicId user : nat)
    (docTitle : string) (docContent : option string) (fileSize : nat)
    (fileType : string) (path : option string) (s : Store)
    (rest : list (option Error)) :
  getUser env = Some user ->
  rpc_simple_insert_document env topicId docTitle docContent fileSize fileType path
    (mkSt s (None :: rest))
  = (Ok (Ok (fresh (dom (documents s)))),
     mkSt (with_documents
             (fun _ => <[fresh (dom (documents s)) :=
                  {| doc_topic_id := topicId; doc_user_id := Some user;
                     filename := docTitle; storage_path := path;
                     file_type := fileType; file_size := fileSize;
                     doc_source_type := None; doc_content := docContent |}]>
                (documents s)) s) rest).
Proof. intros Hu. unfold rpc_simple_insert_document. by rewrite Hu. Qed.

(** The ingestion of a pasted text undoes nothing.  When the insertion
    into the knowledge base fails, the document row that was written
    before it stays, without a row in the knowledge base and without a
    source; when the insertion of the source fails, the document and the
    row of the knowledge base stay.  Either way the caller gets the
    message of the failed insertion. *)
Theorem text_ingestion_is_not_undone (env : Env) (topicId user : nat)
    (topic : Topic) (contentText sourceName : string) (s : Store) (e : Error)
    (rest : list (option Error)) :
  getUser env = Some user ->
  topics s !! topicId = Some topic ->
  topic_user_id topic = user ->
  run (processTextContent env topicId contentText sourceName) s
    (None :: None :: Some e :: rest)
  = (Throw (newError ("Failed to process text content: " +:+ message e)),
     with_documents
       (insert (fresh (dom (documents s)))
          (textDocument topicId user contentText sourceName)) s)
  /\ run (processTextContent env topicId contentText sourceName) s
       (None :: None :: None :: Some e :: rest)
     = (Throw (newError ("Failed to process text content: " +:+ message e)),
        with_knowledge_base
          (insert (fresh (dom (knowledge_base s)))
             (textKnowledge topicId user (fresh (dom (documents s))) contentText
                sourceName))
          (with_documents
             (insert (fresh (dom (documents s)))
                (textDocument topicId user contentText sourceName)) s)).
Proof.
  intros Hu Ht Ho. split.
  - unfold run, processTextContent, requireUser. rewrite Hu.
    erewrite IngestionProps.bind_ok by reflexivity.
    erewrite IngestionProps.bind_ok
      by (eapply IngestionProps.getTopic_found; [exact Hu | exact Ht | exact Ho]).
    erewrite IngestionProps.try_catch_throw.
    2: { erewrite IngestionProps.bind_ok
           by (eapply rpc_simple_insert_document_stores; exact Hu).
         cbv beta iota zeta.
         erewrite IngestionProps.bind_throw; [reflexivity|].
         eapply addToKnowledgeBase_fails; exact Hu. }
    reflexivity.
  - unfold run, processTextContent, requireUser. rewrite Hu.
    erewrite IngestionProps.bind_ok by reflexivity.
    erewrite IngestionProps.bind_ok
      by (eapply IngestionProps.getTopic_found; [exact Hu | exact Ht | exact Ho]).
    erewrite IngestionProps.try_catch_throw.
    2: { erewrite IngestionProps.bind_ok
           by (eapply rpc_simple_insert_document_stores; exact Hu).
         cbv beta iota zeta.
         erewrite IngestionProps.bind_ok by (eapply addToKnowledgeBase_stores; exact Hu).
         erewrite IngestionProps.bind_throw; [reflexivity|].
         eapply createSource_fails; exact Hu. }
    reflexivity.
Qed.

Lemma text_ingestion_is_not_undone_witness :
  size (documents
          (run (processTextContent sampleEnv 1 "Hello world, this is a test."
                  "Pasted Text") sampleStore
             [None; None; Some constraintError]).2) = 1
  /\ sources
       (run (processTextContent sampleEnv 1 "Hello world, this is a test."
               "Pasted Text") sampleStore
          [None; None; Some constraintError]).2
     = sources sampleStore.
Proof.
  rewrite (proj1 (text_ingestion_is_not_undone sampleEnv 1 7
                    {| topic_user_id := 7; topic_name := "Biology" |}
                    "Hello world, this is a test." "Pasted Text" sampleStore
                    constraintError [] eq_refl eq_refl eq_refl)).
  split; vm_compute; reflexivity.
Defined.

End ServiceProps.

(** ** The strategies for uploaded files *)

Module FilesProps.

Import Js JsText FileProcessingService FileStrategies Vocabulary Notions JsFacts.

(** *** Names and extensions *)

Lemma toLowerCase_app (a b : string) :
  toLowerCase (a +:+ b) = toLowerCase a +:+ toLowerCase b.
Proof. induction a as [|c a IH]; simpl; [done | by rewrite IH]. Qed.

Lemma toLowerChar_idem (c : ascii) : toLowerChar (toLowerChar c) = toLowerChar c.
Proof. destruct c as [[] [] [] [] [] [] [] []]; vm_compute; reflexivity. Qed.

Lemma toLowerCase_idem (s : string) : toLowerCase (toLowerCase s) = toLowerCase s.
Proof.
  induction s as [|c s IH]; simpl; [done | by rewrite toLowerChar_idem, IH].
Qed.

Lemma toLowerChar_dot (c : ascii) :
  Ascii.eqb (toLowerChar c) "." = Ascii.eqb c ".".
Proof. destruct c as [[] [] [] [] [] [] [] []]; vm_compute; reflexivity. Qed.

Lemma dot_free_toLowerCase (s : string) :
  dot_free (toLowerCase s) = dot_free s.
Proof.
  unfold dot_free. induction s as [|c s IH]; simpl; [done|].
  by rewrite toLowerChar_dot, IH.
Qed.

Lemma split_on_free (sep : ascii) (s : string) :
  all_chars (fun c => negb (Ascii.eqb c sep)) s = true -> split_on sep s = [s].
Proof.
  induction s as [|c s IH]; simpl; [done|].
  intros [Hc Hs]%andb_true_iff. apply negb_true_iff in Hc.
  by rewrite Hc, (IH Hs).
Qed.

(** The last piece of a text that ends with a separator and a text
    without separators is that text. *)
Lemma pop_split_on (sep : ascii) (stem ext : string) :
  all_chars (fun c => negb (Ascii.eqb c sep)) ext = true ->
  exists piece pieces,
    split_on sep (stem +:+ String sep ext) = piece :: pieces
    /\ pieces <> [] /\ List.last pieces EmptyString = ext.
Proof.
  intros Hext. induction stem as [|c stem IH].
  - change (EmptyString +:+ String sep ext) with (String sep ext).
    cbn [split_on]. rewrite Ascii.eqb_refl, (split_on_free _ _ Hext).
    by exists EmptyString, [ext].
  - destruct IH as (piece & pieces & Hs & Hne & Hl).
    change (String c stem +:+ String sep ext)
      with (String c (stem +:+ String sep ext)).
    cbn [split_on]. rewrite Hs.
    destruct (Ascii.eqb c sep).
    + exists EmptyString, (piece :: pieces). split; [done|]. split; [done|].
      destruct pieces; [done | exact Hl].
    + by exists (String c piece), pieces.
Qed.

Lemma pop_extension (stem ext : string) :
  dot_free ext = true -> pop (split_on "." (stem +:+ "." +:+ ext)) = ext.
Proof.
  intros Hext.
  destruct (pop_split_on "." stem ext Hext) as (piece & pieces & Hs & Hne & Hl).
  change ("." +:+ ext) with (String "." ext). rewrite Hs. unfold pop.
  destruct pieces; [done | exact Hl].
Qed.

(** The label of a file depends on nothing but what follows the last full
    stop of its name, and not on the case of it: a name whose extension,
    in lower case, is a key of the map of languages gets the label of
    that key, whatever precedes the full stop; an extension that is no
    key gives [Unknown] unless it names a member the map inherits. *)
Theorem detectLanguage_reads_the_extension (stem ext : string) :
  dot_free ext = true ->
  detectLanguage (stem +:+ "." +:+ ext) = detectLanguage ext
  /\ detectLanguage (toLowerCase ext) = detectLanguage ext
  /\ (forall label,
        ownProperty (toLowerCase ext) languageMap = Some label ->
        detectLanguage (stem +:+ "." +:+ ext) = Language label)
  /\ (ownProperty (toLowerCase ext) languageMap = None ->
      toLowerCase ext <> "constructor" -> toLowerCase ext <> "__proto__" ->
      detectLanguage (stem +:+ "." +:+ ext) = Language "Unknown").
Proof.
  intros Hext.
  assert (Hpop : pop (split_on "." (toLowerCase (stem +:+ "." +:+ ext)))
                 = toLowerCase ext).
  { rewrite !toLowerCase_app.
    change (toLowerCase ".") with ".".
    apply pop_extension. by rewrite dot_free_toLowerCase. }
  assert (Hself : pop (split_on "." (toLowerCase ext)) = toLowerCase ext).
  { rewrite split_on_free; [done|].
    fold (dot_free (toLowerCase ext)). by rewrite dot_free_toLowerCase. }
  assert (Hsame : detectLanguage (stem +:+ "." +:+ ext) = detectLanguage ext).
  { unfold detectLanguage. by rewrite Hpop, Hself. }
  split; [exact Hsame|]. split.
  { unfold detectLanguage. by rewrite toLowerCase_idem. }
  split.
  - intros label Hl. rewrite Hsame. unfold detectLanguage. by rewrite Hself, Hl.
  - intros Hnone Hc Hp. rewrite Hsame. unfold detectLanguage.
    rewrite Hself, Hnone.
    apply String.eqb_neq in Hc, Hp. by rewrite Hc, Hp.
Qed.

Lemma detectLanguage_reads_the_extension_witness :
  detectLanguage "archive.tar.JS" = Language "JavaScript".
Proof.
  apply (proj1 (proj2 (proj2 (detectLanguage_reads_the_extension "archive.tar" "JS"
                                eq_refl)))).
  reflexivity.
Defined.

(** *** Text files *)

Lemma length_append (a b : string) :
  String.length (a +:+ b) = String.length a + String.length b.
Proof. induction a as [|c a IH]; simpl; [done | by rewrite IH]. Qed.

Lemma endsWith_split (s suffix : string) :
  endsWith s suffix = true <-> exists p, s = p +:+ suffix.
Proof.
  split.
  - induction s as [|c s IH]; cbn [endsWith].
    + rewrite orb_false_r. intros ->%String.eqb_eq. by exists EmptyString.
    + intros [->%String.eqb_eq|H]%orb_true_iff; [by exists EmptyString|].
      destruct (IH H) as [p ->]. by exists (String c p).
  - intros [p ->]. induction p as [|c p IH].
    + change (EmptyString +:+ suffix) with suffix.
      destruct suffix; cbn [endsWith]; by rewrite String.eqb_refl.
    + change (String c p +:+ suffix) with (String c (p +:+ suffix)).
      cbn [endsWith]. rewrite IH. apply orb_true_r.
Qed.

Lemma common_end (p q a b : string) :
  p +:+ a = q +:+ b -> String.length a <= String.length b ->
  exists r, b = r +:+ a.
Proof.
  revert q. induction p as [|c p IH]; intros q Heq Hlen.
  - change (EmptyString +:+ a) with a in Heq. subst a.
    rewrite length_append in Hlen.
    destruct q; [by exists EmptyString | simpl in Hlen; lia].
  - destruct q as [|c' q].
    + change (EmptyString +:+ b) with b in Heq. subst b. by exists (String c p).
    + injection Heq as -> Heq. by apply (IH q).
Qed.

Lemma endsWith_both (s a b : string) :
  endsWith s a = true -> endsWith s b = true ->
  String.length a <= String.length b -> endsWith b a = true.
Proof.
  intros [p ->]%endsWith_split [q Hq]%endsWith_split Hlen.
  apply endsWith_split. by apply (common_end p q).
Qed.

Lemma endsWith_pop (s ext : string) :
  dot_free ext = true -> endsWith s ("." +:+ ext) = true ->
  pop (split_on "." s) = ext.
Proof.
  intros Hext [p ->]%endsWith_split. by apply pop_extension.
Qed.

Lemma includes_prefix (p s : string) :
  String.prefix p s = true -> includes p s = true.
Proof. intros H. destruct s; cbn [includes]; by rewrite H. Qed.

Lemma includes_app (p a b : string) : includes p (a +:+ p +:+ b) = true.
Proof.
  induction a as [|c a IH].
  - change (EmptyString +:+ p +:+ b) with (p +:+ b).
    apply includes_prefix, ExtractionProps.prefix_append.
  - change (String c a +:+ p +:+ b) with (String c (a +:+ p +:+ b)).
    cbn [includes]. rewrite IH. apply orb_true_r.
Qed.

Lemma includes_skip (p a s : string) :
  includes p s = true -> includes p (a +:+ s) = true.
Proof.
  intros H. induction a as [|c a IH]; [done|].
  change (String c a +:+ s) with (String c (a +:+ s)).
  cbn [includes]. rewrite IH. apply orb_true_r.
Qed.

Lemma includes_here (p b : string) : includes p (p +:+ b) = true.
Proof. apply includes_prefix, ExtractionProps.prefix_append. Qed.

Lemma prefix_self (s : string) : String.prefix s s = true.
Proof.
  induction s as [|c s IH]; simpl; [done|].
  destruct (ascii_dec c c); [exact IH | congruence].
Qed.

(** Find [p] among the pieces of a concatenation. *)
Ltac find_piece :=
  repeat first [apply includes_here | apply includes_skip].

Lemma htm_is_unknown (fileName : string) :
  endsWith (toLowerCase fileName) ".htm" = true ->
  detectLanguage fileName = Language "Unknown".
Proof.
  intros H. unfold detectLanguage.
  by rewrite (endsWith_pop _ "htm" eq_refl H).
Qed.

(** What the text strategy does with a file.  A file whose text is blank
    is refused, and so is a file that cannot be read.  Any other file is
    accepted, whatever its name: the word count is the one of the text of
    the file, not of the framed text, and the text of the file is part of
    the extracted text unless the file is JSON that parses.  A file
    without an extension that the strategy frames is kept as it is.  A
    file with the extension [htm] is framed as an HTML document whose
    type line reads [Unknown], since the map of languages has no such
    key. *)
Theorem text_file_outcomes (file : File) (text : string)
    (parsed : option (JsonValue * string)) :
  (is_empty (trim text) = true ->
   extractTextFromTextFile file (Ok text) parsed
   = Throw (newError ("Failed to extract text from file: "
                      +:+ "File appears to be empty")))
  /\ (forall e,
        extractTextFromTextFile file (Throw e) parsed
        = Throw (newError ("Failed to extract text from file: " +:+ message e)))
  /\ (is_empty (trim text) = false ->
      (exists c,
         extractTextFromTextFile file (Ok text) parsed = Ok c
         /\ source c = name file
         /\ wordCount (metadata c) = splitCount text
         /\ (endsWith (toLowerCase (name file)) ".json" = false \/ parsed = None ->
             includes text (extractedText c) = true))
      /\ (plainName (name file) = true ->
          extractTextFromTextFile file (Ok text) parsed
          = Ok {| type := "document"; source := name file;
                  extractedText := text;
                  metadata := textFileMetadata file text "Text Document" |})
      /\ (endsWith (toLowerCase (name file)) ".htm" = true ->
          extractTextFromTextFile file (Ok text) parsed
          = Ok {| type := "document"; source := name file;
                  extractedText := htmlText file text;
                  metadata := textFileMetadata file text "HTML Document" |}
          /\ templateOf (detectLanguage (name file)) = "Unknown")).
Proof.
  split.
  { intros He. unfold extractTextFromTextFile, try_catch_pure, bind_pure.
    by rewrite He. }
  split; [done|].
  intros He. split; [|split].
  - unfold extractTextFromTextFile, try_catch_pure, bind_pure. rewrite He.
    eexists. split; [reflexivity|]. split; [done|]. split; [done|].
    cbn [extractedText]. intros Hjson.
    destruct (endsWith (toLowerCase (name file)) ".xml");
      [unfold xmlText; find_piece|].
    destruct (endsWith (toLowerCase (name file)) ".json").
    { destruct Hjson as [? | ->]; [done|]. unfold invalidJsonText. find_piece. }
    destruct (endsWith (toLowerCase (name file)) ".html"
              || endsWith (toLowerCase (name file)) ".htm");
      [unfold htmlText; find_piece|].
    destruct (existsb _ codeExtensions); [unfold codeText; find_piece|].
    apply includes_prefix, prefix_self.
  - intros Hplain. unfold plainName in Hplain.
    apply andb_true_iff in Hplain as [Hcode Hhtm].
    apply negb_true_iff in Hcode, Hhtm.
    unfold extractTextFromTextFile, try_catch_pure, bind_pure. rewrite He.
    assert (Hx : endsWith (toLowerCase (name file)) ".xml" = false
                 /\ endsWith (toLowerCase (name file)) ".json" = false
                 /\ endsWith (toLowerCase (name file)) ".html" = false).
    { unfold codeExtensions in Hcode. cbn [existsb] in Hcode.
      repeat (apply orb_false_iff in Hcode as [? Hcode]). done. }
    destruct Hx as (-> & -> & ->). by rewrite Hcode, Hhtm.
  - intros Hhtm.
    assert (Hx : endsWith (toLowerCase (name file)) ".xml" = false).
    { destruct (endsWith _ ".xml") eqn:E; [|done].
      by pose proof (endsWith_both _ ".htm" ".xml" Hhtm E (le_n _)). }
    assert (Hj : endsWith (toLowerCase (name file)) ".json" = false).
    { destruct (endsWith _ ".json") eqn:E; [|done].
      by pose proof (endsWith_both _ ".htm" ".json" Hhtm E (le_S _ _ (le_n _))). }
    split.
    + unfold extractTextFromTextFile, try_catch_pure, bind_pure.
      by rewrite He, Hx, Hj, Hhtm, orb_true_r.
    + by rewrite (htm_is_unknown _ Hhtm).
Qed.

Lemma text_file_outcomes_witness :
  extractedText
    <$> match extractTextFromTextFile
                {| name := "Page.HTM"; byteSize := 20; mimeType := "text/html" |}
                (Ok "<p>Mitosis</p>") None with
        | Ok c => Some c
        | Throw _ => None
        end
  = Some (htmlText {| name := "Page.HTM"; byteSize := 20; mimeType := "text/html" |}
            "<p>Mitosis</p>").
Proof.
  destruct (proj2 (proj2 (text_file_outcomes
                            {| name := "Page.HTM"; byteSize := 20;
                               mimeType := "text/html" |}
                            "<p>Mitosis</p>" None)) eq_refl) as (_ & _ & Hhtm).
  destruct (Hhtm eq_refl) as [-> _]. reflexivity.
Defined.

(** *** Texts without words *)

Lemma trimEnd_ink (s : string) : is_empty (trimEnd s) = negb (has_ink s).
Proof.
  induction s as [|c s IH]; simpl; [done|].
  destruct (is_space c); simpl; [|done].
  rewrite IH. by destruct (has_ink s).
Qed.

Lemma trimStart_ink (s : string) : has_ink (trimStart s) = has_ink s.
Proof.
  induction s as [|c s IH]; simpl; [done|].
  destruct (is_space c) eqn:Hc; simpl; [done|]. by rewrite Hc.
Qed.

Lemma trim_ink (s : string) : is_empty (trim s) = negb (has_ink s).
Proof. unfold trim. by rewrite trimEnd_ink, trimStart_ink. Qed.

Lemma tokens_blank (s : string) (p : bool) : has_ink s = false -> tokens_from p s = 0.
Proof.
  revert p. induction s as [|c s IH]; intros p; simpl; [done|].
  destruct (is_space c); simpl; [apply IH | discriminate].
Qed.

Lemma blank_ends_in_space (s : string) (d : bool) :
  has_ink s = false -> is_empty s = false -> ends_in_space d s = true.
Proof.
  revert d. induction s as [|c s IH]; intros d; simpl; [discriminate|].
  destruct (is_space c) eqn:Hc; simpl; [|discriminate].
  intros Hs _. destruct s as [|c' s']; [done|]. by apply IH.
Qed.

(** The number of pieces of a text without ink: one for the empty text,
    two for white space. *)
Lemma splitCount_blank (s : string) :
  has_ink s = false -> splitCount s = if is_empty s then 1 else 2.
Proof.
  intros Hs. unfold splitCount. rewrite length_split_ws.
  unfold token_count. rewrite (tokens_blank _ _ Hs).
  destruct s as [|c s]; [done|].
  rewrite (blank_ends_in_space _ false Hs eq_refl).
  simpl in *. by destruct (is_space c).
Qed.

(** Documents and images without text.  The strategy for Word documents
    has no check for emptiness: whatever text the library returns is
    accepted and framed, and a document without any word is stored with a
    word count of 1 when its text is empty and of 2 when it is white
    space, for the count is the number of pieces of the split.  The
    strategy for images refuses a text without ink, and stores any other
    text as it was recognised, white space at its ends included. *)
Theorem documents_and_images_without_text (file : File) :
  (forall value messages,
     exists c,
       extractTextFromWord file (Ok (value, messages)) = Ok c
       /\ includes value (extractedText c) = true
       /\ wordCount (metadata c) = splitCount value
       /\ 1 <= wordCount (metadata c)
       /\ (has_ink value = false ->
           wordCount (metadata c) = if is_empty value then 1 else 2))
  /\ (forall text,
        has_ink text = false ->
        extractTextFromImage file (Ok text)
        = Throw (newError ("Failed to extract text from image: "
                           +:+ "No text detected in image")))
  /\ (forall text,
        has_ink text = true ->
        exists c,
          extractTextFromImage file (Ok text) = Ok c
          /\ extractedText c = text
          /\ wordCount (metadata c) = splitCount text).
Proof.
  split; [|split].
  - intros value messages. eexists. split; [reflexivity|].
    cbn [extractedText metadata wordCount fst].
    split; [unfold wordText; find_piece|]. split; [done|]. split.
    + unfold splitCount. rewrite length_split_ws. unfold token_count.
      destruct value as [|c r]; simpl; [lia|].
      destruct (is_space c); simpl; lia.
    + apply splitCount_blank.
  - intros text Hink. unfold extractTextFromImage, try_catch_pure, bind_pure.
    by rewrite trim_ink, Hink.
  - intros text Hink. unfold extractTextFromImage, try_catch_pure, bind_pure.
    rewrite trim_ink, Hink. by eexists.
Qed.

(** *** Tables *)






(** *** Routing *)

Lemma endsWith_excluded (s suffix : string) (extensions : list string) :
  endsWith s suffix = true -> excludes suffix extensions = true ->
  hasExtension extensions s = false.
Proof.
  intros Hs. unfold excludes, hasExtension.
  induction extensions as [|ext exts IH]; cbn [forallb existsb]; [done|].
  intros [[Hlen Hnot]%andb_true_iff Hrest]%andb_true_iff.
  rewrite (IH Hrest), orb_false_r.
  destruct (endsWith s ("." +:+ ext)) eqn:E; [|done].
  apply Nat.leb_le in Hlen. apply negb_true_iff in Hnot.
  by rewrite (endsWith_both s suffix ("." +:+ ext) Hs E Hlen) in Hnot.
Qed.

Lemma endsWith_not (s a b : string) :
  endsWith s a = true ->
  (String.length a <=? String.length b) = true -> endsWith b a = false ->
  endsWith s b = false.
Proof.
  intros Ha Hlen%Nat.leb_le Hb.
  destruct (endsWith s b) eqn:E; [|done].
  by rewrite (endsWith_both s a b Ha E Hlen) in Hb.
Qed.

(** A file in one of the legacy Office formats is refused.  The name
    decides, in any case of its letters, unless the MIME type has sent
    the file to another strategy before: the file is not opened, and the
    message names the format and the one to save the file in. *)
Theorem legacy_office_files_are_refused (file : File) (contents : FileContents)
    (stem : string) :
  routedBeforeLegacy file = false ->
  (toLowerCase (name file) = stem +:+ ".doc" ->
   processFile file contents
   = Throw (newError (legacyRefusal (name file) "DOC" "DOCX")))
  /\ (toLowerCase (name file) = stem +:+ ".ppt" ->
      processFile file contents
      = Throw (newError (legacyRefusal (name file) "PPT" "PPTX")))
  /\ (toLowerCase (name file) = stem +:+ ".xls" ->
      processFile file contents
      = Throw (newError (legacyRefusal (name file) "XLS" "XLSX"))).
Proof.
  intros Hrouted. unfold routedBeforeLegacy in Hrouted.
  repeat (apply orb_false_iff in Hrouted as [Hrouted ?]).
  assert (Hcase : forall ext legacy modern,
            dot_free ext = true ->
            In ext legacyExtensions ->
            toUpperCase ext = legacy ->
            (if String.eqb legacy "DOC" then "DOCX"
             else if String.eqb legacy "PPT" then "PPTX" else "XLSX") = modern ->
            toLowerCase (name file) = stem +:+ "." +:+ ext ->
            (forall s, endsWith s ("." +:+ ext) = true ->
                       hasExtension audioExtensions s = false
                       /\ endsWith s ".pdf" = false /\ endsWith s ".docx" = false
                       /\ endsWith s ".pptx" = false /\ endsWith s ".xlsx" = false) ->
            processFile file contents
            = Throw (newError (legacyRefusal (name file) legacy modern))).
  { intros ext legacy modern Hdot Hin Hup Hmod Hname Hnot.
    assert (Hends : endsWith (toLowerCase (name file)) ("." +:+ ext) = true).
    { apply endsWith_split. by exists stem. }
    assert (Hlegacy : hasExtension legacyExtensions (toLowerCase (name file)) = true).
    { unfold hasExtension. apply existsb_exists. by exists ext. }
    destruct (Hnot _ Hends) as (Ha & Hp & Hd & Hpp & Hx).
    unfold processFile, try_catch_pure.
    rewrite Hrouted, Ha, Hp, Hd, Hpp, Hx.
    repeat match goal with H : _ = false |- _ => rewrite H end.
    cbn [orb]. rewrite Hlegacy.
    unfold legacyMessage, legacyRefusal.
    rewrite Hname, (pop_extension _ _ Hdot), Hup, Hmod. reflexivity. }
  split; [|split]; intros Hname.
  - apply (Hcase "doc" "DOC" "DOCX"); try done; [simpl; tauto|].
    intros s Hs. split; [by apply (endsWith_excluded s ".doc")|].
    repeat split; by apply (endsWith_not s ".doc").
  - apply (Hcase "ppt" "PPT" "PPTX"); try done; [simpl; tauto|].
    intros s Hs. split; [by apply (endsWith_excluded s ".ppt")|].
    repeat split; by apply (endsWith_not s ".ppt").
  - apply (Hcase "xls" "XLS" "XLSX"); try done; [simpl; tauto|].
    intros s Hs. split; [by apply (endsWith_excluded s ".xls")|].
    repeat split; by apply (endsWith_not s ".xls").
Qed.

Lemma legacy_office_files_are_refused_witness :
  processFile {| name := "Thesis.final.DOC"; byteSize := 9; mimeType := "" |}
    silentContents
  = Throw (newError (legacyRefusal "Thesis.final.DOC" "DOC" "DOCX")).
Proof.
  apply (proj1 (legacy_office_files_are_refused
                  {| name := "Thesis.final.DOC"; byteSize := 9; mimeType := "" |}
                  silentContents "thesis.final" eq_refl)).
  reflexivity.
Defined.

End FilesProps.

(** ** Ingestion of files and web pages, topics and the question pool *)

Module ContentProps.

Import Js JsText FileProcessingService FileStrategies SupabaseService
  ContentService Vocabulary Notions Logic GenerationProps.

(** *** A web page *)

Lemma resolved_new_source (env : Env) (s : Store) (topicId user sid : nat)
    (row : Source) :
  getUser env = Some user ->
  sources s !! sid = Some row ->
  src_topic_id row = topicId -> src_user_id row = user ->
  resolved_ids env s topicId [sid] = [sid].
Proof.
  intros Hu Hs Ht Hr. unfold resolved_ids.
  rewrite filter_cons_True; [done|].
  unfold topic_owned. rewrite Hu, Hs, Ht, Hr.
  by rewrite !Nat.eqb_refl.
Qed.

Lemma wps_processWebURL (env : Env) (web : Web) (topicId : nat) (url : string)
    (s : Store) :
  wps (ContentService.processWebURL env web topicId url) s
    (fun r s' =>
       match r with
       | Ok r => web_page_stored topicId url s r s'
       | Throw _ => True
       end).
Proof.
  unfold ContentService.processWebURL.
  wps_user; [exact I|].
  apply wps_bind, wps_getTopic. intros [topic|e]; [|exact I].
  apply wps_try_catch, wps_bind, wps_lift.
  destruct (FileProcessingService.processWebURL _ _ _ _ _) as [extracted|e];
    [|by apply wps_throw].
  unfold insert_document, addToKnowledgeBase, createSource.
  repeat first
    [ wps_step
    | lazymatch goal with
      | |- wps (requireUser _) _ _ => apply wps_requireUser; [intros ?|intros ? ?]
      end ];
    try exact I.
  repeat match goal with
         | H : insert_row _ _ = _ |- _ => injection H as <- <-
         end.
  assert (user0 = user) as -> by congruence.
  assert (user1 = user) as -> by congruence.
  match goal with
  | |- wps (generateAIContentFromSources _ _ ?ids) ?st _ =>
      assert (Hres : resolved_ids env st topicId ids = ids)
  end.
  { eapply resolved_new_source;
      [exact H | store_simpl; apply lookup_insert_eq | done | done]. }
  eapply wps_mono; [|apply wps_generateAIContentFromSources].
  intros [res|e] s' [Hpost _]; [|by apply wps_throw].
  apply wps_ret. rewrite Hres in Hpost.
  destruct Hpost as [[_ Hk]|(written & Hrec & Hfin)]; [discriminate|].
  destruct (recorded_generation_new _ _ _ _ _ _ _ Hrec) as [Hg _].
  destruct Hrec as (Hfresh & _ & Hty & Hids & Hq & _ & _ & _ & Hsame).
  destruct Hsame as (Hb & _ & Hd & Hkb & Hsrc & _).
  destruct Hfin as (Hid & Hst & Hitems & Hlen & _).
  unfold web_page_stored.
  cbn [web_documentId web_sourceId web_content aiGeneration].
  rewrite Hid, Hd, Hkb, Hsrc, Hb. store_simpl.
  split.
  { repeat split.
    - apply not_elem_of_dom, is_fresh.
    - apply not_elem_of_dom, is_fresh.
    - exact Hfresh. }
  split.
  { eexists. split; [apply lookup_insert_eq|]. by repeat split. }
  split.
  { eexists _, _, _. split; [apply lookup_insert_eq|].
    repeat split; first [apply lookup_insert_eq | reflexivity]. }
  split.
  { exists (run_row written). by repeat split. }
  split; [|done].
  rewrite (TableFacts.inserted_size _ _ _ Hq). store_simpl. lia.
Qed.

(** [processWebURL] of the service: a call that returns has stored the
    page as a new document, knowledge-base row and source of the topic,
    linked to each other, and has recorded a completed selective
    generation whose only source is the new one; the question table has
    grown by the number of items of that generation, and no blob was
    stored. *)
Theorem web_page_is_generated_from_alone (env : Env) (web : Web) (topicId : nat)
    (url : string) (s : Store) (faults : list (option Error))
    (r : WebIngestionResult) :
  (run (ContentService.processWebURL env web topicId url) s faults).1 = Ok r ->
  web_page_stored topicId url s r
    (run (ContentService.processWebURL env web topicId url) s faults).2.
Proof.
  intros Hr.
  pose proof (wps_run _ _ _ faults (wps_processWebURL env web topicId url s)) as H.
  by rewrite Hr in H.
Qed.

Lemma web_page_is_generated_from_alone_witness :
  web_page_stored 1 samplePageUrl sampleStore samplePageResult
    (run (ContentService.processWebURL sampleEnv samplePage 1 samplePageUrl)
       sampleStore []).2.
Proof.
  apply (web_page_is_generated_from_alone sampleEnv samplePage 1 samplePageUrl
           sampleStore [] samplePageResult).
  vm_compute. reflexivity.
Defined.

(** *** A file *)

Lemma getUser_auth (env : Env) (user user' : nat) :
  getUser env = Some user -> auth env = SignedIn user' -> user' = user.
Proof. unfold getUser. intros Hu Ha. rewrite Ha in Hu. congruence. Qed.

Lemma wps_processFileUpload (env : Env) (topicId : nat) (file : File)
    (contents : FileContents) (s : Store) :
  wps (processFileUpload env topicId file contents) s
    (fun r s' =>
       match r with
       | Ok r => file_stored env topicId file contents s r s'
       | Throw _ => True
       end).
Proof.
  unfold processFileUpload.
  wps_user; [exact I|].
  apply wps_bind, wps_getTopic. intros [topic|e]; [|exact I].
  apply wps_try_catch, wps_bind, wps_lift.
  destruct (processFile file contents) as [extracted|e] eqn:Hextracted;
    [|by apply wps_throw].
  apply wps_bind.
  eapply wps_mono; [|apply ServiceProps.wps_uploadFile].
  intros [up|e] s1 [Hsame Hup]; [|by apply wps_throw].
  destruct Hup as (user' & Ha & Hpath & Hb0 & Hb & Hd0 & Hd).
  pose proof (getUser_auth _ _ _ H Ha) as ->.
  destruct Hsame as (Ht & Hkb & Hsrc & Hg & Hq & Hi & Hf).
  unfold addToKnowledgeBase, createSource.
  repeat first
    [ wps_step
    | lazymatch goal with
      | |- wps (requireUser _) _ _ => apply wps_requireUser; [intros ?|intros ? ?]
      end ];
    try exact I.
  all: repeat match goal with
         | H : insert_row _ _ = _ |- _ => injection H as <- <-
         end.
  all: store_simpl.
  all: repeat match goal with
         | H1 : getUser ?e = Some ?u, H2 : getUser ?e = Some ?v |- _ =>
             assert (v = u) as -> by congruence; clear H2
         end.
  all: unfold file_stored;
    cbn [ing_documentId sourceId ing_content ing_wordCount];
    store_simpl;
    exists user; rewrite ?Hkb, ?Hsrc, ?Hg, ?Hq, ?Hi, ?Hb, ?Hd, <- ?Hpath.
  all: assert (Hdoc : withOwner user
                        (uploadedDocument topicId user file (storagePath up))
                      = uploadedDocument topicId user file (storagePath up))
         by reflexivity.
  all: rewrite ?alter_insert_eq, ?Hdoc.
  all: repeat split; try done; try (apply not_elem_of_dom, is_fresh).
  all: eexists _, _, _.
  all: repeat split; first [reflexivity | apply not_elem_of_dom, is_fresh].
Qed.

(** [processFileUpload]: a call that returns has extracted the text of
    the file, stored the blob under the path of the upload and the
    document that points to it, and added a knowledge-base row with the
    extracted text and a source of the type [file] (or [audio]) that name
    the document; all of them are new, and no generation, question or
    generation item is written. *)
Theorem uploaded_file_is_stored_and_linked (env : Env) (topicId : nat)
    (file : File) (contents : FileContents) (s : Store)
    (faults : list (option Error)) (r : IngestionResult) :
  (run (processFileUpload env topicId file contents) s faults).1 = Ok r ->
  file_stored env topicId file contents s r
    (run (processFileUpload env topicId file contents) s faults).2.
Proof.
  intros Hr.
  pose proof (wps_run _ _ _ faults
                (wps_processFileUpload env topicId file contents s)) as H.
  by rewrite Hr in H.
Qed.

Lemma uploaded_file_is_stored_and_linked_witness :
  file_stored sampleEnv 1 sampleFile sampleNotes sampleStore sampleNotesResult
    (run (processFileUpload sampleEnv 1 sampleFile sampleNotes) sampleStore []).2.
Proof.
  apply (uploaded_file_is_stored_and_linked sampleEnv 1 sampleFile sampleNotes
           sampleStore [] sampleNotesResult).
  vm_compute. reflexivity.
Defined.

(** *** Input that cannot be read *)

Lemma wps_unreadable_file (env : Env) (topicId : nat) (file : File)
    (contents : FileContents) (s : Store) (e : Error) :
  processFile file contents = Throw e ->
  wps (processFileUpload env topicId file contents) s
    (fun r s' => s' = s /\ is_ok r = false).
Proof.
  intros He. unfold processFileUpload.
  wps_user; [done|].
  apply wps_bind, wps_getTopic. intros [topic|e']; [|done].
  apply wps_try_catch, wps_bind, wps_lift. rewrite He.
  by apply wps_throw.
Qed.

Lemma wps_unreadable_page (env : Env) (web : Web) (topicId : nat) (url : string)
    (s : Store) (e : Error) :
  FileProcessingService.processWebURL (browser web) (nowISO env) url (fetched web)
    (transcript env) = Throw e ->
  wps (ContentService.processWebURL env web topicId url) s
    (fun r s' => s' = s /\ is_ok r = false).
Proof.
  intros He. unfold ContentService.processWebURL.
  wps_user; [done|].
  apply wps_bind, wps_getTopic. intros [topic|e']; [|done].
  apply wps_try_catch, wps_bind, wps_lift. rewrite He.
  by apply wps_throw.
Qed.

Lemma unreadable_file_message (env : Env) (topicId user : nat) (topic : Topic)
    (file : File) (contents : FileContents) (s : Store) (e : Error)
    (faults : list (option Error)) :
  getUser env = Some user ->
  topics s !! topicId = Some topic ->
  topic_user_id topic = user ->
  head faults = None \/ head faults = Some None ->
  processFile file contents = Throw e ->
  processFileUpload env topicId file contents (mkSt s faults)
  = (Throw (newError ("Failed to process " +:+ name file +:+ ": "
                      +:+ uploadErrorMessage e)),
     mkSt s (tail faults)).
Proof.
  intros Hu Ht Ho Hf He. unfold processFileUpload, requireUser. rewrite Hu.
  change (bind (ret user) ?k) with (k user). cbv beta.
  erewrite IngestionProps.bind_ok
    by (eapply ServiceProps.getTopic_first; [exact Hu | exact Ht | exact Ho | exact Hf]).
  erewrite IngestionProps.try_catch_throw; [reflexivity|].
  apply IngestionProps.bind_throw. by rewrite He.
Qed.

Lemma unreadable_page_message (env : Env) (web : Web) (topicId user : nat)
    (topic : Topic) (url : string) (s : Store) (e : Error)
    (faults : list (option Error)) :
  getUser env = Some user ->
  topics s !! topicId = Some topic ->
  topic_user_id topic = user ->
  head faults = None \/ head faults = Some None ->
  FileProcessingService.processWebURL (browser web) (nowISO env) url (fetched web)
    (transcript env) = Throw e ->
  ContentService.processWebURL env web topicId url (mkSt s faults)
  = (Throw (newError ("Failed to process website: " +:+ message e)),
     mkSt s (tail faults)).
Proof.
  intros Hu Ht Ho Hf He. unfold ContentService.processWebURL, requireUser.
  rewrite Hu.
  change (bind (ret user) ?k) with (k user). cbv beta.
  erewrite IngestionProps.bind_ok
    by (eapply ServiceProps.getTopic_first; [exact Hu | exact Ht | exact Ho | exact Hf]).
  erewrite IngestionProps.try_catch_throw; [reflexivity|].
  apply IngestionProps.bind_throw. by rewrite He.
Qed.

(** Extraction comes before every write.  When the text of a file, or of
    a web page, cannot be extracted, [processFileUpload] and
    [processWebURL] throw and leave the store as it was, whatever the
    faults of the database; for a signed-in user who owns the topic, and
    a first request that does not fail, the error is the one of the
    extraction, wrapped once more. *)
Theorem unreadable_input_is_not_stored (env : Env) (topicId : nat) (s : Store)
    (faults : list (option Error)) (e : Error) :
  (forall file contents,
     processFile file contents = Throw e ->
     (run (processFileUpload env topicId file contents) s faults).2 = s
     /\ is_ok (run (processFileUpload env topicId file contents) s faults).1 = false
     /\ (forall user topic,
           getUser env = Some user ->
           topics s !! topicId = Some topic ->
           topic_user_id topic = user ->
           head faults = None \/ head faults = Some None ->
           (run (processFileUpload env topicId file contents) s faults).1
           = Throw (newError ("Failed to process " +:+ name file +:+ ": "
                              +:+ uploadErrorMessage e))))
  /\ (forall web url,
        FileProcessingService.processWebURL (browser web) (nowISO env) url
          (fetched web) (transcript env) = Throw e ->
        (run (ContentService.processWebURL env web topicId url) s faults).2 = s
        /\ is_ok (run (ContentService.processWebURL env web topicId url) s faults).1
           = false
        /\ (forall user topic,
              getUser env = Some user ->
              topics s !! topicId = Some topic ->
              topic_user_id topic = user ->
              head faults = None \/ head faults = Some None ->
              (run (ContentService.processWebURL env web topicId url) s faults).1
              = Throw (newError ("Failed to process website: " +:+ message e)))).
Proof.
  split.
  - intros file contents He.
    destruct (wps_run _ _ _ faults
                (wps_unreadable_file env topicId file contents s e He)) as [Hs Hr].
    repeat split; [exact Hs | exact Hr |].
    intros user topic Hu Ht Ho Hf. unfold run.
    by rewrite (unreadable_file_message env topicId user topic file contents s e
                  faults Hu Ht Ho Hf He).
  - intros web url He.
    destruct (wps_run _ _ _ faults
                (wps_unreadable_page env web topicId url s e He)) as [Hs Hr].
    repeat split; [exact Hs | exact Hr |].
    intros user topic Hu Ht Ho Hf. unfold run.
    by rewrite (unreadable_page_message env web topicId user topic url s e
                  faults Hu Ht Ho Hf He).
Qed.

(** A file in a legacy Office format: the refusal of [processFile] reaches
    the caller of [processFileUpload] with the name of the file twice. *)
Example legacy_file_is_not_stored :
  run (processFileUpload sampleEnv 1 sampleLegacyFile silentContents) sampleStore []
  = (Throw (newError ("Failed to process thesis.doc: "
                      +:+ legacyRefusal "thesis.doc" "DOC" "DOCX")),
     sampleStore).
Proof. vm_compute. reflexivity. Qed.

(** *** The entry point of the user interface *)

Ltac wps_all :=
  repeat first
    [ wps_step
    | lazymatch goal with
      | |- wps (requireUser _) _ _ => apply wps_requireUser; [intros ?|intros ? ?]
      end
    | match goal with |- match ?x with _ => _ end => destruct x eqn:? end ].

Ltac new_source :=
  repeat match goal with
         | H : insert_row _ _ = _ |- _ => injection H as <- <-
         end;
  store_simpl; unfold source_stored; cbn [ing_documentId sourceId ing_wordCount];
  split; [apply not_elem_of_dom, is_fresh|];
  eexists; split; [reflexivity|]; by repeat split.

Lemma wps_text_source (env : Env) (topicId : nat) (contentText sourceName : string)
    (s : Store) :
  wps (processTextContent env topicId contentText sourceName) s
    (fun r s' =>
       match r with
       | Ok r => source_stored topicId "text" s r s'
       | Throw _ => True
       end).
Proof.
  unfold processTextContent, rpc_simple_insert_document, addToKnowledgeBase,
    createSource, getTopic.
  wps_all; try exact I.
  new_source.
Qed.

Lemma wps_video_source (env : Env) (topicId : nat) (url : string) (s : Store) :
  wps (processYouTubeURL env topicId url) s
    (fun r s' =>
       match r with
       | Ok r => source_stored topicId "youtube" s r s'
       | Throw _ => True
       end).
Proof.
  unfold processYouTubeURL, storage_upload, storage_remove, insert_document,
    addToKnowledgeBase, createSource, getTopic.
  wps_all; try exact I.
  new_source.
Qed.

Lemma file_stored_source (env : Env) (topicId : nat) (file : File)
    (contents : FileContents) (s : Store) (r : IngestionResult) (s' : Store) :
  file_stored env topicId file contents s r s' ->
  source_stored topicId
    (if String.eqb (type (ing_content r)) "audio" then "audio" else "file") s r s'.
Proof.
  intros (user & _ & _ & _ & _ & _ & _ & _ & Hnew & Hsrc & _).
  destruct Hsrc as (src & k & row & Hs & Ht & _ & Hty & _ & Hw & Hd & _).
  split; [exact Hnew|]. by exists src.
Qed.

Lemma wps_ingest (env : Env) (user topicId : nat)
    (file : option (File * FileContents)) (url contentText sourceName : option string)
    (s : Store) :
  wps (DataContext.ingest env (Some user) topicId file url contentText sourceName) s
    (fun r s' =>
       match r with
       | Ok r => source_stored topicId (ingestedKind file url r) s r s'
       | Throw e => String.prefix "Failed to process content: " (message e) = true
       end).
Proof.
  unfold DataContext.ingest, ingestedKind. apply wps_try_catch.
  destruct file as [[f contents]|]; [|destruct (truthy url) as [u|];
                                       [|destruct (truthy contentText) as [text|]]].
  - eapply wps_mono; [|apply wps_processFileUpload].
    intros [r|e] s' H; [by eapply file_stored_source|].
    apply wps_throw, ExtractionProps.prefix_append.
  - eapply wps_mono; [|apply wps_video_source].
    intros [r|e] s' H; [exact H|]. apply wps_throw, ExtractionProps.prefix_append.
  - eapply wps_mono; [|apply wps_text_source].
    intros [r|e] s' H; [exact H|]. apply wps_throw, ExtractionProps.prefix_append.
  - apply wps_throw, wps_throw, ExtractionProps.prefix_append.
Qed.

(** [ingest] of the data context.  Without a user in the context it
    throws before any service is called, whatever the session.  With one,
    a call that returns has stored exactly one new source for the topic,
    which names the document of the result: a file or audio source when a
    file is given, else a video source when an address is given (every
    address is handled as a YouTube video), else a text source; and the
    message of every error it throws starts with
    [Failed to process content: ]. *)
Theorem ingest_outcomes (env : Env) (topicId : nat)
    (file : option (File * FileContents)) (url contentText sourceName : option string)
    (s : Store) (faults : list (option Error)) :
  run (DataContext.ingest env None topicId file url contentText sourceName) s faults
  = (Throw (newError "Authentication required. Please sign in to ingest content."),
     s)
  /\ forall user,
       match (run (DataContext.ingest env (Some user) topicId file url contentText
                     sourceName) s faults).1 with
       | Ok r =>
           source_stored topicId (ingestedKind file url r) s r
             (run (DataContext.ingest env (Some user) topicId file url contentText
                     sourceName) s faults).2
       | Throw e => String.prefix "Failed to process content: " (message e) = true
       end.
Proof.
  split; [reflexivity|].
  intros user.
  exact (wps_run _ _ _ faults
           (wps_ingest env user topicId file url contentText sourceName s)).
Qed.

(** The address of a web page, given to [ingest], is stored as a video
    without a transcript. *)
Example web_address_becomes_a_video :
  source_type
    <$> sources
          (run (DataContext.ingest sampleEnv (Some 7) 1 None (Some samplePageUrl)
                  None None) sampleStore []).2 !! 21
  = Some "youtube"
  /\ (run (DataContext.ingest sampleEnv (Some 7) 1 None (Some EmptyString)
            (Some EmptyString) None) sampleStore []).1
     = Throw (newError "Failed to process content: No file, URL, or text content provided").
Proof. split; vm_compute; reflexivity. Qed.

(** *** Sources and their numbers of generated items *)

Lemma select_rows_length_insert {A} (p : nat -> A -> bool) (t : gmap nat A)
    (k : nat) (v : A) :
  t !! k = None ->
  length (select_rows p (<[k := v]> t))
  = (if p k v then 1 else 0) + length (select_rows p t).
Proof.
  intros Hk. unfold select_rows.
  rewrite (map_to_list_insert t k v Hk).
  destruct (p k v) eqn:Hp.
  - rewrite filter_cons_True by exact Hp. reflexivity.
  - rewrite filter_cons_False; [reflexivity|]. simpl. by rewrite Hp.
Qed.

Lemma select_rows_length_inserted {A} (p : nat -> A -> bool)
    (rows : list (nat * A)) :
  forall t t',
    inserted t rows t' ->
    length (select_rows p t')
    = length (select_rows p t)
      + length (filter (fun kr => p kr.1 kr.2 = true) rows).
Proof.
  unfold inserted.
  induction rows as [|[k row] rows IH]; intros t t' Hins.
  - injection Hins as <-. simpl. lia.
  - rewrite fmap_cons in Hins. simpl in Hins.
    destruct (insert_rows rows.*2 (<[fresh (dom t) := row]> t)) as [ins t2] eqn:E.
    injection Hins as Hk -> ->.
    rewrite (IH _ _ E), <- Hk.
    rewrite select_rows_length_insert by apply not_elem_of_dom, is_fresh.
    destruct (p (fresh (dom t)) row) eqn:Hp.
    + rewrite filter_cons_True by exact Hp. simpl. lia.
    + rewrite filter_cons_False; [lia|]. simpl. by rewrite Hp.
Qed.

Lemma filter_attributed_items (gid sid : nat) (ids : list nat)
    (rows : list (nat * GenerationItem)) :
  Forall (attributed_item gid ids) rows ->
  length (filter (fun kr => bool_decide (sid ∈ derived_from_sources kr.2) = true)
            rows)
  = if bool_decide (sid ∈ ids) then length rows else 0.
Proof.
  induction 1 as [|[k it] rows [_ Hids] _ IH]; [by destruct (bool_decide _)|].
  simpl in Hids.
  destruct (bool_decide (sid ∈ ids)) eqn:Hin.
  - rewrite filter_cons_True by (simpl; by rewrite Hids).
    simpl. by rewrite IH.
  - rewrite filter_cons_False; [exact IH|]. simpl. by rewrite Hids, Hin.
Qed.

Lemma forEach_count_quiet (s : Store) (srcs : list (nat * Source)) :
  forEach countGeneratedItems srcs (mkSt s [])
  = (Ok (map (fun source => (source, generatedItemsCount s source.1)) srcs),
     mkSt s []).
Proof.
  induction srcs as [|src srcs IH]; [reflexivity|].
  cbn [forEach map].
  erewrite IngestionProps.bind_ok by reflexivity.
  erewrite IngestionProps.bind_ok by exact IH.
  reflexivity.
Qed.

(** The requests for the numbers never fail the call: an error of one of
    them shows as the number 0. *)
Lemma forEach_count_any (srcs : list (nat * Source)) :
  forall (s : Store) (faults : list (option Error)),
    exists l,
      forEach countGeneratedItems srcs (mkSt s faults)
      = (Ok l, mkSt s (drop (length srcs) faults))
      /\ l.*1 = srcs
      /\ Forall (fun x => x.2 = generatedItemsCount s x.1.1 \/ x.2 = 0) l.
Proof.
  induction srcs as [|src srcs IH]; intros s faults.
  { exists []. by rewrite drop_0. }
  destruct (IH s (tail faults)) as (l & Hl & Hsrcs & HF).
  assert (Hone : exists n,
             countGeneratedItems src (mkSt s faults)
             = (Ok (src, n), mkSt s (tail faults))
             /\ (n = generatedItemsCount s src.1 \/ n = 0)).
  { destruct faults as [|[e|] rest].
    - eexists. split; [reflexivity|]. by left.
    - eexists. split; [reflexivity|]. by right.
    - eexists. split; [reflexivity|]. by left. }
  destruct Hone as (n & Hn & Hcount).
  exists ((src, n) :: l). split; [|split].
  - cbn [forEach]. erewrite IngestionProps.bind_ok by exact Hn.
    erewrite IngestionProps.bind_ok by exact Hl.
    cbn [length]. unfold ret. do 2 f_equal.
    destruct faults; [simpl; by rewrite drop_nil | reflexivity].
  - cbn. by rewrite Hsrcs.
  - constructor; [exact Hcount | exact HF].
Qed.

Lemma getSources_first (env : Env) (topicId user : nat) (s : Store)
    (faults : list (option Error)) :
  getUser env = Some user ->
  head faults = None \/ head faults = Some None ->
  getSources env topicId (mkSt s faults)
  = (Ok (select_rows
           (fun _ r => (src_topic_id r =? topicId) && (src_user_id r =? user))
           (sources s)),
     mkSt s (tail faults)).
Proof.
  intros Hu Hf. unfold getSources, requireUser. rewrite Hu.
  destruct faults as [|[e|] rest]; simpl in *; try reflexivity.
  by destruct Hf.
Qed.

Lemma getSourcesWithStats_first (env : Env) (topicId user : nat) (s : Store)
    (faults : list (option Error)) :
  getUser env = Some user ->
  head faults = None \/ head faults = Some None ->
  getSourcesWithStats env topicId (mkSt s faults)
  = forEach countGeneratedItems
      (select_rows
         (fun _ r => (src_topic_id r =? topicId) && (src_user_id r =? user))
         (sources s))
      (mkSt s (tail faults)).
Proof.
  intros Hu Hf. unfold getSourcesWithStats, requireUser. rewrite Hu.
  change (bind (ret user) ?k) with (k user). cbv beta.
  by erewrite IngestionProps.bind_ok by (by apply getSources_first).
Qed.

(** [getSourcesWithStats], for a signed-in user.  When no request fails
    it returns the sources of the topic, each with the number of
    generation items derived from it.  A request for a number that fails
    does not fail the call: whenever the request for the sources
    succeeds, the call returns every source of the topic, with its
    number or with 0; the store is as before.  A generation call that
    returns raises the number of each source of its generation by the
    number of items it generated, and leaves the others as they were. *)
Theorem source_statistics (env : Env) (topicId user : nat) (s : Store) :
  getUser env = Some user ->
  run (getSourcesWithStats env topicId) s []
  = (Ok (sourcesWithCounts s topicId user), s)
  /\ (forall faults,
        head faults = None \/ head faults = Some None ->
        exists l,
          run (getSourcesWithStats env topicId) s faults = (Ok l, s)
          /\ l.*1 = (sourcesWithCounts s topicId user).*1
          /\ Forall (fun x => x.2 = generatedItemsCount s x.1.1 \/ x.2 = 0) l)
  /\ (forall call faults res,
        (run (perform env call) s faults).1 = Ok res ->
        exists g,
          generations (run (perform env call) s faults).2 !! generationId res
          = Some g
          /\ forall sourceId,
               generatedItemsCount (run (perform env call) s faults).2 sourceId
               = generatedItemsCount s sourceId
                 + (if bool_decide (sourceId ∈ source_ids g)
                    then res_generated res else 0)).
Proof.
  intros Hu. split; [|split].
  - unfold run.
    rewrite (getSourcesWithStats_first env topicId user s [] Hu (or_introl eq_refl)).
    simpl tail. by rewrite forEach_count_quiet.
  - intros faults Hf. unfold run.
    rewrite (getSourcesWithStats_first env topicId user s faults Hu Hf).
    destruct (forEach_count_any
                (select_rows
                   (fun _ r => (src_topic_id r =? topicId) && (src_user_id r =? user))
                   (sources s)) s (tail faults)) as (l & -> & Hl & HF).
    exists l. repeat split; [|exact HF].
    rewrite Hl. unfold sourcesWithCounts.
    rewrite <- list_fmap_compose. symmetry. apply list_fmap_id.
  - intros call faults res Hr.
    destruct (CoordinatorProps.perform_ok env call s faults res Hr)
      as (ty & topic & ids & written & Hrec & Hfin).
    destruct (recorded_generation_new _ _ _ _ _ _ _ Hrec) as [Hg _].
    destruct Hrec as (_ & _ & _ & Hids & _ & _ & Hitems & HF & _).
    destruct Hfin as (Hid & _ & _ & _ & Hlen & _).
    exists (run_row written). rewrite Hid. split; [exact Hg|].
    intros sourceId. unfold generatedItemsCount.
    rewrite (select_rows_length_inserted _ _ _ _ Hitems).
    cbn beta. rewrite (filter_attributed_items _ sourceId _ _ HF).
    by rewrite Hids, Hlen.
Qed.

Lemma source_statistics_witness :
  run (getSourcesWithStats sampleEnv 1) completedStore []
  = (Ok (sourcesWithCounts completedStore 1 7), completedStore).
Proof.
  exact (proj1 (source_statistics sampleEnv 1 7 completedStore eq_refl)).
Defined.

(** In the sample world, after the selective generation from A, B and the
    foreign D: two items each for A and B, none for C and for the pasted
    text. *)
Example sample_statistics :
  map (fun x => (x.1.1, x.2)) (sourcesWithCounts completedStore 1 7)
  ≡ₚ [(10, 2); (11, 2); (12, 0); (21, 0)].
Proof.
  assert (H : map (fun x => (x.1.1, x.2)) (sourcesWithCounts completedStore 1 7)
              = [(10, 2); (12, 0); (21, 0); (11, 2)])
    by (vm_compute; reflexivity).
  rewrite H. solve_Permutation.
Qed.

(** *** The saved questions *)

Lemma getQuestions_quiet (env : Env) (topicId user : nat) (savedOnly : bool)
    (s : Store) :
  getUser env = Some user ->
  getQuestions env topicId savedOnly (mkSt s [])
  = (Ok (map (fun q => poolItem q.1 q.2)
           (select_rows
              (fun _ q => (q_topic_id q =? topicId) && (q_user_id q =? user)
                          && (if savedOnly then is_saved q else true))
              (questions s))),
     mkSt s []).
Proof. intros Hu. unfold getQuestions, requireUser. by rewrite Hu. Qed.

Lemma elem_of_pool (topicId user : nat) (savedOnly : bool)
    (t : gmap nat Question) (item : PoolItem) :
  item ∈ map (fun q => poolItem q.1 q.2)
         (select_rows
            (fun _ q => (q_topic_id q =? topicId) && (q_user_id q =? user)
                        && (if savedOnly then is_saved q else true)) t)
  <-> exists k q,
        t !! k = Some q /\ item = poolItem k q
        /\ q_topic_id q = topicId /\ q_user_id q = user
        /\ (savedOnly = true -> is_saved q = true).
Proof.
  rewrite list_elem_of_fmap. split.
  - intros ([k q] & -> & Hin). apply select_rows_elem in Hin as [Hk Hp].
    apply andb_true_iff in Hp as [Hp Hs]. apply andb_true_iff in Hp as [Ht Hu].
    apply Nat.eqb_eq in Ht, Hu.
    exists k, q. repeat split; try done. by intros ->.
  - intros (k & q & Hk & -> & Ht & Hu & Hs). exists (k, q). split; [done|].
    apply select_rows_elem. split; [done|].
    rewrite Ht, Hu, !Nat.eqb_refl. simpl.
    destruct savedOnly; [by apply Hs | done].
Qed.

Lemma wps_saveQuestion (env : Env) (questionId : nat) (s : Store) :
  wps (saveQuestion env questionId) s
    (fun r s' =>
       match r with
       | Ok _ =>
           exists user,
             getUser env = Some user
             /\ s' = with_questions (savedTable user questionId) s
       | Throw _ => s' = s
       end).
Proof.
  unfold saveQuestion.
  wps_user; [done|].
  wps_steps; [done|]. by exists user.
Qed.

(** [saveQuestion] and [getQuestions] with [savedOnly].  After a
    [saveQuestion] that returns, the saved questions of a topic are the
    ones that were saved before and, when the question exists and belongs
    to the user and to the topic, that question, with the flag set.  For
    a question that is missing or belongs to someone else the call
    returns without any change; when it throws, the store is as before. *)
Theorem saved_questions_round_trip (env : Env) (user questionId topicId : nat)
    (s : Store) (faults : list (option Error)) :
  getUser env = Some user ->
  match (run (saveQuestion env questionId) s faults).1 with
  | Ok _ =>
      exists before after,
        run (getQuestions env topicId true) s [] = (Ok before, s)
        /\ run (getQuestions env topicId true)
             (run (saveQuestion env questionId) s faults).2 []
           = (Ok after, (run (saveQuestion env questionId) s faults).2)
        /\ (forall item,
              item ∈ after
              <-> item ∈ before
                  \/ exists q,
                       questions s !! questionId = Some q
                       /\ q_user_id q = user /\ q_topic_id q = topicId
                       /\ item = {| pool_data := question_data q;
                                    pool_id := questionId;
                                    pool_is_saved := true |})
        /\ ((forall q, questions s !! questionId = Some q -> q_user_id q <> user) ->
            (run (saveQuestion env questionId) s faults).2 = s)
  | Throw _ => (run (saveQuestion env questionId) s faults).2 = s
  end.
Proof.
  intros Hu.
  pose proof (wps_run _ _ _ faults (wps_saveQuestion env questionId s)) as H.
  destruct (run (saveQuestion env questionId) s faults).1 as [[]|e]; [|exact H].
  destruct H as (user' & Hu' & Hs').
  assert (user' = user) as -> by congruence.
  set (s' := (run (saveQuestion env questionId) s faults).2) in *.
  exists (map (fun q => poolItem q.1 q.2)
            (select_rows
               (fun _ q => (q_topic_id q =? topicId) && (q_user_id q =? user)
                           && is_saved q)
               (questions s))),
         (map (fun q => poolItem q.1 q.2)
            (select_rows
               (fun _ q => (q_topic_id q =? topicId) && (q_user_id q =? user)
                           && is_saved q)
               (questions s'))).
  split; [|split; [|split]].
  - unfold run. by rewrite (getQuestions_quiet env topicId user true s Hu).
  - unfold run. by rewrite (getQuestions_quiet env topicId user true s' Hu).
  - intros item. rewrite !(elem_of_pool topicId user true). rewrite Hs'. store_simpl.
    unfold savedTable.
    destruct (questions s !! questionId) as [q0|] eqn:Hq0.
    2: { split; [by left|]. intros [H|(q & Hq & _)]; [done | discriminate]. }
    destruct (q_user_id q0 =? user) eqn:Howner.
    2: { apply Nat.eqb_neq in Howner. split; [by left|].
         intros [H|(q & Hq & Hqu & _)]; [done|]. congruence. }
    apply Nat.eqb_eq in Howner. split.
    + intros (k & q & Hk & -> & Ht & Hown & Hsaved).
      destruct (decide (k = questionId)) as [->|Hne].
      * rewrite lookup_insert_eq in Hk. injection Hk as <-.
        right. exists q0. by repeat split.
      * rewrite lookup_insert_ne in Hk by done.
        left. exists k, q. by repeat split.
    + intros [(k & q & Hk & -> & Ht & Hown & Hsaved)|(q & Hq & Hown & Ht & ->)].
      * destruct (decide (k = questionId)) as [->|Hne].
        -- assert (q = q0) as -> by congruence.
           exists questionId, (set_is_saved true q0).
           rewrite lookup_insert_eq. repeat split; try done.
           unfold poolItem. simpl. by rewrite (Hsaved eq_refl).
        -- exists k, q. rewrite lookup_insert_ne by done. by repeat split.
      * assert (q = q0) as -> by congruence.
        exists questionId, (set_is_saved true q0).
        rewrite lookup_insert_eq. by repeat split.
  - intros Hother. rewrite Hs'. unfold savedTable.
    destruct s as [b t d kb src g qs gi fp]. unfold with_questions. simpl in *.
    f_equal.
    destruct (qs !! questionId) as [q0|] eqn:Hq0; [|done].
    destruct (q_user_id q0 =? user) eqn:Howner; [|done].
    apply Nat.eqb_eq in Howner. by destruct (Hother q0 eq_refl).
Qed.

Lemma saved_questions_round_trip_witness :
  match (run (saveQuestion sampleEnv 0) completedStore []).1 with
  | Ok _ =>
      exists before after,
        run (getQuestions sampleEnv 1 true) completedStore [] = (Ok before, completedStore)
        /\ run (getQuestions sampleEnv 1 true)
             (run (saveQuestion sampleEnv 0) completedStore []).2 []
           = (Ok after, (run (saveQuestion sampleEnv 0) completedStore []).2)
        /\ (forall item,
              item ∈ after
              <-> item ∈ before
                  \/ exists q,
                       questions completedStore !! 0 = Some q
                       /\ q_user_id q = 7 /\ q_topic_id q = 1
                       /\ item = {| pool_data := question_data q;
                                    pool_id := 0;
                                    pool_is_saved := true |})
        /\ ((forall q, questions completedStore !! 0 = Some q -> q_user_id q <> 7) ->
            (run (saveQuestion sampleEnv 0) completedStore []).2 = completedStore)
  | Throw _ => (run (saveQuestion sampleEnv 0) completedStore []).2 = completedStore
  end.
Proof.
  exact (saved_questions_round_trip sampleEnv 7 0 1 completedStore [] eq_refl).
Defined.

(** After the sample history the question 0 is not saved; saving it
    makes it the one saved question of the topic 1. *)
Example saving_the_first_question :
  (run (getQuestions sampleEnv 1 true) completedStore []).1 = Ok []
  /\ (run (getQuestions sampleEnv 1 true)
        (run (saveQuestion sampleEnv 0) completedStore []).2 []).1
     = Ok [ {| pool_data := sampleFlashcard; pool_id := 0; pool_is_saved := true |} ].
Proof. split; vm_compute; reflexivity. Qed.

(** *** Topics *)

Lemma wps_createTopic (env : Env) (name : string) (s : Store) :
  wps (createTopic env name) s
    (fun r s' =>
       match r with
       | Ok (id, row) =>
           exists user,
             getUser env = Some user
             /\ row = {| topic_user_id := user; topic_name := name |}
             /\ topics s !! id = None
             /\ topics s' = <[id := row]> (topics s)
       | Throw _ => s' = s
       end).
Proof.
  unfold createTopic.
  wps_user; [done|].
  wps_steps; [done|].
  match goal with H : insert_row _ _ = _ |- _ => injection H as <- <- end.
  store_simpl. exists user. repeat split; try done.
  apply not_elem_of_dom, is_fresh.
Qed.

Lemma wps_getTopic_owner (env : Env) (id : nat) (s : Store) :
  wps (getTopic env id) s
    (fun r s' =>
       s' = s
       /\ forall t, r = Ok t ->
            topics s !! id = Some t /\ getUser env = Some (topic_user_id t)).
Proof.
  unfold getTopic.
  wps_user; [by split|].
  wps_steps; (split; [done|]); intros t' [=]; subst.
  split; [done|]. by match goal with
                     | H : (_ =? _) = true |- _ => apply Nat.eqb_eq in H as ->
                     end.
Qed.

Lemma wps_updateTopic_owner (env : Env) (id : nat) (updates : TopicUpdates)
    (s : Store) :
  wps (updateTopic env id updates) s
    (fun r s' =>
       match r with
       | Ok _ =>
           exists t, topics s !! id = Some t /\ getUser env = Some (topic_user_id t)
       | Throw _ => s' = s
       end).
Proof.
  unfold updateTopic.
  wps_user; [done|].
  wps_steps; try done.
  eexists. split; [done|].
  by match goal with
     | H : (_ =? _) = true |- _ => apply Nat.eqb_eq in H as ->
     end.
Qed.

Lemma getTopics_quiet (env : Env) (user : nat) (s : Store) :
  getUser env = Some user ->
  getTopics env (mkSt s [])
  = (Ok (select_rows (fun _ t => topic_user_id t =? user) (topics s)), mkSt s []).
Proof. intros Hu. unfold getTopics, requireUser. by rewrite Hu. Qed.

(** [createTopic], [getTopic], [getTopics] and [updateTopic].  A topic
    that [createTopic] returns is new and belongs to the session user;
    [getTopic] with its key gives it back, and [getTopics] lists it with
    the topics the user had.  For any other session [getTopic] throws,
    [getTopics] does not list it, and [updateTopic] throws and changes
    nothing. *)
Theorem created_topic_round_trip (env : Env) (name : string) (s : Store)
    (faults : list (option Error)) (id : nat) (row : Topic) :
  (run (createTopic env name) s faults).1 = Ok (id, row) ->
  exists user,
    getUser env = Some user
    /\ row = {| topic_user_id := user; topic_name := name |}
    /\ topics s !! id = None
    /\ run (getTopic env id) (run (createTopic env name) s faults).2 []
       = (Ok row, (run (createTopic env name) s faults).2)
    /\ (exists l,
          run (getTopics env) (run (createTopic env name) s faults).2 []
          = (Ok l, (run (createTopic env name) s faults).2)
          /\ forall k t,
               (k, t) ∈ l
               <-> (k, t) = (id, row)
                   \/ (topics s !! k = Some t /\ topic_user_id t = user))
    /\ (forall other faults',
          getUser other <> Some user ->
          is_ok (run (getTopic other id) (run (createTopic env name) s faults).2
                   faults').1 = false
          /\ (forall l,
                (run (getTopics other) (run (createTopic env name) s faults).2
                   []).1 = Ok l ->
                (id, row) ∉ l)
          /\ (forall updates,
                run (updateTopic other id updates)
                  (run (createTopic env name) s faults).2 faults'
                = ((run (updateTopic other id updates)
                      (run (createTopic env name) s faults).2 faults').1,
                   (run (createTopic env name) s faults).2)
                /\ is_ok (run (updateTopic other id updates)
                            (run (createTopic env name) s faults).2 faults').1
                   = false)).
Proof.
  intros Hr.
  pose proof (wps_run _ _ _ faults (wps_createTopic env name s)) as H.
  rewrite Hr in H. destruct H as (user & Hu & Hrow & Hnew & Ht).
  set (s' := (run (createTopic env name) s faults).2) in *.
  assert (Hid : topics s' !! id = Some row) by (rewrite Ht; apply lookup_insert_eq).
  exists user. repeat split; try done.
  - unfold run.
    rewrite (ServiceProps.getTopic_quiet env id user row s' Hu Hid); [done|].
    by rewrite Hrow.
  - eexists. split.
    { unfold run. rewrite (getTopics_quiet env user s' Hu). reflexivity. }
    intros k t. rewrite select_rows_elem, Ht. split.
    + intros [Hk Ho]. apply Nat.eqb_eq in Ho.
      destruct (decide (k = id)) as [->|Hne].
      * rewrite lookup_insert_eq in Hk. injection Hk as <-. by left.
      * rewrite lookup_insert_ne in Hk by done. by right.
    + intros [[= -> ->]|[Hk Ho]].
      * rewrite lookup_insert_eq. split; [done|].
        rewrite Hrow. simpl. apply Nat.eqb_refl.
      * split; [|by apply Nat.eqb_eq].
        rewrite lookup_insert_ne; [done|]. intros ->. congruence.
  - destruct (wps_run _ _ _ faults' (wps_getTopic_owner other id s')) as [_ Hok].
    destruct (run (getTopic other id) s' faults').1 as [t|e]; [|done].
    destruct (Hok t eq_refl) as [Hk Ho].
    assert (t = row) as -> by congruence.
    rewrite Hrow in Ho. simpl in Ho. by destruct H.
  - intros l Hl Hin.
    destruct (getUser other) as [u|] eqn:Hother.
    + unfold run in Hl. rewrite (getTopics_quiet other u s' Hother) in Hl.
      simpl in Hl. injection Hl as <-.
      apply select_rows_elem in Hin as [_ Ho]. apply Nat.eqb_eq in Ho.
      rewrite Hrow in Ho. simpl in Ho. subst u. by destruct H.
    + unfold run, getTopics, requireUser in Hl. by rewrite Hother in Hl.
  - pose proof (wps_run _ _ _ faults' (wps_updateTopic_owner other id updates s'))
      as Hup.
    destruct (run (updateTopic other id updates) s' faults') as [[t|e] s2];
      simpl in *; [|by subst].
    destruct Hup as (t0 & Hk & Ho).
    assert (t0 = row) as -> by congruence.
    rewrite Hrow in Ho. simpl in Ho. by destruct H.
  - pose proof (wps_run _ _ _ faults' (wps_updateTopic_owner other id updates s'))
      as Hup.
    destruct (run (updateTopic other id updates) s' faults').1 as [t|e]; [|done].
    destruct Hup as (t0 & Hk & Ho).
    assert (t0 = row) as -> by congruence.
    rewrite Hrow in Ho. simpl in Ho. by destruct H.
Qed.

Lemma created_topic_round_trip_witness :
  exists user,
    getUser sampleEnv = Some user
    /\ {| topic_user_id := 7; topic_name := "Chemistry" |}
       = {| topic_user_id := user; topic_name := "Chemistry" |}
    /\ topics sampleStore !! 3 = None
    /\ run (getTopic sampleEnv 3) (run (createTopic sampleEnv "Chemistry") sampleStore []).2 []
       = (Ok {| topic_user_id := 7; topic_name := "Chemistry" |},
          (run (createTopic sampleEnv "Chemistry") sampleStore []).2).
Proof.
  destruct (created_topic_round_trip sampleEnv "Chemistry" sampleStore [] 3
              {| topic_user_id := 7; topic_name := "Chemistry" |})
    as (user & H1 & H2 & H3 & H4 & _); [vm_compute; reflexivity|].
  by exists user.
Defined.

(** *** Questions without a generation *)

Lemma wps_addQuestions (env : Env) (topicId : nat) (items : list StudyItem)
    (s : Store) :
  wps (addQuestions env topicId items) s
    (fun r s' =>
       match r with
       | Ok data =>
           exists user,
             getUser env = Some user
             /\ inserted (questions s) data (questions s')
             /\ Forall2 (plain_question topicId user) items data.*2
             /\ generations s' = generations s
             /\ generation_items s' = generation_items s
       | Throw _ => s' = s
       end).
Proof.
  unfold addQuestions.
  wps_user; [done|].
  wps_steps; [done|].
  match goal with H : insert_rows ?rows ?t = _ |- _ =>
    pose proof (TableFacts.inserted_insert_rows rows t) as Hins;
    pose proof (TableFacts.insert_rows_values rows t) as Hval;
    rewrite H in Hins, Hval
  end.
  store_simpl. exists user. repeat split; try done.
  rewrite Hval. clear. induction items as [|item items IH]; constructor; done.
Qed.

(** [addQuestions]: a call that returns has inserted one question for
    each item, in their order, for the session user and the topic,
    unsaved and without a generation or sources; a call that throws has
    written nothing.  Such questions are outside the record of
    provenance: the call keeps the generations and the generation items,
    and with them attribution containment and the attribution at the
    grain of the run. *)
Theorem added_questions_have_no_generation (env : Env) (topicId : nat)
    (items : list StudyItem) (s : Store) (faults : list (option Error)) :
  match (run (addQuestions env topicId items) s faults).1 with
  | Ok data =>
      exists user,
        getUser env = Some user
        /\ inserted (questions s) data
             (questions (run (addQuestions env topicId items) s faults).2)
        /\ Forall2 (plain_question topicId user) items data.*2
  | Throw _ => (run (addQuestions env topicId items) s faults).2 = s
  end
  /\ (attribution_contained s ->
      attribution_contained (run (addQuestions env topicId items) s faults).2)
  /\ (attribution_exact s ->
      attribution_exact (run (addQuestions env topicId items) s faults).2).
Proof.
  pose proof (wps_run _ _ _ faults (wps_addQuestions env topicId items s)) as H.
  destruct (run (addQuestions env topicId items) s faults).1 as [data|e].
  2: { rewrite H. split; [done|]. split; intros ?; assumption. }
  destruct H as (user & Hu & Hins & Hplain & Hg & Hi).
  split; [by exists user|]. split.
  - intros Hinv k it Hk. rewrite Hi in Hk. rewrite Hg. by apply (Hinv k it).
  - intros [Hitems Hquestions]. split.
    + intros k it Hk. rewrite Hi in Hk. rewrite Hg. by apply (Hitems k it).
    + intros k q gid Hk Hgid. rewrite Hg.
      destruct (TableFacts.inserted_lookup _ _ _ _ _ Hins Hk) as [Hold|Hnew].
      * by apply (Hquestions k q gid).
      * assert (Hq : q ∈ data.*2).
        { apply list_elem_of_fmap. by exists (k, q). }
        apply list_elem_of_lookup in Hq as [i Hi'].
        destruct (Forall2_lookup_r _ _ _ _ _ Hplain Hi') as (item & _ & Hitem).
        rewrite Hitem in Hgid. discriminate.
Qed.

End ContentProps.
